(** * MinVault: a file-upload gateway in front of an S3-compatible store

    A shallow embedding of the request-validation, naming, listing and
    error-mapping code of the service, with the properties of its
    specification stated over that embedding.

    JavaScript strings are modelled as [string] (sequences of code units
    below 256), integers as [Z], the numbers produced by [parseFloat] as
    the binary64 values they are (each kept as the rational it denotes),
    [undefined]/[null] as [None]. *)

From Stdlib Require Import ZArith QArith Qround List String Ascii Bool Lia.
From Stdlib Require Import DecimalString DecimalPos DecimalZ.
Import ListNotations.

Open Scope string_scope.
Open Scope Z_scope.

(** ** JavaScript built-ins used by the sources *)

Module Js.

(** [s.length] *)
Definition len (s : string) : Z := Z.of_nat (String.length s).

(** [s.slice(from, to)] with the standard clamping of negative indices. *)
Definition clamp (n i : Z) : Z :=
  if i <? 0 then Z.max (n + i) 0 else Z.min i n.

Definition slice (s : string) (from to : Z) : string :=
  let n := len s in
  let a := clamp n from in
  let b := clamp n to in
  substring (Z.to_nat a) (Z.to_nat (b - a)) s.

(** [s.startsWith(p)] *)
Definition startsWith (s p : string) : bool := String.prefix p s.

(** [s.endsWith(p)] *)
Definition endsWith (s p : string) : bool :=
  let n := String.length s in
  let m := String.length p in
  (m <=? n)%nat && (substring (n - m) m s =? p)%string.

(** [s.includes(p)] *)
Fixpoint includes (s p : string) : bool :=
  match s with
  | EmptyString => String.prefix p EmptyString
  | String _ s' => String.prefix p s || includes s' p
  end.

(** [xs.join(sep)] *)
Definition join (sep : string) (xs : list string) : string :=
  String.concat sep xs.

(** Truthiness of a possibly-undefined string: [undefined] and [""] are
    falsy. *)
Definition truthy_str (o : option string) : bool :=
  match o with
  | Some s => negb (s =? "")%string
  | None => false
  end.

(** Truthiness of a possibly-undefined number: [undefined], [NaN] (both
    [None]) and [0] are falsy. *)
Definition truthy_num (o : option Z) : bool :=
  match o with
  | Some n => negb (n =? 0)
  | None => false
  end.

(** [a || b] on possibly-undefined strings and numbers, with a default. *)
Definition or_str (o : option string) (d : string) : string :=
  match o with
  | Some s => if (s =? "")%string then d else s
  | None => d
  end.

Definition or_num (o : option Z) (d : Z) : Z :=
  match o with
  | Some n => if n =? 0 then d else n
  | None => d
  end.

(** Code-unit classes of the regular-expression escapes [\d] and [\s]
    (restricted to code units below 256). *)
Definition isDigit (c : ascii) : bool :=
  let n := nat_of_ascii c in ((48 <=? n) && (n <=? 57))%nat.

Definition isSpace (c : ascii) : bool :=
  let n := nat_of_ascii c in
  ((n =? 32) || ((9 <=? n) && (n <=? 13)) || (n =? 160))%nat.

(** [toUpperCase] on one code unit: [a]..[z] go to [A]..[Z]; the sources
    apply it only to text the size pattern has already restricted to
    ASCII letters, so other code units are left as they are. *)
Definition upper (c : ascii) : ascii :=
  let n := nat_of_ascii c in
  if ((97 <=? n) && (n <=? 122))%nat then ascii_of_nat (n - 32) else c.

Definition toUpperCase (s : list ascii) : list ascii := map upper s.

(** Longest prefix whose elements satisfy [p], and the rest. *)
Fixpoint span (p : ascii -> bool) (l : list ascii)
  : list ascii * list ascii :=
  match l with
  | [] => ([], [])
  | c :: l' =>
      if p c then let (a, b) := span p l' in (c :: a, b)
      else ([], l)
  end.

Definition digit_val (c : ascii) : Z := Z.of_nat (nat_of_ascii c) - 48.

(** Value of a run of decimal digits. *)
Definition digits_val (ds : list ascii) : Z :=
  fold_left (fun acc c => 10 * acc + digit_val c) ds 0.

(** The number denoted by an integer part [ds] and a fraction part
    [fs] (digits after the point, possibly none). *)
Definition decimal_value (ds fs : list ascii) : Q :=
  (inject_Z (digits_val ds)
   + inject_Z (digits_val fs) / inject_Z (10 ^ Z.of_nat (List.length fs)))%Q.

(** A number, as far as the sources compute with one: [NaN],
    [+Infinity], or a finite binary64 value that is not negative, kept as
    the rational it denotes (in lowest terms). *)
Inductive Num :=
| NaN
| PInf
| Fin (q : Q).

(** [2 ^ e] for any integer [e]. *)
Definition pow2 (e : Z) : Q :=
  if 0 <=? e then inject_Z (2 ^ e) else 1 # Z.to_pos (2 ^ (- e)).

(** [n / d / 2 ^ e] as a fraction of integers. *)
Definition scaled (n d e : Z) : Z * Z :=
  if 0 <=? e then (n, d * 2 ^ e) else (n * 2 ^ (- e), d).

(** The binary64 value of a rational that is not negative: the nearest
    [m * 2 ^ e] with [m < 2 ^ 53] and [-1074 <= e], ties going to the even
    [m], and [+Infinity] from [2 ^ 1024 - 2 ^ 970] on. The exponent is
    found from the bit lengths of numerator and denominator, one too high
    at most. *)
Definition to_double (q : Q) : Num :=
  let n := Qnum q in
  let d := Z.pos (Qden q) in
  if n <=? 0 then Fin 0
  else
    let e0 := Z.log2 n - Z.log2 d - 52 in
    let e1 := if fst (scaled n d e0) / snd (scaled n d e0) <? 2 ^ 52
              then e0 - 1 else e0 in
    let e := Z.max e1 (-1074) in
    let (num, den) := scaled n d e in
    let m := num / den in
    let r := num mod den in
    let m' := if (den <? 2 * r) || ((den =? 2 * r) && Z.odd m)
              then m + 1 else m in
    if (971 <? e) || ((e =? 971) && (2 ^ 53 <=? m')) then PInf
    else Fin (Qred (inject_Z m' * pow2 e)).

(** [x * u] for a number [x] that is not negative and a positive integer
    [u] that is a binary64 value itself: the exact product, rounded. *)
Definition times (x : Num) (u : Z) : Num :=
  match x with
  | NaN => NaN
  | PInf => PInf
  | Fin a => to_double (a * inject_Z u)
  end.

(** [parseFloat] on an unsigned decimal literal without exponent: digits,
    then optionally a point and more digits; [NaN] when there is no
    digit. The value of the literal is rounded to binary64. *)
Definition parseFloat (s : list ascii) : Num :=
  let (ds, r) := span isDigit s in
  let fs := match r with
            | c :: r' => if Ascii.eqb c "." then fst (span isDigit r') else []
            | [] => []
            end in
  match ds, fs with
  | [], [] => NaN
  | _, _ => to_double (decimal_value ds fs)
  end.

(** Template-literal rendering of an integer: its decimal numeral. *)
Definition Z_to_string (z : Z) : string :=
  NilZero.string_of_int (Z.to_int z).

(** [s.split(sep)[0]] for a one-unit separator: the text before the
    first separator. *)
Fixpoint split_first (sep : ascii) (s : string) : string :=
  match s with
  | EmptyString => EmptyString
  | String c s' =>
      if Ascii.eqb c sep then EmptyString else String c (split_first sep s')
  end.

(** [width] decimal digits of [z], least significant last. *)
Fixpoint pad (width : nat) (z : Z) : string :=
  match width with
  | O => EmptyString
  | S w =>
      pad w (z / 10)
      ++ String (ascii_of_nat (Z.to_nat (48 + z mod 10))) EmptyString
  end.

(** Year, month and day of the day [days] after 1970-01-01, in the
    proleptic Gregorian calendar. *)
Definition civil (days : Z) : Z * Z * Z :=
  let z := days + 719468 in
  let era := z / 146097 in
  let doe := z - era * 146097 in
  let yoe := (doe - doe / 1460 + doe / 36524 - doe / 146096) / 365 in
  let doy := doe - (365 * yoe + yoe / 4 - yoe / 100) in
  let mp := (5 * doy + 2) / 153 in
  let d := doy - (153 * mp + 2) / 5 + 1 in
  let m := if mp <? 10 then mp + 3 else mp - 9 in
  (yoe + era * 400 + (if m <=? 2 then 1 else 0), m, d).

(** Years outside 0..9999 take a sign and six digits. *)
Definition year_text (y : Z) : string :=
  if (0 <=? y) && (y <=? 9999) then pad 4 y
  else (if y <? 0 then "-" else "+") ++ pad 6 (Z.abs y).

Definition iso_text (y m d t : Z) : string :=
  year_text y ++ "-" ++ pad 2 m ++ "-" ++ pad 2 d ++ "T"
  ++ pad 2 (t / 3600000) ++ ":" ++ pad 2 (t / 60000 mod 60) ++ ":"
  ++ pad 2 (t / 1000 mod 60) ++ "." ++ pad 3 (t mod 1000) ++ "Z".

(** [new Date(ms).toISOString()], in UTC. [None] is the [RangeError] of
    an instant outside the range a [Date] can hold. *)
Definition toISOString (ms : Z) : option string :=
  if 8640000000000000 <? Z.abs ms then None
  else
    let '(y, m, d) := civil (ms / 86400000) in
    Some (iso_text y m d (ms mod 86400000)).

(** [s.split(sep)] for a one-unit separator. *)
Fixpoint split_char (sep : ascii) (s : string) : list string :=
  match s with
  | EmptyString => [EmptyString]
  | String c s' =>
      match split_char sep s' with
      | [] => [EmptyString]
      | x :: xs =>
          if Ascii.eqb c sep then EmptyString :: x :: xs
          else String c x :: xs
      end
  end.

Definition hex_val (c : ascii) : option Z :=
  let n := nat_of_ascii c in
  if isDigit c then Some (Z.of_nat n - 48)
  else if ((97 <=? n) && (n <=? 102))%nat then Some (Z.of_nat n - 87)
  else if ((65 <=? n) && (n <=? 70))%nat then Some (Z.of_nat n - 55)
  else None.

Definition isHex (c : ascii) : bool :=
  match hex_val c with Some _ => true | None => false end.

Definition hex_digits_val (ds : list ascii) : Z :=
  fold_left (fun acc c => 16 * acc + match hex_val c with
                                     | Some v => v
                                     | None => 0
                                     end) ds 0.

(** [parseInt(s)] without a radix: leading white space, an optional
    sign, an optional [0x] prefix, then the longest run of digits;
    [None] is [NaN]. The integer is kept as it is written: for a numeral
    beyond [2 ^ 53] the source has the binary64 value nearest to it. *)
Definition parseInt_l (s : list ascii) : option Z :=
  let r := snd (span isSpace s) in
  let (sign, r1) :=
    match r with
    | "-"%char :: r' => (-1, r')
    | "+"%char :: r' => (1, r')
    | _ => (1, r)
    end in
  match r1 with
  | "0"%char :: x :: r2 =>
      if (Ascii.eqb x "x" || Ascii.eqb x "X")%bool then
        match fst (span isHex r2) with
        | [] => None
        | hs => Some (sign * hex_digits_val hs)
        end
      else Some (sign * digits_val (fst (span isDigit r1)))
  | _ =>
      match fst (span isDigit r1) with
      | [] => None
      | ds => Some (sign * digits_val ds)
      end
  end.

(** [parseInt(x)] where [x] may be [undefined] (whose text, "undefined",
    has no digits). *)
Definition parseInt (x : option string) : option Z :=
  match x with
  | Some s => parseInt_l (list_ascii_of_string s)
  | None => None
  end.

End Js.


(** ** Node's [path] module (POSIX flavour) *)

Module Path.

Definition isSlash (c : ascii) : bool := Ascii.eqb c "/".
Definition notSlash (c : ascii) : bool := negb (isSlash c).
Definition notDot (c : ascii) : bool := negb (Ascii.eqb c ".").

(** The last portion of a path: trailing slashes are dropped, then the
    text after the last remaining slash is kept. Empty when the path has
    nothing but slashes. *)
Definition last_portion (p : list ascii) : list ascii :=
  rev (fst (Js.span notSlash (snd (Js.span isSlash (rev p))))).

(** [path.extname]: from the last ["."] of the last portion to its end;
    empty when there is no ["."], when the only ["."] is the first
    character of the portion, and when the portion is [".."]. *)
Definition extname_l (p : list ascii) : list ascii :=
  let comp := last_portion p in
  let (rext, rest) := Js.span notDot (rev comp) in
  match rest with
  | [] => []
  | dot :: rbase =>
      match rbase with
      | [] => []
      | _ =>
          if list_eq_dec ascii_dec comp [ "."%char; "."%char ] then []
          else dot :: rev rext
      end
  end.

(** Does [l] end with [suf]?  When it does, what precedes [suf]. *)
Definition strip_suffix (suf l : list ascii) : option (list ascii) :=
  let n := (List.length l - List.length suf)%nat in
  if list_eq_dec ascii_dec (skipn n l) suf then Some (firstn n l) else None.

(** The slashes a path ends with. *)
Definition trailing_slashes (p : list ascii) : list ascii :=
  fst (Js.span isSlash (rev p)).

(** [path.basename(p, suffix)]: the last portion with [suffix] removed
    when the portion ends with it and is more than it.  The corner cases
    of Node's right-to-left scan are kept: a suffix equal to the whole
    path gives the empty string; with a non-empty suffix no longer than
    the path, a path of slashes only is returned whole, and a portion that
    is itself only the end of the suffix is returned with the slashes
    that follow it. *)
Definition basename_l (p suffix : list ascii) : list ascii :=
  let comp := last_portion p in
  match suffix with
  | [] => comp
  | _ =>
      if (List.length suffix <=? List.length p)%nat then
        if list_eq_dec ascii_dec suffix p then []
        else match comp with
             | [] => p
             | _ =>
                 match strip_suffix suffix comp with
                 | Some [] => comp
                 | Some b => b
                 | None =>
                     match strip_suffix comp suffix with
                     | Some _ => (comp ++ trailing_slashes p)%list
                     | None => comp
                     end
                 end
             end
      else comp
  end.

Definition extname (p : string) : string :=
  string_of_list_ascii (extname_l (list_ascii_of_string p)).

Definition basename (p suffix : string) : string :=
  string_of_list_ascii
    (basename_l (list_ascii_of_string p) (list_ascii_of_string suffix)).

End Path.

(** ** Error values *)

(** [instanceof multer.MulterError] is the only class test the sources
    make. *)
Inductive error_class := PlainError | MulterError.

Record JsError := mkError {
  err_class : error_class;
  err_name : string;
  err_message : string;
  err_code : option string;
  err_statusCode : option Z;
  err_stack : string
}.

(** [new Error(msg)]; the stack text is produced by the engine and is
    taken as given. *)
Definition new_Error (msg : string) : JsError :=
  mkError PlainError "Error" msg None None ("Error: " ++ msg).

(** ** JSON bodies and HTTP responses *)

#[local] Set Warnings "-register-all".

Inductive Json :=
| JNull
| JBool (b : bool)
| JNum (n : Z)
| JStr (s : string)
| JArr (xs : list Json)
| JObj (fields : list (string * Json)).

(** Property lookup on an object literal. *)
Fixpoint assoc (k : string) (fields : list (string * Json)) : option Json :=
  match fields with
  | [] => None
  | (k', v) :: fs => if (k =? k')%string then Some v else assoc k fs
  end.

Definition field (k : string) (j : Json) : option Json :=
  match j with
  | JObj fs => assoc k fs
  | _ => None
  end.

(** Assignment of a property: in place when the key exists, appended
    otherwise (the order a spread followed by new keys produces). *)
Fixpoint set_field (k : string) (v : Json) (fields : list (string * Json))
  : list (string * Json) :=
  match fields with
  | [] => [(k, v)]
  | (k', v') :: fs =>
      if (k =? k')%string then (k, v) :: fs else (k', v') :: set_field k v fs
  end.

(** A property whose value may be [undefined] is left out when the body
    is serialised. *)
Definition opt_str_field (k : string) (o : option string)
  : list (string * Json) :=
  match o with
  | Some s => [(k, JStr s)]
  | None => []
  end.

(** A [Date] inside a body is serialised by [toJSON]: its ISO text, or
    [null] when the instant is not representable. *)
Definition date_json (ms : Z) : Json :=
  match Js.toISOString ms with
  | Some s => JStr s
  | None => JNull
  end.

Record Response := mkResponse {
  status : Z;
  body : Json
}.

(** ** Configuration (src/config/index.js) *)

Record UploadConfig := mkUploadConfig {
  maxFileSize : string;
  allowedFileTypes : list string
}.

Record Config := mkConfig {
  nodeEnv : string;
  bucketName : string;
  upload : UploadConfig;
  presignedUrl_expiry : Z
}.

(** The fields of the configuration object the modelled code reads, as
    computed from the process environment. *)
Definition load_config (env : string -> option string) : Config :=
  {| nodeEnv := Js.or_str (env "NODE_ENV") "development";
     bucketName := Js.or_str (env "MINIO_BUCKET_NAME") "uploads";
     upload :=
       {| maxFileSize := Js.or_str (env "MAX_FILE_SIZE") "100MB";
          allowedFileTypes :=
            match env "ALLOWED_FILE_TYPES" with
            | Some s => Js.split_char "," s
            | None => ["video/*"; "image/*"; "application/pdf"]
            end |};
     presignedUrl_expiry :=
       Js.or_num (Js.parseInt (env "PRESIGNED_URL_EXPIRY")) 3600 |}.

(** ** The world a request runs in *)

(** An in-memory upload as multer hands it over. *)
Record File := mkFile {
  fieldname : string;
  originalname : string;
  mimetype : string;
  buffer : string;
  size : Z
}.

Record MetaData := mkMetaData {
  meta_ContentType : string;
  meta_OriginalName : string;
  meta_UploadDate : string
}.

(** Calls made on the MinIO client, in the order they are issued. *)
Inductive Call :=
| PutObject (bucket name buf : string) (sz : Z) (meta : MetaData)
| PresignedGetObject (bucket name : string) (expiry : Z)
| RemoveObject (bucket name : string)
| ListObjects (bucket pfx : string) (recursive : bool)
| StatObject (bucket name : string)
| BucketExists (bucket : string).

Record BucketItem := mkItem {
  item_name : string;
  item_size : Z;
  item_lastModified : Z;
  item_etag : string
}.

(** An object stream: the ['data'] events it emits, then its single
    ['end'] or ['error'] event. *)
Inductive StreamEnd := StreamEnded | StreamError (e : JsError).

Record Stream := mkStream {
  stream_data : list BucketItem;
  stream_end : StreamEnd
}.

Record Stat := mkStat {
  stat_size : Z;
  stat_lastModified : Z;
  stat_etag : string;
  stat_metaData : list (string * string)
}.

(** The storage backend is outside the system: each operation answers
    as a function of the calls made so far and of its arguments. *)
Record Backend := mkBackend {
  be_putObject : list Call -> string -> string -> string -> Z -> MetaData
                 -> option JsError;
  be_presignedGetObject : list Call -> string -> string -> Z
                          -> JsError + string;
  be_removeObject : list Call -> string -> string -> option JsError;
  be_listObjects : list Call -> string -> string -> bool
                   -> JsError + Stream;
  be_statObject : list Call -> string -> string -> JsError + Stat;
  be_bucketExists : list Call -> string -> JsError + bool
}.

(** What the code reads from its surroundings: the configuration, the
    successive readings of the clock, the successive results of
    [uuidv4()], and the backend. *)
Record Env := mkEnv {
  config : Config;
  clock : nat -> Z;
  uuidv4 : nat -> string;
  backend : Backend
}.

(** What a request changes. *)
Record World := mkWorld {
  clock_reads : nat;
  uuids_drawn : nat;
  calls : list Call;
  responses : list Response
}.

Definition initial_world : World := mkWorld 0 0 [] [].

(** Computations that may throw. *)
Inductive Result (A : Type) :=
| Ok (a : A)
| Throw (e : JsError).

Arguments Ok {A} a.
Arguments Throw {A} e.

Definition M (A : Type) : Type := World -> Result A * World.

Definition ret {A} (a : A) : M A := fun w => (Ok a, w).

Definition throw {A} (e : JsError) : M A := fun w => (Throw e, w).

Definition bind {A B} (m : M A) (k : A -> M B) : M B :=
  fun w =>
    match m w with
    | (Ok a, w') => k a w'
    | (Throw e, w') => (Throw e, w')
    end.

(** [try { m } catch (error) { h error }] *)
Definition try_catch {A} (m : M A) (h : JsError -> M A) : M A :=
  fun w =>
    match m w with
    | (Ok a, w') => (Ok a, w')
    | (Throw e, w') => h e w'
    end.

Notation "x <- m ;; k" := (bind m (fun x => k))
  (at level 61, m at next level, right associativity).
Notation "m ;;; k" := (bind m (fun _ => k))
  (at level 61, right associativity).

(** [Date.now()] *)
Definition Date_now (env : Env) : M Z :=
  fun w =>
    (Ok (clock env (clock_reads w)),
     mkWorld (S (clock_reads w)) (uuids_drawn w) (calls w) (responses w)).

Definition RangeError_invalid_time : JsError :=
  mkError PlainError "RangeError" "Invalid time value" None None
          "RangeError: Invalid time value".

(** [new Date(ms).toISOString()] *)
Definition iso (ms : Z) : M string :=
  match Js.toISOString ms with
  | Some s => ret s
  | None => throw RangeError_invalid_time
  end.

(** [new Date().toISOString()] *)
Definition now_iso (env : Env) : M string :=
  t <- Date_now env ;; iso t.

(** [uuidv4()] *)
Definition draw_uuid (env : Env) : M string :=
  fun w =>
    (Ok (uuidv4 env (uuids_drawn w)),
     mkWorld (clock_reads w) (S (uuids_drawn w)) (calls w) (responses w)).

(** Issuing a backend call records it. *)
Definition record_call (c : Call) : M unit :=
  fun w =>
    (Ok tt,
     mkWorld (clock_reads w) (uuids_drawn w) (calls w ++ [c])%list (responses w)).

(** The calls made so far. *)
Definition history : M (list Call) := fun w => (Ok (calls w), w).

(** [res.status(code).json(body)] *)
Definition send (code : Z) (b : Json) : M unit :=
  fun w =>
    (Ok tt,
     mkWorld (clock_reads w) (uuids_drawn w) (calls w)
             (responses w ++ [mkResponse code b])%list).

(** How a middleware or handler hands over: it is done, it has called
    [next(error)], or (an async handler) its promise was rejected with
    nothing to catch it. *)
Inductive Outcome :=
| Done
| Next (e : JsError)
| Unhandled (e : JsError).

(** ** Upload middleware (src/middleware/upload.js) *)

Module Upload.

(** The [units] object of [parseSize]. *)
Definition units : list (string * Z) :=
  [("B", 1); ("KB", 1024); ("MB", 1024 ^ 2); ("GB", 1024 ^ 3)].

Fixpoint lookup (k : string) (tbl : list (string * Z)) : option Z :=
  match tbl with
  | [] => None
  | (k', v) :: tbl' => if (k =? k')%string then Some v else lookup k tbl'
  end.

(** The alternatives [(B|KB|MB|GB)] under the [i] flag, anchored at the
    end of the input. *)
Definition unit_alternatives : list (list ascii) :=
  map list_ascii_of_string ["B"; "KB"; "MB"; "GB"].

Definition matches_unit (r : list ascii) : bool :=
  existsb (fun u => if list_eq_dec ascii_dec (Js.toUpperCase r) u
                    then true else false) unit_alternatives.

(** [sizeStr.match(/^(\d+(?:\.\d+)?)\s*(B|KB|MB|GB)$/i)]: the two capture
    groups, or [None] when the text does not match. Every quantifier of
    the pattern is followed by something that cannot start with a code
    unit the quantifier accepts, so the greedy scan is the only way to
    match. *)
Definition size_match (s : list ascii)
  : option (list ascii * list ascii) :=
  let (ds, r1) := Js.span Js.isDigit s in
  match ds with
  | [] => None
  | _ =>
      let (frac, r2) :=
        match r1 with
        | c :: r =>
            if Ascii.eqb c "." then
              let (fs, r') := Js.span Js.isDigit r in
              match fs with
              | [] => ([], r1)
              | _ => (c :: fs, r')
              end
            else ([], r1)
        | [] => ([], r1)
        end in
      let r3 := snd (Js.span Js.isSpace r2) in
      if matches_unit r3 then Some ((ds ++ frac)%list, r3) else None
  end.

(** [parseSize]; a unit missing from the table would make the product
    [NaN]. *)
Definition parseSize (sizeStr : string) : Js.Num :=
  match size_match (list_ascii_of_string sizeStr) with
  | None => Js.Fin (inject_Z (10 * 1024 * 1024))
  | Some (number, unit) =>
      match lookup (string_of_list_ascii (Js.toUpperCase unit)) units with
      | Some u => Js.times (Js.parseFloat number) u
      | None => Js.NaN
      end
  end.

Inductive filter_result :=
| Accept
| Reject (e : JsError).

(** The predicate handed to [allowedTypes.some]. *)
Definition type_matches (mime type : string) : bool :=
  if Js.endsWith type "/*" then
    let baseType := Js.slice type 0 (-2) in
    Js.startsWith mime baseType
  else (mime =? type)%string.

Definition isAllowed (allowedTypes : list string) (mime : string) : bool :=
  existsb (type_matches mime) allowedTypes.

Definition fileFilter (cfg : UploadConfig) (file : File) : filter_result :=
  let allowedTypes := allowedFileTypes cfg in
  if isAllowed allowedTypes (mimetype file) then Accept
  else Reject (new_Error ("File type " ++ mimetype file
                 ++ " is not allowed. Allowed types: "
                 ++ Js.join ", " allowedTypes)).

(** *** multer, as configured by this module

    multer itself is a third-party library; what follows is its
    decode behaviour for the options the module sets: [limits.files] (a
    request with more file parts than this is cut off with
    [LIMIT_FILE_COUNT]), the per-field count of [single]/[array] (a file
    under another field name, or one more than the field allows, gives
    [LIMIT_UNEXPECTED_FILE]), the [fileFilter] callback, and
    [limits.fileSize], which its multipart parser (busboy 1.x) applies
    while it reads a file part. File parts are taken in the order they
    arrive and the first failure aborts the decode. *)

Record Limits := mkLimits {
  limit_fileSize : Js.Num;
  limit_files : Z
}.

Definition limits (cfg : Config) : Limits :=
  {| limit_fileSize := parseSize (maxFileSize (upload cfg));
     limit_files := 10 |}.

Definition multer_message (code : string) : string :=
  if (code =? "LIMIT_PART_COUNT")%string then "Too many parts"
  else if (code =? "LIMIT_FILE_SIZE")%string then "File too large"
  else if (code =? "LIMIT_FILE_COUNT")%string then "Too many files"
  else if (code =? "LIMIT_FIELD_KEY")%string then "Field name too long"
  else if (code =? "LIMIT_FIELD_VALUE")%string then "Field value too long"
  else if (code =? "LIMIT_FIELD_COUNT")%string then "Too many fields"
  else if (code =? "LIMIT_UNEXPECTED_FILE")%string then "Unexpected field"
  else if (code =? "MISSING_FIELD_NAME")%string then "Field name missing"
  else "".

Definition new_MulterError (code : string) : JsError :=
  mkError MulterError "MulterError" (multer_message code) (Some code) None
          ("MulterError: " ++ multer_message code).

(** Is [q] a whole number? *)
Definition is_whole (q : Q) : bool := Qeq_bool q (inject_Z (Qfloor q)).

(** The parser counts the bytes of a file part as they come: of each
    chunk it takes [Math.min(length, limit - count)] bytes, and it stops
    the part with ['limit'] (for multer, [LIMIT_FILE_SIZE]) when the count
    comes to be equal to the limit. So a part of at least as many bytes as
    a whole-number limit is refused, the part of exactly the limit
    included. An empty part brings no chunk and is never refused, and
    under a limit that is no whole number, or is infinite, the count never
    equals the limit. ([parseSize] never gives [NaN].) *)
Definition exceeds (sz : Z) (limit : Js.Num) : bool :=
  match limit with
  | Js.Fin q => (0 <? sz) && is_whole q && Qle_bool q (inject_Z sz)
  | _ => false
  end.

(** The bytes of a part that is not refused which are handed on: all of
    them, but under a limit that is no whole number only the whole bytes
    below the limit, without any error. *)
Definition kept (sz : Z) (limit : Js.Num) : Z :=
  match limit with
  | Js.Fin q => Z.max 0 (Z.min sz (Qfloor q))
  | _ => sz
  end.

(** The file multer's memory storage builds from a part: the bytes
    handed on, and their number as its size. *)
Definition stored (limit : Js.Num) (f : File) : File :=
  let k := kept (size f) limit in
  if k <? size f then
    mkFile (fieldname f) (originalname f) (mimetype f)
           (substring 0 (Z.to_nat k) (buffer f)) k
  else f.

Fixpoint decode (cfg : Config) (name : string) (filesLeft seen : Z)
  (parts : list File) : JsError + list File :=
  match parts with
  | [] => inr []
  | f :: rest =>
      if limit_files (limits cfg) <=? seen
      then inl (new_MulterError "LIMIT_FILE_COUNT")
      else if (originalname f =? "")%string
      then decode cfg name filesLeft (seen + 1) rest
      else if negb (fieldname f =? name)%string || (filesLeft <=? 0)
      then inl (new_MulterError "LIMIT_UNEXPECTED_FILE")
      else
        match fileFilter (upload cfg) f with
        | Reject e => inl e
        | Accept =>
            if exceeds (size f) (limit_fileSize (limits cfg))
            then inl (new_MulterError "LIMIT_FILE_SIZE")
            else
              match decode cfg name (filesLeft - 1) (seen + 1) rest with
              | inl e => inl e
              | inr fs => inr (stored (limit_fileSize (limits cfg)) f :: fs)
              end
        end
  end.

(** [upload.single(name)]: [req.file] is the decoded file, if any. *)
Definition single (cfg : Config) (name : string) (parts : list File)
  : JsError + option File :=
  match decode cfg name 1 0 parts with
  | inl e => inl e
  | inr fs => inr (hd_error fs)
  end.

(** [upload.array(name, maxCount)]: [req.files] is the decoded list. *)
Definition array (cfg : Config) (name : string) (maxCount : Z)
  (parts : list File) : JsError + list File :=
  decode cfg name maxCount 0 parts.

(** *** The error middleware *)

Definition respond (code : Z) (b : Json) : World -> Outcome * World :=
  fun w => (Done, snd (send code b w)).

Definition next (e : JsError) : World -> Outcome * World :=
  fun w => (Next e, w).

Definition handleMulterError (cfg : Config) (error : JsError)
  : World -> Outcome * World :=
  match err_class error with
  | MulterError =>
      let code := match err_code error with Some c => c | None => "" end in
      if (code =? "LIMIT_FILE_SIZE")%string then
        respond 400 (JObj [("success", JBool false);
                           ("error", JStr "File too large");
                           ("message", JStr ("Maximum file size is "
                                             ++ maxFileSize (upload cfg)));
                           ("code", JStr "FILE_TOO_LARGE")])
      else if (code =? "LIMIT_FILE_COUNT")%string then
        respond 400 (JObj [("success", JBool false);
                           ("error", JStr "Too many files");
                           ("message", JStr "Maximum 10 files per request");
                           ("code", JStr "TOO_MANY_FILES")])
      else if (code =? "LIMIT_UNEXPECTED_FILE")%string then
        respond 400 (JObj [("success", JBool false);
                           ("error", JStr "Unexpected field");
                           ("message", JStr "Unexpected file field");
                           ("code", JStr "UNEXPECTED_FIELD")])
      else
        respond 400 (JObj [("success", JBool false);
                           ("error", JStr "Upload error");
                           ("message", JStr (err_message error));
                           ("code", JStr "UPLOAD_ERROR")])
  | PlainError =>
      if Js.includes (err_message error) "File type" then
        respond 400 (JObj [("success", JBool false);
                           ("error", JStr "Invalid file type");
                           ("message", JStr (err_message error));
                           ("code", JStr "INVALID_FILE_TYPE")])
      else next error
  end.

End Upload.

(** ** Requests *)

(** The parts of an Express request the handlers read. Query values,
    body fields and route parameters are text or absent. *)
Record Request := mkRequest {
  req_method : string;
  req_path : string;
  req_file : option File;
  req_files : option (list File);
  body_path : option string;
  query_path : option string;
  query_expiry : option string;
  query_prefix : option string;
  query_limit : option string;
  param_filename : option string
}.

(** ** Final handlers (src/middleware/errorHandler.js) *)

Module ErrorHandler.

(** The status, message and code the handler settles on. *)
Definition classify (err : JsError) : Z * string * string :=
  let statusCode := Js.or_num (err_statusCode err) 500 in
  let message := Js.or_str (Some (err_message err)) "Internal Server Error" in
  let code := Js.or_str (err_code err) "INTERNAL_ERROR" in
  if (err_name err =? "ValidationError")%string then
    (400, message, "VALIDATION_ERROR")
  else if (err_name err =? "UnauthorizedError")%string then
    (401, message, "UNAUTHORIZED")
  else if Js.includes (err_message err) "ECONNREFUSED" then
    (503, "Storage service unavailable", "SERVICE_UNAVAILABLE")
  else if Js.includes (err_message err) "NoSuchBucket" then
    (500, "Storage bucket not found", "BUCKET_NOT_FOUND")
  else if Js.includes (err_message err) "AccessDenied" then
    (403, "Storage access denied", "ACCESS_DENIED")
  else (statusCode, message, code).

Definition errorHandler (env : Env) (req : Request) (err : JsError)
  : M unit :=
  let '(statusCode, message, code) := classify err in
  ts <- now_iso env ;;
  let errorResponse :=
    [("success", JBool false);
     ("error", JStr message);
     ("code", JStr code);
     ("timestamp", JStr ts);
     ("path", JStr (req_path req));
     ("method", JStr (req_method req))] in
  let errorResponse :=
    if (nodeEnv (config env) =? "development")%string
    then set_field "stack" (JStr (err_stack err)) errorResponse
    else errorResponse in
  send statusCode (JObj errorResponse).

Definition notFoundHandler (env : Env) (req : Request) : M unit :=
  ts <- now_iso env ;;
  send 404 (JObj [("success", JBool false);
                  ("error", JStr "Route not found");
                  ("code", JStr "NOT_FOUND");
                  ("message", JStr ("Cannot " ++ req_method req ++ " "
                                    ++ req_path req));
                  ("timestamp", JStr ts)]).

End ErrorHandler.

(** ** Storage service (src/services/minioService.js) *)

Module MinioService.

Record UploadResult := mkUploadResult {
  up_success : bool;
  up_objectName : string;
  up_originalName : string;
  up_size : Z;
  up_mimetype : string;
  up_uploadDate : string
}.

Record UrlResult := mkUrlResult {
  url_success : bool;
  url_url : string;
  url_expiresIn : Z;
  url_expiresAt : string
}.

Record ListEntry := mkListEntry {
  le_name : string;
  le_size : Z;
  le_lastModified : Z;
  le_etag : string
}.

Record ListResult := mkListResult {
  lr_success : bool;
  lr_files : list ListEntry;
  lr_count : Z
}.

Record DeleteResult := mkDeleteResult {
  del_success : bool;
  del_message : string
}.

Record FileInfo := mkFileInfo {
  fi_name : string;
  fi_size : Z;
  fi_lastModified : Z;
  fi_etag : string;
  fi_contentType : option string;
  fi_originalName : option string;
  fi_uploadDate : option string
}.

(** [catch (error) { throw new Error(`<what>: ${error.message}`) }] *)
Definition rethrow {A} (what : string) (m : M A) : M A :=
  try_catch m (fun error => throw (new_Error (what ++ err_message error))).

(** A promise that has been started: the synchronous part of its async
    function has run, and [Throw] records a rejection reached on the
    way. *)
Definition started {A} (m : M A) : M (Result A) :=
  fun w => let (r, w') := m w in (Ok r, w').

Definition resume {A} (r : Result A) : M A :=
  match r with
  | Ok a => ret a
  | Throw e => throw e
  end.

Fixpoint lookup_meta (k : string) (m : list (string * string))
  : option string :=
  match m with
  | [] => None
  | (k', v) :: m' => if (k =? k')%string then Some v else lookup_meta k m'
  end.

Section Service.

Variable env : Env.

Definition generateUniqueFilename (originalName : string) : M string :=
  let ext := Path.extname originalName in
  let baseName := Path.basename originalName ext in
  timestamp <- Date_now env ;;
  u <- draw_uuid env ;;
  let uuid := Js.split_first "-" u in
  ret (baseName ++ "_" ++ Js.Z_to_string timestamp ++ "_" ++ uuid ++ ext).

(** [uploadFile] up to its [await]: the key and the metadata are built
    and [putObject] is called; the value is the key with the way the
    put settles. *)
Definition uploadFile_issue (file : File) (customPath : string)
  : M (string * option JsError) :=
  uniqueFilename <- generateUniqueFilename (originalname file) ;;
  let objectName :=
    if (customPath =? "")%string then uniqueFilename
    else customPath ++ "/" ++ uniqueFilename in
  d <- now_iso env ;;
  let metaData := mkMetaData (mimetype file) (originalname file) d in
  h <- history ;;
  record_call (PutObject (bucketName (config env)) objectName (buffer file)
                         (size file) metaData) ;;;
  ret (objectName,
       be_putObject (backend env) h (bucketName (config env)) objectName
                    (buffer file) (size file) metaData).

(** [uploadFile] after its [await]. *)
Definition uploadFile_settle (file : File) (p : string * option JsError)
  : M UploadResult :=
  match snd p with
  | Some e => throw e
  | None =>
      d <- now_iso env ;;
      ret (mkUploadResult true (fst p) (originalname file) (size file)
                          (mimetype file) d)
  end.

Definition uploadFile_started (file : File) (customPath : string)
  : M (Result (string * option JsError)) :=
  started (uploadFile_issue file customPath).

Definition uploadFile_finish (file : File)
  (r : Result (string * option JsError)) : M UploadResult :=
  rethrow "Upload failed: " (p <- resume r ;; uploadFile_settle file p).

Definition uploadFile (file : File) (customPath : string) : M UploadResult :=
  r <- uploadFile_started file customPath ;; uploadFile_finish file r.

(** The default of the [expiry] parameter applies when the argument is
    [undefined]. *)
Definition expiry_or_default (expiry : option Z) : Z :=
  match expiry with
  | Some e => e
  | None => presignedUrl_expiry (config env)
  end.

Definition getPresignedUrl_issue (objectName : string) (expiry : Z)
  : M (JsError + string) :=
  h <- history ;;
  record_call (PresignedGetObject (bucketName (config env)) objectName
                                  expiry) ;;;
  ret (be_presignedGetObject (backend env) h (bucketName (config env))
                             objectName expiry).

Definition getPresignedUrl_settle (expiry : Z) (r : JsError + string)
  : M UrlResult :=
  match r with
  | inl e => throw e
  | inr url =>
      now <- Date_now env ;;
      expiresAt <- iso (now + expiry * 1000) ;;
      ret (mkUrlResult true url expiry expiresAt)
  end.

Definition getPresignedUrl_started (objectName : string) (expiry : option Z)
  : M (Result (JsError + string)) :=
  started (getPresignedUrl_issue objectName (expiry_or_default expiry)).

Definition getPresignedUrl_finish (expiry : option Z)
  (r : Result (JsError + string)) : M UrlResult :=
  rethrow "Failed to generate URL: "
    (p <- resume r ;; getPresignedUrl_settle (expiry_or_default expiry) p).

Definition getPresignedUrl (objectName : string) (expiry : option Z)
  : M UrlResult :=
  r <- getPresignedUrl_started objectName expiry ;;
  getPresignedUrl_finish expiry r.

Definition deleteFile (objectName : string) : M DeleteResult :=
  rethrow "Delete failed: "
    (h <- history ;;
     record_call (RemoveObject (bucketName (config env)) objectName) ;;;
     match be_removeObject (backend env) h (bucketName (config env))
                           objectName with
     | Some e => throw e
     | None => ret (mkDeleteResult true "File deleted successfully")
     end).

(** The ['data'] listener of [listFiles]. *)
Definition on_data (maxKeys : Z) (objects : list ListEntry)
  (obj : BucketItem) : list ListEntry :=
  if Z.of_nat (List.length objects) <? maxKeys then
    (objects ++ [mkListEntry (item_name obj) (item_size obj)
                             (item_lastModified obj) (item_etag obj)])%list
  else objects.

(** The [try] block covers the call that opens the stream; the promise
    it returns is settled later by the stream's own events. *)
Definition listFiles (pfx : option string) (maxKeys : option Z)
  : M ListResult :=
  let pfx := match pfx with Some x => x | None => "" end in
  let maxKeys := match maxKeys with Some n => n | None => 1000 end in
  stream <- rethrow "List failed: "
    (h <- history ;;
     record_call (ListObjects (bucketName (config env)) pfx true) ;;;
     match be_listObjects (backend env) h (bucketName (config env)) pfx
                          true with
     | inl e => throw e
     | inr stream => ret stream
     end) ;;
  let objects := fold_left (on_data maxKeys) (stream_data stream) [] in
  match stream_end stream with
  | StreamEnded =>
      ret (mkListResult true objects (Z.of_nat (List.length objects)))
  | StreamError error =>
      throw (new_Error ("List failed: " ++ err_message error))
  end.

Definition getFileInfo (objectName : string) : M FileInfo :=
  rethrow "File info failed: "
    (h <- history ;;
     record_call (StatObject (bucketName (config env)) objectName) ;;;
     match be_statObject (backend env) h (bucketName (config env))
                         objectName with
     | inl e => throw e
     | inr st =>
         ret (mkFileInfo objectName (stat_size st) (stat_lastModified st)
                (stat_etag st)
                (lookup_meta "content-type" (stat_metaData st))
                (lookup_meta "original-name" (stat_metaData st))
                (lookup_meta "upload-date" (stat_metaData st)))
     end).

End Service.

End MinioService.

(** ** Controller (src/controllers/fileController.js) *)

Module FileController.

Import MinioService.

Definition upload_json (r : UploadResult) : list (string * Json) :=
  [("success", JBool (up_success r));
   ("objectName", JStr (up_objectName r));
   ("originalName", JStr (up_originalName r));
   ("size", JNum (up_size r));
   ("mimetype", JStr (up_mimetype r));
   ("uploadDate", JStr (up_uploadDate r))].

(** [{ ...result, accessUrl: urlResult.url, urlExpiresAt: ... }] *)
Definition with_url (r : UploadResult) (u : UrlResult) : Json :=
  JObj (set_field "urlExpiresAt" (JStr (url_expiresAt u))
          (set_field "accessUrl" (JStr (url_url u)) (upload_json r))).

Definition url_json (u : UrlResult) : Json :=
  JObj [("success", JBool (url_success u));
        ("url", JStr (url_url u));
        ("expiresIn", JNum (url_expiresIn u));
        ("expiresAt", JStr (url_expiresAt u))].

Definition entry_json (e : ListEntry) : Json :=
  JObj [("name", JStr (le_name e));
        ("size", JNum (le_size e));
        ("lastModified", date_json (le_lastModified e));
        ("etag", JStr (le_etag e))].

Definition list_json (r : ListResult) : Json :=
  JObj [("success", JBool (lr_success r));
        ("files", JArr (map entry_json (lr_files r)));
        ("count", JNum (lr_count r))].

Definition delete_json (r : DeleteResult) : Json :=
  JObj [("success", JBool (del_success r));
        ("message", JStr (del_message r))].

Definition info_json (i : FileInfo) : Json :=
  JObj [("success", JBool true);
        ("info",
         JObj ([("name", JStr (fi_name i));
                ("size", JNum (fi_size i));
                ("lastModified", date_json (fi_lastModified i));
                ("etag", JStr (fi_etag i))]
               ++ opt_str_field "contentType" (fi_contentType i)
               ++ opt_str_field "originalName" (fi_originalName i)
               ++ opt_str_field "uploadDate" (fi_uploadDate i))%list)].

(** [try { body } catch (error) { next(error) }] *)
Definition guarded (body : M unit) : World -> Outcome * World :=
  fun w =>
    match body w with
    | (Ok _, w') => (Done, w')
    | (Throw e, w') => (Next e, w')
    end.

(** An async handler whose body ends in a [catch] that may itself
    throw. *)
Definition unguarded (body : M unit) : World -> Outcome * World :=
  fun w =>
    match body w with
    | (Ok _, w') => (Done, w')
    | (Throw e, w') => (Unhandled e, w')
    end.

(** [xs.map(x => f(x))] where [f] is an async function: every call runs
    up to its first [await], in order. *)
Fixpoint start_all {A P} (f : A -> M P) (xs : list A) : M (list P) :=
  match xs with
  | [] => ret []
  | x :: xs' => p <- f x ;; ps <- start_all f xs' ;; ret (p :: ps)
  end.

(** The promises then settle; here in the order they were started.  Each
    runs to its end whatever the others do. *)
Fixpoint settle_all {P B} (k : P -> M B) (ps : list P)
  : M (list (Result B)) :=
  match ps with
  | [] => ret []
  | p :: ps' =>
      r <- started (k p) ;; rs <- settle_all k ps' ;; ret (r :: rs)
  end.

(** [await Promise.all(...)]: the values, or the first rejection. *)
Fixpoint all_settled {B} (rs : list (Result B)) : M (list B) :=
  match rs with
  | [] => ret []
  | Ok b :: rs' => bs <- all_settled rs' ;; ret (b :: bs)
  | Throw e :: _ => throw e
  end.

Section Controller.

Variable env : Env.

Definition customPath_of (req : Request) : string :=
  Js.or_str (body_path req) (Js.or_str (query_path req) "").

Definition uploadSingle (req : Request) : World -> Outcome * World :=
  guarded
    match req_file req with
    | None =>
        send 400 (JObj [("success", JBool false);
                        ("error", JStr "No file provided");
                        ("code", JStr "NO_FILE")])
    | Some file =>
        let customPath := customPath_of req in
        result <- uploadFile env file customPath ;;
        urlResult <- getPresignedUrl env (up_objectName result) None ;;
        send 201 (JObj [("success", JBool true);
                        ("message", JStr "File uploaded successfully");
                        ("data", with_url result urlResult)])
    end.

Definition no_files (req : Request) : bool :=
  match req_files req with
  | None => true
  | Some fs => (Z.of_nat (List.length fs) =? 0)
  end.

Definition uploadMultiple (req : Request) : World -> Outcome * World :=
  guarded
    (if no_files req then
       send 400 (JObj [("success", JBool false);
                       ("error", JStr "No files provided");
                       ("code", JStr "NO_FILES")])
     else
       let files := match req_files req with Some fs => fs | None => [] end in
       let customPath := customPath_of req in
       uploadPromises <-
         start_all (fun file =>
                      r <- uploadFile_started env file customPath ;;
                      ret (file, r)) files ;;
       settled <-
         settle_all (fun p => uploadFile_finish env (fst p) (snd p))
                    uploadPromises ;;
       results <- all_settled settled ;;
       urlPromises <-
         start_all (fun result =>
                      getPresignedUrl_started env (up_objectName result) None)
                   results ;;
       urlSettled <-
         settle_all (getPresignedUrl_finish env None) urlPromises ;;
       urlResults <- all_settled urlSettled ;;
       let filesWithUrls :=
         map (fun ru => with_url (fst ru) (snd ru))
             (combine results urlResults) in
       send 201
         (JObj [("success", JBool true);
                ("message",
                 JStr (Js.Z_to_string (Z.of_nat (List.length results))
                       ++ " files uploaded successfully"));
                ("data",
                 JObj [("files", JArr filesWithUrls);
                       ("count",
                        JNum (Z.of_nat (List.length results)))])])).

Definition missing_filename : M unit :=
  send 400 (JObj [("success", JBool false);
                  ("error", JStr "Filename is required");
                  ("code", JStr "MISSING_FILENAME")]).

(** [parseInt(req.query.expiry) || undefined] *)
Definition expiry_of (req : Request) : option Z :=
  match Js.parseInt (query_expiry req) with
  | Some n => if n =? 0 then None else Some n
  | None => None
  end.

Definition getFileUrl (req : Request) : World -> Outcome * World :=
  guarded
    (let expiry := expiry_of req in
     if Js.truthy_str (param_filename req) then
       result <- getPresignedUrl env
                   (Js.or_str (param_filename req) "") expiry ;;
       send 200 (JObj [("success", JBool true);
                       ("message",
                        JStr "Presigned URL generated successfully");
                       ("data", url_json result)])
     else missing_filename).

Definition deleteFile (req : Request) : World -> Outcome * World :=
  guarded
    (if Js.truthy_str (param_filename req) then
       result <- MinioService.deleteFile env
                   (Js.or_str (param_filename req) "") ;;
       send 200 (JObj [("success", JBool true);
                       ("message", JStr "File deleted successfully");
                       ("data", delete_json result)])
     else missing_filename).

Definition listFiles (req : Request) : World -> Outcome * World :=
  guarded
    (let pfx := Js.or_str (query_prefix req) "" in
     let maxKeys := Js.or_num (Js.parseInt (query_limit req)) 1000 in
     result <- MinioService.listFiles env (Some pfx) (Some maxKeys) ;;
     send 200 (JObj [("success", JBool true);
                     ("message", JStr "Files retrieved successfully");
                     ("data", list_json result)])).

Definition getFileInfo (req : Request) : World -> Outcome * World :=
  guarded
    (if Js.truthy_str (param_filename req) then
       result <- MinioService.getFileInfo env
                   (Js.or_str (param_filename req) "") ;;
       send 200 (JObj [("success", JBool true);
                       ("message", JStr "File info retrieved successfully");
                       ("data", info_json result)])
     else missing_filename).

Definition healthCheck (req : Request) : World -> Outcome * World :=
  unguarded
    (try_catch
       (h <- history ;;
        record_call (BucketExists (bucketName (config env))) ;;;
        match be_bucketExists (backend env) h (bucketName (config env)) with
        | inl e => throw e
        | inr _ =>
            ts <- now_iso env ;;
            send 200
              (JObj [("success", JBool true);
                     ("message", JStr "Service is healthy");
                     ("data",
                      JObj [("status", JStr "healthy");
                            ("timestamp", JStr ts);
                            ("minio", JStr "connected");
                            ("bucket", JStr (bucketName (config env)))])])
        end)
       (fun error =>
          ts <- now_iso env ;;
          send 503
            (JObj [("success", JBool false);
                   ("error", JStr "Service unhealthy");
                   ("code", JStr "SERVICE_UNHEALTHY");
                   ("data",
                    JObj [("status", JStr "unhealthy");
                          ("timestamp", JStr ts);
                          ("minio", JStr "disconnected")])]))).

End Controller.

End FileController.

(** ** Routes (src/routes/fileRoutes.js, src/app.js) *)

Module App.

(** The route a request is matched to, with the file parts of its
    multipart body for the two upload routes. *)
Inductive Route :=
| GetHealth
| PostUpload (parts : list File)
| PostUploadMultiple (parts : list File)
| GetUrl
| GetInfo
| GetList
| DeleteFile
| Unmatched.

Definition with_file (req : Request) (f : option File) : Request :=
  mkRequest (req_method req) (req_path req) f (req_files req)
            (body_path req) (query_path req) (query_expiry req)
            (query_prefix req) (query_limit req) (param_filename req).

Definition with_files (req : Request) (fs : list File) : Request :=
  mkRequest (req_method req) (req_path req) (req_file req) (Some fs)
            (body_path req) (query_path req) (query_expiry req)
            (query_prefix req) (query_limit req) (param_filename req).

Section Routes.

Variable env : Env.

(** [app.use(errorHandler)]: an error handed to [next] ends there. A
    throw inside the handler would go on to the framework's own final
    handler. *)
Definition to_errorHandler (req : Request) (o : Outcome * World)
  : Outcome * World :=
  match o with
  | (Next e, w) =>
      match ErrorHandler.errorHandler env req e w with
      | (Ok _, w') => (Done, w')
      | (Throw e', w') => (Next e', w')
      end
  | _ => o
  end.

(** [upload.single('file'), handleMulterError, uploadSingle] *)
Definition post_upload (parts : list File) (req : Request)
  : World -> Outcome * World :=
  match Upload.single (config env) "file" parts with
  | inl e => Upload.handleMulterError (config env) e
  | inr f => FileController.uploadSingle env (with_file req f)
  end.

(** [upload.array('files', 10), handleMulterError, uploadMultiple] *)
Definition post_upload_multiple (parts : list File) (req : Request)
  : World -> Outcome * World :=
  match Upload.array (config env) "files" 10 parts with
  | inl e => Upload.handleMulterError (config env) e
  | inr fs => FileController.uploadMultiple env (with_files req fs)
  end.

Definition route_handler (r : Route) (req : Request)
  : World -> Outcome * World :=
  match r with
  | GetHealth => FileController.healthCheck env req
  | PostUpload parts => post_upload parts req
  | PostUploadMultiple parts => post_upload_multiple parts req
  | GetUrl => FileController.getFileUrl env req
  | GetInfo => FileController.getFileInfo env req
  | GetList => FileController.listFiles env req
  | DeleteFile => FileController.deleteFile env req
  | Unmatched =>
      fun w =>
        match ErrorHandler.notFoundHandler env req w with
        | (Ok _, w') => (Done, w')
        | (Throw e, w') => (Next e, w')
        end
  end.

Definition serve (r : Route) (req : Request) (w : World)
  : Outcome * World :=
  to_errorHandler req (route_handler r req w).

End Routes.

End App.

(** ** Origins (src/config/index.js, src/app.js) *)

Module Cors.

(** [s.trim()] *)
Definition trim_l (l : list ascii) : list ascii :=
  rev (snd (Js.span Js.isSpace (rev (snd (Js.span Js.isSpace l))))).

Definition trim (s : string) : string :=
  string_of_list_ascii (trim_l (list_ascii_of_string s)).

(** [config.security.corsOrigin] is one text or an array of texts. *)
Inductive CorsOrigin :=
| OneOrigin (o : string)
| ManyOrigins (os : list string).

(** The value computed from [process.env.CORS_ORIGIN]. *)
Definition corsOrigin_of_env (v : option string) : CorsOrigin :=
  if Js.truthy_str v then
    let s := Js.or_str v "" in
    if Js.includes s "," then ManyOrigins (map trim (Js.split_char "," s))
    else OneOrigin s
  else OneOrigin "http://localhost:3000".

(** [Array.isArray(c) ? c : [c]] *)
Definition allowedOrigins (c : CorsOrigin) : list string :=
  match c with
  | ManyOrigins os => os
  | OneOrigin o => [o]
  end.

(** [xs.includes(x)] on an array of texts. *)
Definition array_includes (xs : list string) (x : string) : bool :=
  existsb (fun y => (x =? y)%string) xs.

(** The [origin] function handed to [cors]: [None] is
    [callback(null, true)], [Some e] is [callback(e)]. *)
Definition origin_callback (c : CorsOrigin) (origin : option string)
  : option JsError :=
  let allowed := allowedOrigins c in
  if negb (Js.truthy_str origin) then None
  else
    let o := Js.or_str origin "" in
    if array_includes allowed o || array_includes allowed "*" then None
    else Some (new_Error "Not allowed by CORS").




End Cors.

(** ** Start-up (src/server.js, MinioService.initialize) *)

Module Startup.

(** [config.server.port]: the text of [PORT], or the number 3000. *)
Inductive Port :=
| PortText (s : string)
| PortNumber (n : Z).

Definition port_of_env (v : option string) : Port :=
  if Js.truthy_str v then PortText (Js.or_str v "") else PortNumber 3000.

(** What start-up does to the outside, in order: [Listen] stands for a
    call of [app.listen] that has returned. *)
Inductive Event :=
| CheckBucket (bucket : string)
| MakeBucket (bucket : string)
| Listen (port : Port)
| Exit (code : Z).

(** What is outside: whether building the client throws, what the
    backend answers, and whether [app.listen] throws. *)
Record Probe := mkProbe {
  probe_newClient : option JsError;
  probe_bucketExists : string -> JsError + bool;
  probe_makeBucket : string -> option JsError;
  probe_listen : Port -> option JsError
}.

(** [initialize]: the events, and the error it throws if any; the
    [catch] logs and throws the same error again. *)
Definition initialize (be : Probe) (bucket : string)
  : list Event * option JsError :=
  match probe_bucketExists be bucket with
  | inl e => ([CheckBucket bucket], Some e)
  | inr true => ([CheckBucket bucket], None)
  | inr false =>
      ([CheckBucket bucket; MakeBucket bucket], probe_makeBucket be bucket)
  end.

(** [startServer]: inside one [try], the service is built and
    initialised and the application is told to listen; whatever is
    thrown there ends the process with code 1. *)
Definition startServer (be : Probe) (bucket : string) (port : Port)
  : list Event :=
  match probe_newClient be with
  | Some _ => [Exit 1]
  | None =>
      match initialize be bucket with
      | (evs, Some _) => (evs ++ [Exit 1])%list
      | (evs, None) =>
          match probe_listen be port with
          | Some _ => (evs ++ [Exit 1])%list
          | None => (evs ++ [Listen port])%list
          end
      end
  end.

End Startup.

(** ** The type rule as the specification words it *)

Module TypeRule.

(** The part of a media type up to and including its first ["/"];
    [None] when the type has no ["/"]. *)
Fixpoint family (t : string) : option string :=
  match t with
  | EmptyString => None
  | String c t' =>
      if Ascii.eqb c "/" then Some (String c EmptyString)
      else match family t' with
           | Some f => Some (String c f)
           | None => None
           end
  end.

Definition entry_accepts (t entry : string) : bool :=
  (t =? entry)%string
  || (Js.endsWith entry "/*"
      && match family t, family entry with
         | Some ft, Some fe => (ft =? fe)%string
         | _, _ => false
         end).

Definition accepts (L : list string) (t : string) : bool :=
  existsb (entry_accepts t) L.

End TypeRule.

(** ** The naming rule as the specification words it *)

Module NameRule.

(** A file name split at its last ["."]: what precedes it, and the
    extension from that ["."] to the end. A name without ["."] is all
    base. *)
Fixpoint split_last_dot (f : list ascii) : list ascii * list ascii :=
  match f with
  | [] => ([], [])
  | c :: f' =>
      let (b, e) := split_last_dot f' in
      match e with
      | [] => if Ascii.eqb c "." then ([], c :: b) else (c :: b, [])
      | _ => (c :: b, e)
      end
  end.

Definition base (f : string) : string :=
  string_of_list_ascii (fst (split_last_dot (list_ascii_of_string f))).

Definition extension (f : string) : string :=
  string_of_list_ascii (snd (split_last_dot (list_ascii_of_string f))).

(** [base_<timestamp>_<suffix><extension>], under [p/] when [p] is not
    empty. *)
Definition key (f p : string) (timestamp : Z) (suffix : string) : string :=
  (if (p =? "")%string then "" else p ++ "/")
  ++ base f ++ "_" ++ Js.Z_to_string timestamp ++ "_" ++ suffix
  ++ extension f.

Definition lower_hex (c : ascii) : bool :=
  let n := nat_of_ascii c in
  (((48 <=? n) && (n <=? 57)) || ((97 <=? n) && (n <=? 102)))%nat.

(** Groups of lower-case hexadecimal digits of the given sizes,
    separated by ["-"]. *)
Fixpoint hex_groups (sizes : list nat) (l : list ascii) : bool :=
  match sizes with
  | [] => false
  | n :: rest =>
      let g := firstn n l in
      (List.length g =? n)%nat && forallb lower_hex g
      && match rest, skipn n l with
         | [], [] => true
         | _ :: _, c :: l' => Ascii.eqb c "-" && hex_groups rest l'
         | _, _ => false
         end
  end.

(** The text form of a UUID: 8-4-4-4-12. *)
Definition is_uuid (u : string) : bool :=
  hex_groups [8; 4; 4; 4; 12]%nat (list_ascii_of_string u).

Definition hex8 (s : string) : bool :=
  (String.length s =? 8)%nat && forallb lower_hex (list_ascii_of_string s).

End NameRule.

Definition example_allow_list : list string := ["video/*"; "application/pdf"].





(** ** A concrete environment for examples *)

Module Demo.

Definition cfg : Config := load_config (fun _ => None).

Definition be : Backend :=
  {| be_putObject := fun _ _ _ _ _ _ => None;
     be_presignedGetObject :=
       fun _ b n _ => inr ("http://localhost:9000/" ++ b ++ "/" ++ n);
     be_removeObject := fun _ _ _ => None;
     be_listObjects :=
       fun _ _ _ _ =>
         inr (mkStream [mkItem "a.txt" 1 0 "e1"; mkItem "b.txt" 2 0 "e2";
                        mkItem "c.txt" 3 0 "e3"] StreamEnded);
     be_statObject :=
       fun _ _ _ => inr (mkStat 5 0 "e" [("content-type", "text/plain")]);
     be_bucketExists := fun _ _ => inr true |}.

Definition env : Env :=
  {| config := cfg;
     clock := fun k => 1700000000000 + Z.min (Z.of_nat k) 86400000;
     uuidv4 := fun _ => "9b2e4f10-1c3d-4a5b-8c7d-0123456789ab";
     backend := be |}.

Definition req : Request :=
  mkRequest "POST" "/api/files/upload" None None None None None None None
            None.

Definition clip : File := mkFile "file" "clip.mp4" "video/mp4" "hello" 5.

End Demo.

(** ** What the specification asks of an error body *)

Module ErrorBody.

Definition codes : list string :=
  ["NO_FILE"; "NO_FILES"; "MISSING_FILENAME"; "INVALID_FILE_TYPE";
   "FILE_TOO_LARGE"; "TOO_MANY_FILES"; "UNEXPECTED_FIELD"; "UPLOAD_ERROR";
   "VALIDATION_ERROR"; "UNAUTHORIZED"; "SERVICE_UNAVAILABLE";
   "BUCKET_NOT_FOUND"; "ACCESS_DENIED"; "SERVICE_UNHEALTHY"; "NOT_FOUND";
   "INTERNAL_ERROR"; "RATE_LIMIT_EXCEEDED"].

Definition is_code (c : string) : bool :=
  existsb (fun k => (c =? k)%string) codes.

Definition is_char (c x : ascii) : bool := Ascii.eqb x c.

(** [-MM-DDTHH:mm:ss.sssZ], what follows the year. *)
Definition after_year (l : list ascii) : bool :=
  match l with
  | [s1; m1; m2; s2; d1; d2; t; h1; h2; c1; n1; n2; c2; e1; e2; p;
     f1; f2; f3; z] =>
      is_char "-" s1 && Js.isDigit m1 && Js.isDigit m2
      && is_char "-" s2 && Js.isDigit d1 && Js.isDigit d2
      && is_char "T" t && Js.isDigit h1 && Js.isDigit h2
      && is_char ":" c1 && Js.isDigit n1 && Js.isDigit n2
      && is_char ":" c2 && Js.isDigit e1 && Js.isDigit e2
      && is_char "." p && Js.isDigit f1 && Js.isDigit f2 && Js.isDigit f3
      && is_char "Z" z
  | _ => false
  end.

(** An ISO-8601 instant in UTC: a four-digit year, or a sign and six
    digits, then the rest. *)
Definition is_iso8601 (s : string) : bool :=
  match list_ascii_of_string s with
  | y1 :: y2 :: y3 :: y4 :: rest =>
      (Js.isDigit y1 && Js.isDigit y2 && Js.isDigit y3 && Js.isDigit y4
       && after_year rest)
      || match rest with
         | y5 :: y6 :: y7 :: rest' =>
             (is_char "+" y1 || is_char "-" y1)
             && Js.isDigit y2 && Js.isDigit y3 && Js.isDigit y4
             && Js.isDigit y5 && Js.isDigit y6 && Js.isDigit y7
             && after_year rest'
         | _ => false
         end
  | _ => false
  end.

Definition str_field (k : string) (b : Json) : option string :=
  match field k b with
  | Some (JStr s) => Some s
  | _ => None
  end.

(** [success:false] with an error string and a code string. *)
Definition basic (b : Json) : bool :=
  match field "success" b, str_field "error" b, str_field "code" b with
  | Some (JBool false), Some _, Some _ => true
  | _, _, _ => false
  end.

Definition code_listed (b : Json) : bool :=
  match str_field "code" b with
  | Some c => is_code c
  | None => false
  end.

Definition timestamped (b : Json) : bool :=
  match str_field "timestamp" b with
  | Some t => is_iso8601 t
  | None => false
  end.

(** The body the specification describes. *)
Definition complete (b : Json) : bool :=
  basic b && code_listed b && timestamped b.

End ErrorBody.

(** The clock never shows an instant a [Date] cannot hold. *)
Definition clock_ok (env : Env) : Prop :=
  forall k, Z.abs (clock env k) <= 8640000000000000.

(** Appending a response. *)
Definition answered (w : World) (r : Response) : World :=
  mkWorld (clock_reads w) (uuids_drawn w) (calls w) (responses w ++ [r])%list.

(** One more reading of the clock. *)
Definition ticked (w : World) : World :=
  mkWorld (S (clock_reads w)) (uuids_drawn w) (calls w) (responses w).

(** * Vocabulary of the properties *)

Definition invalid_file_type_body (msg : string) : Json :=
  JObj [("success", JBool false);
        ("error", JStr "Invalid file type");
        ("message", JStr msg);
        ("code", JStr "INVALID_FILE_TYPE")].

(** The handler answers [err] with status [st], error text [msg] and
    code [code], stamped with the current reading of the clock. *)
Definition replies (env : Env) (req : Request) (err : JsError) (w : World)
  (st : Z) (msg code : string) : Prop :=
  exists ts b,
    Js.toISOString (clock env (clock_reads w)) = Some ts
    /\ ErrorHandler.errorHandler env req err w
       = (Ok tt, answered (ticked w) (mkResponse st b))
    /\ field "success" b = Some (JBool false)
    /\ ErrorBody.str_field "error" b = Some msg
    /\ ErrorBody.str_field "code" b = Some code
    /\ ErrorBody.str_field "timestamp" b = Some ts.

Definition refused_validation : JsError :=
  mkError PlainError "ValidationError" "connect ECONNREFUSED 127.0.0.1:9000"
          None None "ValidationError: connect ECONNREFUSED 127.0.0.1:9000".

(** The errors the decode can end in: multer's own, and the rejection
    built by the type filter. *)
Definition decode_error (e : JsError) : Prop :=
  err_class e = MulterError
  \/ (err_class e = PlainError
      /\ Js.includes (err_message e) "File type" = true).

(** A file part that the decode lets through (an unnamed part is
    skipped, which is no failure). *)
Definition passes (cfg : Config) (name : string) (f : File) : bool :=
  (originalname f =? "")%string
  || ((fieldname f =? name)%string
      && Upload.isAllowed (allowedFileTypes (upload cfg)) (mimetype f)
      && negb (Upload.exceeds (size f)
                 (Upload.limit_fileSize (Upload.limits cfg)))).

Definition no_file_body : Json :=
  JObj [("success", JBool false);
        ("error", JStr "No file provided");
        ("code", JStr "NO_FILE")].

Definition no_files_body : Json :=
  JObj [("success", JBool false);
        ("error", JStr "No files provided");
        ("code", JStr "NO_FILES")].

Definition too_many_files_body : Json :=
  JObj [("success", JBool false);
        ("error", JStr "Too many files");
        ("message", JStr "Maximum 10 files per request");
        ("code", JStr "TOO_MANY_FILES")].

Definition file_too_large_body (cfg : Config) : Json :=
  JObj [("success", JBool false);
        ("error", JStr "File too large");
        ("message", JStr ("Maximum file size is " ++ maxFileSize (upload cfg)));
        ("code", JStr "FILE_TOO_LARGE")].

(** The size texts as the specification describes them: a number, then
    optional white space, then one of the four unit words in either
    case; with the number of bytes each denotes. *)
Module SizeText.

Definition unit_word (u : list ascii) (bytes : Z) : Prop :=
  (Js.toUpperCase u = list_ascii_of_string "B" /\ bytes = 1)
  \/ (Js.toUpperCase u = list_ascii_of_string "KB" /\ bytes = 1024)
  \/ (Js.toUpperCase u = list_ascii_of_string "MB" /\ bytes = 1024 ^ 2)
  \/ (Js.toUpperCase u = list_ascii_of_string "GB" /\ bytes = 1024 ^ 3).

(** [fraction frac fs]: [frac] is nothing, or a point followed by the
    digits [fs]. *)
Definition fraction (frac fs : list ascii) : Prop :=
  (frac = [] /\ fs = [])
  \/ (fs <> [] /\ forallb Js.isDigit fs = true /\ frac = "."%char :: fs).

(** [reads l number bytes]: the text [l] is the decimal numeral of
    [number], white space, and a unit word of [bytes] bytes. *)
Inductive reads : list ascii -> Q -> Z -> Prop :=
| reads_intro (ds frac fs ws u : list ascii) (bytes : Z) :
    ds <> [] ->
    forallb Js.isDigit ds = true ->
    fraction frac fs ->
    forallb Js.isSpace ws = true ->
    unit_word u bytes ->
    reads (ds ++ frac ++ ws ++ u)%list (Js.decimal_value ds fs) bytes.

(** "That number times the unit's byte value". *)
Definition denotes (l : list ascii) (q : Q) : Prop :=
  exists number bytes,
    reads l number bytes /\ q = (number * inject_Z bytes)%Q.

End SizeText.

(** [stops l]: [l] does not start with something [p] accepts. *)
Definition stops (p : ascii -> bool) (l : list ascii) : Prop :=
  match l with
  | [] => True
  | c :: _ => p c = false
  end.

Definition unit_letter (c : ascii) : bool :=
  existsb (Ascii.eqb (Js.upper c)) ["B"; "K"; "M"; "G"]%char.

(** A plain name: not empty, no leading point, no slash. *)
Definition plain_name (f : string) : bool :=
  match list_ascii_of_string f with
  | [] => false
  | c :: l => negb (Ascii.eqb c ".") && forallb Path.notSlash (c :: l)
  end.

(** The key [uploadFile] builds for a file, from the reading of the clock
    and the UUID it draws in world [w]. *)
Definition object_key (env : Env) (f customPath : string) (w : World)
  : string :=
  let uniqueFilename :=
    Path.basename f (Path.extname f) ++ "_"
    ++ Js.Z_to_string (clock env (clock_reads w)) ++ "_"
    ++ Js.split_first "-" (uuidv4 env (uuids_drawn w))
    ++ Path.extname f in
  if (customPath =? "")%string then uniqueFilename
  else customPath ++ "/" ++ uniqueFilename.

Definition entry_of (o : BucketItem) : MinioService.ListEntry :=
  MinioService.mkListEntry (item_name o) (item_size o) (item_lastModified o)
                           (item_etag o).

Definition list_ok_body (r : MinioService.ListResult) : Json :=
  JObj [("success", JBool true);
        ("message", JStr "Files retrieved successfully");
        ("data", FileController.list_json r)].

Definition url_ok_body (u : MinioService.UrlResult) : Json :=
  JObj [("success", JBool true);
        ("message", JStr "Presigned URL generated successfully");
        ("data", FileController.url_json u)].

(** A computation that writes no response. *)
Definition quiet {A} (m : M A) : Prop :=
  forall w, responses (snd (m w)) = responses w.

(** A computation whose only throws are [new Error(...)] values. *)
Definition plain {A} (m : M A) : Prop :=
  forall w e, fst (m w) = Throw e -> exists msg, e = new_Error msg.

(** A well-formed answer: a success with 200 or 201, or a failure with a
    status of 400 or more whose body has [success:false], an error text
    and a code of the list. *)
Definition response_ok (r : Response) : Prop :=
  ((status r = 200 \/ status r = 201)
   /\ field "success" (body r) = Some (JBool true))
  \/ (400 <= status r
      /\ ErrorBody.basic (body r) = true
      /\ ErrorBody.code_listed (body r) = true).

(** A handler body that either writes one well-formed answer, or throws
    a [new Error(...)] having written nothing. *)
Definition answers (m : M unit) : Prop :=
  forall w,
    match m w with
    | (Ok _, w') =>
        exists r, responses w' = (responses w ++ [r])%list /\ response_ok r
    | (Throw e, w') =>
        responses w' = responses w /\ exists msg, e = new_Error msg
    end.

(** The results of promises whose rejections are [new Error(...)]. *)
Definition plain_results {B} (rs : list (Result B)) : Prop :=
  Forall (fun r => match r with
                   | Ok _ => True
                   | Throw e => exists msg, e = new_Error msg
                   end) rs.

Definition not_found_body (req : Request) (ts : string) : Json :=
  JObj [("success", JBool false);
        ("error", JStr "Route not found");
        ("code", JStr "NOT_FOUND");
        ("message", JStr ("Cannot " ++ req_method req ++ " "
                          ++ req_path req));
        ("timestamp", JStr ts)].

(** Does the upload error middleware hand the error on? *)
Definition forwarded (e : JsError) : bool :=
  match err_class e with
  | MulterError => false
  | PlainError => negb (Js.includes (err_message e) "File type")
  end.

(** The world after one more backend call. *)
Definition called (w : World) (c : Call) : World :=
  mkWorld (clock_reads w) (uuids_drawn w) (calls w ++ [c])%list (responses w).

(** Status, error text and code of the answer to a failed backend
    operation, from the message of the backend's error and the words the
    service puts in front of it. *)
Definition backend_failure_answer (what msg : string) : Z * string * string :=
  if Js.includes msg "ECONNREFUSED" then
    (503, "Storage service unavailable", "SERVICE_UNAVAILABLE")
  else if Js.includes msg "NoSuchBucket" then
    (500, "Storage bucket not found", "BUCKET_NOT_FOUND")
  else if Js.includes msg "AccessDenied" then
    (403, "Storage access denied", "ACCESS_DENIED")
  else (500, what ++ msg, "INTERNAL_ERROR").

(** Route [route] answers the failure [e] of the backend call [c]. *)
Definition failure_answered (env : Env) (route : App.Route) (req : Request)
  (w : World) (c : Call) (what : string) (e : JsError) : Prop :=
  exists b,
    App.serve env route req w
    = (Done,
       answered (ticked (called w c))
         (mkResponse (fst (fst (backend_failure_answer what (err_message e))))
                     b))
    /\ ErrorBody.str_field "error" b
       = Some (snd (fst (backend_failure_answer what (err_message e))))
    /\ ErrorBody.str_field "code" b
       = Some (snd (backend_failure_answer what (err_message e))).

(** A backend that has lost the object asked for. *)
Definition not_found_error : JsError :=
  mkError PlainError "S3Error" "Not Found" (Some "NotFound") (Some 404)
          "S3Error: Not Found".

Definition missing_object_env : Env :=
  mkEnv Demo.cfg (clock Demo.env) (uuidv4 Demo.env)
        (mkBackend (be_putObject Demo.be) (be_presignedGetObject Demo.be)
                   (be_removeObject Demo.be) (be_listObjects Demo.be)
                   (fun _ _ _ => inl not_found_error)
                   (be_bucketExists Demo.be)).

Definition info_request (name : string) : Request :=
  mkRequest "GET" ("/api/files/info/" ++ name) None None None None None None
            None (Some name).

(** The [putObject] call [uploadFile] makes for [file] in world [w],
    [d] being the upload date it writes in the metadata. *)
Definition put_call (env : Env) (file : File) (customPath : string)
  (w : World) (d : string) : Call :=
  PutObject (bucketName (config env))
            (object_key env (originalname file) customPath w)
            (buffer file) (size file)
            (mkMetaData (mimetype file) (originalname file) d).

(** The [presignedGetObject] call that follows it. *)
Definition presign_call (env : Env) (file : File) (customPath : string)
  (w : World) : Call :=
  PresignedGetObject (bucketName (config env))
                     (object_key env (originalname file) customPath w)
                     (presignedUrl_expiry (config env)).

Definition uploaded_body (r : MinioService.UploadResult)
  (u : MinioService.UrlResult) : Json :=
  JObj [("success", JBool true);
        ("message", JStr "File uploaded successfully");
        ("data", FileController.with_url r u)].

(** Environments whose backend refuses the put, or the presign. *)
Definition refused : JsError :=
  new_Error "connect ECONNREFUSED 127.0.0.1:9000".

Definition put_fails_env : Env :=
  mkEnv Demo.cfg (clock Demo.env) (uuidv4 Demo.env)
        (mkBackend (fun _ _ _ _ _ _ => Some refused)
                   (be_presignedGetObject Demo.be)
                   (be_removeObject Demo.be) (be_listObjects Demo.be)
                   (be_statObject Demo.be) (be_bucketExists Demo.be)).

Definition sign_fails_env : Env :=
  mkEnv Demo.cfg (clock Demo.env) (uuidv4 Demo.env)
        (mkBackend (be_putObject Demo.be)
                   (fun _ _ _ _ => inl (new_Error "AccessDenied"))
                   (be_removeObject Demo.be) (be_listObjects Demo.be)
                   (be_statObject Demo.be) (be_bucketExists Demo.be)).

Definition upload_request : Request :=
  mkRequest "POST" "/api/files/upload" (Some Demo.clip) None None None None
            None None None.

(** The bucket a call is made on. *)
Definition call_bucket (c : Call) : string :=
  match c with
  | PutObject b _ _ _ _ => b
  | PresignedGetObject b _ _ => b
  | RemoveObject b _ => b
  | ListObjects b _ _ => b
  | StatObject b _ => b
  | BucketExists b => b
  end.

(** The kinds of call that belong to each route. *)
Definition call_of_route (r : App.Route) (c : Call) : bool :=
  match r, c with
  | App.GetHealth, BucketExists _ => true
  | App.PostUpload _, PutObject _ _ _ _ _ => true
  | App.PostUpload _, PresignedGetObject _ _ _ => true
  | App.PostUploadMultiple _, PutObject _ _ _ _ _ => true
  | App.PostUploadMultiple _, PresignedGetObject _ _ _ => true
  | App.GetUrl, PresignedGetObject _ _ _ => true
  | App.GetInfo, StatObject _ _ => true
  | App.GetList, ListObjects _ _ _ => true
  | App.DeleteFile, RemoveObject _ _ => true
  | _, _ => false
  end.

(** A step that only adds calls satisfying [P] to those already made. *)
Definition makes {X} (P : Call -> bool) (f : World -> X * World) : Prop :=
  forall w, exists cs,
    calls (snd (f w)) = (calls w ++ cs)%list /\ forallb P cs = true.

(** What a request to route [r] may ask of the backend: a call of the
    route's own kind, on the configured bucket. *)
Definition route_call (env : Env) (r : App.Route) (c : Call) : bool :=
  call_of_route r c && (call_bucket c =? bucketName (config env))%string.

(** The [status] inside the [data] of a health answer. *)
Definition health_status (b : Json) : option string :=
  match field "data" b with
  | Some d => ErrorBody.str_field "status" d
  | None => None
  end.

(** A backend whose listing breaks off with [e] after [items]. *)
Definition broken_list_env (items : list BucketItem) (e : JsError) : Env :=
  mkEnv Demo.cfg (clock Demo.env) (uuidv4 Demo.env)
        (mkBackend (be_putObject Demo.be) (be_presignedGetObject Demo.be)
                   (be_removeObject Demo.be)
                   (fun _ _ _ _ => inr (mkStream items (StreamError e)))
                   (be_statObject Demo.be) (be_bucketExists Demo.be)).

(** A backend that reaches the server but has no bucket. *)
Definition no_bucket_env : Env :=
  mkEnv Demo.cfg (clock Demo.env) (uuidv4 Demo.env)
        (mkBackend (be_putObject Demo.be) (be_presignedGetObject Demo.be)
                   (be_removeObject Demo.be) (be_listObjects Demo.be)
                   (be_statObject Demo.be) (fun _ _ => inr false)).

(** A listing request with the given [limit] in its query. *)
Definition list_request (limit : option string) : Request :=
  mkRequest "GET" "/api/files" None None None None None None limit None.

(** A file part that multer hands to the controller under [name]. *)
Definition admitted (cfg : Config) (name : string) (f : File) : bool :=
  negb (originalname f =? "")%string
  && (fieldname f =? name)%string
  && Upload.isAllowed (allowedFileTypes (upload cfg)) (mimetype f)
  && negb (Upload.exceeds (size f)
             (Upload.limit_fileSize (Upload.limits cfg))).

(** The named parts of a multipart body. *)
Definition named_parts (parts : list File) : list File :=
  filter (fun f => negb (originalname f =? "")%string) parts.

(** A text without white space at either end. *)
Definition trimmed (s : string) : Prop :=
  stops Js.isSpace (list_ascii_of_string s)
  /\ stops Js.isSpace (rev (list_ascii_of_string s)).

(** The answer of the final handler to an origin that is not allowed. *)
Definition cors_rejection : JsError := new_Error "Not allowed by CORS".

(** The characters of a decimal numeral. *)
Definition numeral_char (c : ascii) : bool :=
  Js.isDigit c || Ascii.eqb c "-".

(** The key of a put. *)
Definition put_key (c : Call) : string :=
  match c with
  | PutObject _ k _ _ _ => k
  | _ => ""
  end.

(** [c] stores the file [f]: its bytes and size, with its type and
    original name in the metadata, in the configured bucket. *)
Definition stores (env : Env) (f : File) (c : Call) : Prop :=
  exists key d,
    c = PutObject (bucketName (config env)) key (buffer f) (size f)
                  (mkMetaData (mimetype f) (originalname f) d).

(** The signing of what [c] stored, with the default expiry. *)
Definition sign_of (env : Env) (c : Call) : Call :=
  PresignedGetObject (bucketName (config env)) (put_key c)
                     (presignedUrl_expiry (config env)).

(** A batch request carrying [files]. *)
Definition batch_request (files : list File) : Request :=
  mkRequest "POST" "/api/files/upload/multiple" None (Some files) None None
            None None None None.

(** The [info] object inside the [data] of an answer. *)
Definition info_of (b : Json) : option Json :=
  match field "data" b with
  | Some d => field "info" d
  | None => None
  end.

(** The metadata keys [getFileInfo] reads, with the fields it fills. *)
Definition info_metadata : list (string * string) :=
  [("contentType", "content-type"); ("originalName", "original-name");
   ("uploadDate", "upload-date")].

Definition missing_filename_body : Json :=
  JObj [("success", JBool false);
        ("error", JStr "Filename is required");
        ("code", JStr "MISSING_FILENAME")].

(** How the backend settles the put [c], the calls before it being [h]. *)
Definition put_result (env : Env) (h : list Call) (c : Call)
  : option JsError :=
  match c with
  | PutObject b k buf sz m => be_putObject (backend env) h b k buf sz m
  | _ => None
  end.

(** How it settles each of the puts [cs] made one after the other. *)
Fixpoint put_results (env : Env) (h : list Call) (cs : list Call)
  : list (option JsError) :=
  match cs with
  | [] => []
  | c :: cs' => put_result env h c :: put_results env (h ++ [c]) cs'
  end.

(** ** The size rule as the specification words it *)

Module SizeRule.

(** "Size is accepted if [declaredSize <= maxBytes]." *)
Definition accepts (declaredSize : Z) (maxBytes : Q) : bool :=
  Qle_bool (inject_Z declaredSize) maxBytes.

End SizeRule.

(** The configuration and the environment of a process started with
    [MAX_FILE_SIZE] set to [text] and nothing else. *)
Definition sized_cfg (text : string) : Config :=
  load_config (fun k => if (k =? "MAX_FILE_SIZE")%string then Some text
                        else None).

Definition sized_env (text : string) : Env :=
  mkEnv (sized_cfg text) (clock Demo.env) (uuidv4 Demo.env) Demo.be.

(** * Properties *)

(** ** The built-ins on the examples of their documentation *)

Example extname_examples :
  map Path.extname
      ["index.html"; "index.coffee.md"; "index."; "index"; ".index";
       ".index.md"; ".."; "dir.d/file"; "clip.mp4/"]
  = [".html"; ".md"; "."; ""; ""; ".md"; ""; ""; ".mp4"].
Proof. reflexivity. Qed.

Example basename_examples :
  Path.basename "/foo/bar/baz/asdf/quux.html" "" = "quux.html"
  /\ Path.basename "/foo/bar/baz/asdf/quux.html" ".html" = "quux"
  /\ Path.basename "my.test.file.txt" ".txt" = "my.test.file"
  /\ Path.basename ".env" "" = ".env".
Proof. repeat split; reflexivity. Qed.

Example toISOString_examples :
  Js.toISOString 0 = Some "1970-01-01T00:00:00.000Z"
  /\ Js.toISOString 1704070800000 = Some "2024-01-01T01:00:00.000Z"
  /\ Js.toISOString 951782400000 = Some "2000-02-29T00:00:00.000Z"
  /\ Js.toISOString (-1) = Some "1969-12-31T23:59:59.999Z"
  /\ Js.toISOString 8640000000000000 = Some "+275760-09-13T00:00:00.000Z"
  /\ Js.toISOString 8640000000000001 = None.
Proof. repeat split; reflexivity. Qed.

Example parseInt_examples :
  map Js.parseInt [Some "7200"; Some "50"; None; Some "abc"; Some "0";
                   Some " 12px"; Some "-3"; Some "0x1f"]
  = [Some 7200; Some 50; None; None; Some 0; Some 12; Some (-3); Some 31].
Proof. reflexivity. Qed.

Example parseSize_examples :
  Upload.parseSize "100MB" = Js.Fin (inject_Z 104857600)
  /\ Upload.parseSize "10MB" = Js.Fin (inject_Z 10485760)
  /\ Upload.parseSize "2 gb" = Js.Fin (inject_Z 2147483648)
  /\ Upload.parseSize "1.5KB" = Js.Fin (inject_Z 1536)
  /\ Upload.parseSize "1.5B" = Js.Fin (3 # 2)
  /\ Upload.parseSize "0.1KB" = Js.Fin (3602879701896397 # 35184372088832)
  /\ Upload.parseSize "9007199254740993B" = Js.Fin (inject_Z 9007199254740992)
  /\ Upload.parseSize "512" = Js.Fin (inject_Z 10485760)
  /\ Upload.parseSize "-5MB" = Js.Fin (inject_Z 10485760)
  /\ Upload.parseSize "1e3KB" = Js.Fin (inject_Z 10485760).
Proof. repeat split; vm_compute; reflexivity. Qed.

Example to_double_examples :
  Js.to_double (1 # 10) = Js.Fin (3602879701896397 # 36028797018963968)
  /\ Js.to_double (inject_Z 9007199254740995)
     = Js.Fin (inject_Z 9007199254740996)
  /\ Js.to_double (inject_Z (10 ^ 23))
     = Js.Fin (inject_Z 99999999999999991611392)
  /\ Js.to_double (inject_Z (2 ^ 1024 - 2 ^ 970 - 1))
     = Js.Fin (inject_Z ((2 ^ 53 - 1) * 2 ^ 971))
  /\ Js.to_double (inject_Z (2 ^ 1024 - 2 ^ 970)) = Js.PInf
  /\ Js.to_double (3 # Z.to_pos (10 ^ 324))
     = Js.Fin (1 # Z.to_pos (2 ^ 1074))
  /\ Js.to_double (2 # Z.to_pos (10 ^ 324)) = Js.Fin 0.
Proof. repeat split; vm_compute; reflexivity. Qed.

Example upload_round_trip :
  App.serve Demo.env (App.PostUpload [Demo.clip]) Demo.req initial_world
  = (Done,
     mkWorld 4 1
       [PutObject "uploads" "clip_1700000000000_9b2e4f10.mp4" "hello" 5
          (mkMetaData "video/mp4" "clip.mp4" "2023-11-14T22:13:20.001Z");
        PresignedGetObject "uploads" "clip_1700000000000_9b2e4f10.mp4" 3600]
       [mkResponse 201
          (JObj
             [("success", JBool true);
              ("message", JStr "File uploaded successfully");
              ("data",
               JObj
                 [("success", JBool true);
                  ("objectName", JStr "clip_1700000000000_9b2e4f10.mp4");
                  ("originalName", JStr "clip.mp4");
                  ("size", JNum 5);
                  ("mimetype", JStr "video/mp4");
                  ("uploadDate", JStr "2023-11-14T22:13:20.002Z");
                  ("accessUrl",
                   JStr ("http://localhost:9000/uploads/"
                         ++ "clip_1700000000000_9b2e4f10.mp4"));
                  ("urlExpiresAt", JStr "2023-11-14T23:13:20.003Z")])])]).
Proof. reflexivity. Qed.

(** ** The type filter *)

(** C1. The filter strips the two characters of the wild card and then
    compares by prefix, so the separator is not part of what is compared:
    with the allow-list of the specification, "video/mp4" and
    "application/pdf" pass and "image/gif" does not, but "videox/mp4", which
    the rule of the specification rejects, passes as well, and so does
    every type that merely begins with "video". *)
Theorem C1_wildcard_accepts_outside_family :
  Upload.isAllowed example_allow_list "video/mp4" = true /\
  Upload.isAllowed example_allow_list "image/gif" = false /\
  Upload.isAllowed example_allow_list "application/pdf" = true /\
  TypeRule.accepts example_allow_list "videox/mp4" = false /\
  Upload.isAllowed example_allow_list "videox/mp4" = true /\
  Upload.fileFilter (mkUploadConfig "100MB" example_allow_list)
    (mkFile "file" "clip.mp4" "videox/mp4" "hello" 5) = Upload.Accept /\
  (forall rest : string,
      Upload.isAllowed example_allow_list ("video" ++ rest) = true).
Proof.
  repeat split; try reflexivity.
  intros rest. destruct rest; reflexivity.
Qed.

(** ** The upload error middleware *)

(** C10. An error that is not a multer error is answered 400 with code
    INVALID_FILE_TYPE exactly when its message contains "File type",
    whatever raised it (so an error from elsewhere whose message happens to
    contain these words is answered as a type rejection); any other one is
    handed to [next] unchanged and nothing is written. *)
Theorem C10_non_multer_errors (cfg : Config) (error : JsError) (w : World) :
  err_class error = PlainError ->
  (Js.includes (err_message error) "File type" = true ->
   Upload.handleMulterError cfg error w
   = (Done, answered w (mkResponse 400
                          (invalid_file_type_body (err_message error)))))
  /\ (Js.includes (err_message error) "File type" = false ->
      Upload.handleMulterError cfg error w = (Next error, w))
  /\ Upload.handleMulterError cfg
       (new_Error "Upload failed: File type index is unavailable") w
     = (Done, answered w (mkResponse 400
          (invalid_file_type_body
             "Upload failed: File type index is unavailable"))).
Proof.
  intros Hc. unfold Upload.handleMulterError. rewrite Hc.
  repeat split.
  - intros ->. reflexivity.
  - intros ->. reflexivity.
Qed.

Lemma C10_non_multer_errors_witness :
  Upload.handleMulterError Demo.cfg (new_Error "Some other error")
    initial_world
  = (Next (new_Error "Some other error"), initial_world).
Proof.
  apply (C10_non_multer_errors Demo.cfg (new_Error "Some other error")
           initial_world); reflexivity.
Defined.

(** ** Instants and their ISO text *)

Lemma isDigit_digit (z : Z) :
  Js.isDigit (ascii_of_nat (Z.to_nat (48 + z mod 10))) = true.
Proof.
  assert (H : 0 <= z mod 10 < 10) by (apply Z.mod_pos_bound; lia).
  assert (E : z mod 10 = 0 \/ z mod 10 = 1 \/ z mod 10 = 2 \/ z mod 10 = 3
              \/ z mod 10 = 4 \/ z mod 10 = 5 \/ z mod 10 = 6
              \/ z mod 10 = 7 \/ z mod 10 = 8 \/ z mod 10 = 9) by lia.
  clear H.
  repeat (destruct E as [E | E]; [rewrite E; reflexivity |]).
  rewrite E; reflexivity.
Qed.

Lemma iso_text_shape (y m d t : Z) :
  ErrorBody.is_iso8601 (Js.iso_text y m d t) = true.
Proof.
  unfold Js.iso_text, Js.year_text.
  destruct ((0 <=? y) && (y <=? 9999)).
  - unfold ErrorBody.is_iso8601. cbn [Js.pad append list_ascii_of_string].
    unfold ErrorBody.after_year.
    rewrite !isDigit_digit. reflexivity.
  - destruct (y <? 0);
      unfold ErrorBody.is_iso8601; cbn [Js.pad append list_ascii_of_string];
      unfold ErrorBody.after_year;
      rewrite !isDigit_digit; reflexivity.
Qed.

Lemma toISOString_shape (ms : Z) (s : string) :
  Js.toISOString ms = Some s -> ErrorBody.is_iso8601 s = true.
Proof.
  unfold Js.toISOString.
  destruct (8640000000000000 <? Z.abs ms); [discriminate |].
  destruct (Js.civil (ms / 86400000)) as [[y m] d].
  intros H. assert (E : s = Js.iso_text y m d (ms mod 86400000))
    by congruence.
  rewrite E. apply iso_text_shape.
Qed.

Lemma toISOString_defined (ms : Z) :
  Z.abs ms <= 8640000000000000 -> exists s, Js.toISOString ms = Some s.
Proof.
  intros H. unfold Js.toISOString.
  destruct (8640000000000000 <? Z.abs ms) eqn:E.
  - apply Z.ltb_lt in E. lia.
  - destruct (Js.civil (ms / 86400000)) as [[y m] d]. eexists. reflexivity.
Qed.

Lemma now_iso_runs (env : Env) (w : World) :
  clock_ok env ->
  exists ts,
    Js.toISOString (clock env (clock_reads w)) = Some ts
    /\ now_iso env w = (Ok ts, ticked w)
    /\ ErrorBody.is_iso8601 ts = true.
Proof.
  intros Hc. destruct (toISOString_defined _ (Hc (clock_reads w))) as [ts E].
  exists ts. split; [exact E |]. split.
  - unfold now_iso, bind, Date_now, iso. rewrite E. reflexivity.
  - eapply toISOString_shape; eauto.
Qed.

Lemma demo_clock_ok : clock_ok Demo.env.
Proof.
  intros k. unfold Demo.env, clock. lia.
Defined.

(** ** The final error handler *)

Lemma errorHandler_replies (env : Env) (req : Request) (err : JsError)
  (w : World) (st : Z) (msg code : string) :
  clock_ok env ->
  ErrorHandler.classify err = (st, msg, code) ->
  replies env req err w st msg code.
Proof.
  intros Hc Hk. destruct (now_iso_runs env w Hc) as (ts & E & Hrun & _).
  exists ts.
  unfold ErrorHandler.errorHandler. rewrite Hk. unfold bind. rewrite Hrun.
  destruct (nodeEnv (config env) =? "development")%string;
    eexists; (split; [exact E |]); (split; [reflexivity |]);
    repeat split; reflexivity.
Qed.

(** C6, as first stated, fails: an error named ValidationError whose
    message contains "ECONNREFUSED" is answered 400 with code
    VALIDATION_ERROR, not 503 with SERVICE_UNAVAILABLE. *)
Lemma C6_name_checked_before_message :
  Js.includes (err_message refused_validation) "ECONNREFUSED" = true
  /\ map (fun r => (status r, ErrorBody.str_field "code" (body r)))
         (responses (snd (ErrorHandler.errorHandler Demo.env Demo.req
                            refused_validation initial_world)))
     = [(400, Some "VALIDATION_ERROR")]
  /\ (400, Some "VALIDATION_ERROR") <> (503, Some "SERVICE_UNAVAILABLE").
Proof.
  repeat split; try reflexivity. discriminate.
Qed.

(** C6 (amended). For an error whose name is neither ValidationError nor
    UnauthorizedError: a message containing "ECONNREFUSED" gives 503 and
    SERVICE_UNAVAILABLE; otherwise one containing "NoSuchBucket" gives 500
    and BUCKET_NOT_FOUND; otherwise one containing "AccessDenied" gives 403
    and ACCESS_DENIED; and an error of none of these kinds is answered with
    its own status and code where it carries them, 500 and INTERNAL_ERROR
    where it does not, and its message as it is (the fixed text "Internal
    Server Error" for an empty message). *)
Theorem C6_error_mapping (env : Env) (req : Request) (err : JsError)
  (w : World) :
  clock_ok env ->
  err_name err <> "ValidationError" ->
  err_name err <> "UnauthorizedError" ->
  let has := Js.includes (err_message err) in
  (has "ECONNREFUSED" = true ->
   replies env req err w 503 "Storage service unavailable"
           "SERVICE_UNAVAILABLE")
  /\ (has "ECONNREFUSED" = false -> has "NoSuchBucket" = true ->
      replies env req err w 500 "Storage bucket not found"
              "BUCKET_NOT_FOUND")
  /\ (has "ECONNREFUSED" = false -> has "NoSuchBucket" = false ->
      has "AccessDenied" = true ->
      replies env req err w 403 "Storage access denied" "ACCESS_DENIED")
  /\ (has "ECONNREFUSED" = false -> has "NoSuchBucket" = false ->
      has "AccessDenied" = false ->
      replies env req err w
              (Js.or_num (err_statusCode err) 500)
              (Js.or_str (Some (err_message err)) "Internal Server Error")
              (Js.or_str (err_code err) "INTERNAL_ERROR")
      /\ (err_statusCode err = None -> err_code err = None ->
          err_message err <> "" ->
          replies env req err w 500 (err_message err) "INTERNAL_ERROR")).
Proof.
  intros Hc Hv Hu has.
  apply String.eqb_neq in Hv. apply String.eqb_neq in Hu.
  assert (K : forall st msg code,
             ErrorHandler.classify err = (st, msg, code) ->
             replies env req err w st msg code)
    by (intros; apply errorHandler_replies; assumption).
  subst has. repeat split; intros.
  - apply K. unfold ErrorHandler.classify. rewrite Hv, Hu, H. reflexivity.
  - apply K. unfold ErrorHandler.classify. rewrite Hv, Hu, H, H0.
    reflexivity.
  - apply K. unfold ErrorHandler.classify. rewrite Hv, Hu, H, H0, H1.
    reflexivity.
  - apply K. unfold ErrorHandler.classify. rewrite Hv, Hu, H, H0, H1.
    reflexivity.
  - apply K. unfold ErrorHandler.classify. rewrite Hv, Hu, H, H0, H1.
    rewrite H2, H3. simpl.
    apply String.eqb_neq in H4. rewrite H4. reflexivity.
Qed.

Lemma C6_error_mapping_witness :
  replies Demo.env Demo.req (new_Error "ECONNREFUSED: Connection refused")
          initial_world 503 "Storage service unavailable"
          "SERVICE_UNAVAILABLE".
Proof.
  apply (C6_error_mapping Demo.env Demo.req
           (new_Error "ECONNREFUSED: Connection refused") initial_world
           demo_clock_ok);
    [discriminate | discriminate | reflexivity].
Defined.

(** ** Decoding the multipart body *)

Section Decode.

Variable cfg : Config.

Lemma fileFilter_error (f : File) (e : JsError) :
  Upload.fileFilter (upload cfg) f = Upload.Reject e -> decode_error e.
Proof.
  unfold Upload.fileFilter.
  destruct (Upload.isAllowed _ _); [discriminate |].
  intros H. injection H as <-. right. split; reflexivity.
Qed.

Lemma decode_fails_with_decode_error (name : string) :
  forall parts filesLeft seen e,
    Upload.decode cfg name filesLeft seen parts = inl e -> decode_error e.
Proof.
  induction parts as [| f rest IH]; intros filesLeft seen e;
    cbn [Upload.decode].
  - discriminate.
  - destruct (Upload.limit_files (Upload.limits cfg) <=? seen).
    { intros H; injection H as <-. left; reflexivity. }
    destruct (originalname f =? "")%string.
    { apply IH. }
    destruct (negb (fieldname f =? name)%string || (filesLeft <=? 0)).
    { intros H; injection H as <-. left; reflexivity. }
    destruct (Upload.fileFilter (upload cfg) f) eqn:Ef.
    + destruct (Upload.exceeds _ _).
      { intros H; injection H as <-. left; reflexivity. }
      destruct (Upload.decode cfg name (filesLeft - 1) (seen + 1) rest)
        eqn:Ed; [| discriminate].
      intros H; injection H as <-. eapply IH; eauto.
    + intros H; injection H as <-. eapply fileFilter_error; eauto.
Qed.

(** More file parts than the limit leaves room for: the decode fails. *)
Lemma decode_overflow (name : string) :
  forall parts filesLeft seen,
    seen <= 10 ->
    10 < seen + Z.of_nat (List.length parts) ->
    exists e, Upload.decode cfg name filesLeft seen parts = inl e.
Proof.
  induction parts as [| f rest IH]; intros filesLeft seen Hs Hn;
    cbn [Upload.decode List.length] in *.
  - lia.
  - change (Upload.limit_files (Upload.limits cfg)) with 10.
    destruct (Z.leb_spec 10 seen) as [H | H]; [eexists; reflexivity |].
    destruct (originalname f =? "")%string.
    { apply IH; lia. }
    destruct (negb (fieldname f =? name)%string || (filesLeft <=? 0));
      [eexists; reflexivity |].
    destruct (Upload.fileFilter (upload cfg) f); [| eexists; reflexivity].
    destruct (Upload.exceeds _ _); [eexists; reflexivity |].
    destruct (IH (filesLeft - 1) (seen + 1)) as [e He]; [lia | lia |].
    rewrite He. eexists; reflexivity.
Qed.

(** When the parts before the limit all pass, the failure is the count. *)
Lemma decode_count (name : string) :
  forall (n : nat) parts filesLeft,
    (n <= 10)%nat ->
    (n < List.length parts)%nat ->
    forallb (passes cfg name) (firstn n parts) = true ->
    Z.of_nat n <= filesLeft ->
    Upload.decode cfg name filesLeft (10 - Z.of_nat n) parts
    = inl (Upload.new_MulterError "LIMIT_FILE_COUNT").
Proof.
  induction n as [| n IH]; intros parts filesLeft Hn Hlen Hp Hf;
    destruct parts as [| f rest]; simpl in Hlen; try lia.
  - simpl. reflexivity.
  - cbn [Upload.decode].
    change (Upload.limit_files (Upload.limits cfg)) with 10.
    destruct (Z.leb_spec 10 (10 - Z.of_nat (S n))) as [H | H]; [lia |].
    cbn [firstn forallb] in Hp. apply andb_true_iff in Hp as [Hp1 Hp2].
    replace (10 - Z.of_nat (S n) + 1) with (10 - Z.of_nat n) by lia.
    unfold passes in Hp1.
    destruct (originalname f =? "")%string.
    { apply IH; try lia; assumption. }
    simpl in Hp1.
    apply andb_true_iff in Hp1 as [Hp1 Hsz].
    apply andb_true_iff in Hp1 as [Hname Hty].
    rewrite Hname. simpl.
    destruct (Z.leb_spec filesLeft 0) as [H0 | H0]; [lia |].
    unfold Upload.fileFilter. rewrite Hty.
    apply negb_true_iff in Hsz. rewrite Hsz.
    rewrite IH; try lia; auto.
Qed.

(** Every decode failure is answered by the error middleware with a 400;
    nothing else in the world changes. *)
Lemma handleMulterError_answers (e : JsError) (w : World) :
  decode_error e ->
  exists b,
    Upload.handleMulterError cfg e w = (Done, answered w (mkResponse 400 b))
    /\ ErrorBody.basic b = true
    /\ ErrorBody.code_listed b = true.
Proof.
  intros [Hm | [Hp Hi]]; unfold Upload.handleMulterError.
  - rewrite Hm.
    repeat match goal with
           | |- context [if ?c then _ else _] => destruct c
           end;
      eexists; repeat split; reflexivity.
  - rewrite Hp, Hi. eexists; repeat split; reflexivity.
Qed.

End Decode.

(** ** Missing payloads and oversized batches *)

(** C5. Without a payload the single upload answers 400 NO_FILE, and with
    no files the multiple upload answers 400 NO_FILES; in both the only
    change to the world is that answer, so nothing is put and nothing is
    presigned. A batch of eleven or more file parts never gets past the
    decode: it is answered 400 by the error middleware, again with no call
    to the backend and without the controller running, and when its first
    ten parts are acceptable the code of the answer is TOO_MANY_FILES. *)
Theorem C5_empty_and_oversized_batches (env : Env) (req : Request)
  (parts : list File) (w : World) :
  (req_file req = None ->
   FileController.uploadSingle env req w
   = (Done, answered w (mkResponse 400 no_file_body)))
  /\ (req_files req = None \/ req_files req = Some [] ->
      FileController.uploadMultiple env req w
      = (Done, answered w (mkResponse 400 no_files_body)))
  /\ App.serve env (App.PostUploadMultiple []) req w
     = (Done, answered w (mkResponse 400 no_files_body))
  /\ ((11 <= List.length parts)%nat ->
      (exists e b,
          Upload.array (config env) "files" 10 parts = inl e
          /\ App.serve env (App.PostUploadMultiple parts) req w
             = (Done, answered w (mkResponse 400 b))
          /\ calls (answered w (mkResponse 400 b)) = calls w)
      /\ (forallb (passes (config env) "files") (firstn 10 parts) = true ->
          Upload.array (config env) "files" 10 parts
          = inl (Upload.new_MulterError "LIMIT_FILE_COUNT")
          /\ App.serve env (App.PostUploadMultiple parts) req w
             = (Done, answered w (mkResponse 400 too_many_files_body)))).
Proof.
  split; [| split; [| split]].
  - intros H. unfold FileController.uploadSingle, FileController.guarded.
    rewrite H. reflexivity.
  - intros H.
    unfold FileController.uploadMultiple, FileController.guarded,
      FileController.no_files.
    destruct H as [-> | ->]; reflexivity.
  - reflexivity.
  - intros Hlen. split.
    + destruct (decode_overflow (config env) "files" parts 10 0)
        as [e He]; [lia | lia |].
      destruct (handleMulterError_answers (config env) e w) as (b & Hb & _).
      { eapply decode_fails_with_decode_error; eauto. }
      exists e, b. split; [exact He |]. split; [| reflexivity].
      unfold App.serve, App.route_handler, App.post_upload_multiple,
        Upload.array.
      rewrite He, Hb. reflexivity.
    + intros Hp.
      assert (E : Upload.array (config env) "files" 10 parts
                  = inl (Upload.new_MulterError "LIMIT_FILE_COUNT")).
      { unfold Upload.array.
        apply (decode_count (config env) "files" 10 parts 10);
          [lia | lia | exact Hp | lia]. }
      split; [exact E |].
      unfold App.serve, App.route_handler, App.post_upload_multiple.
      rewrite E. reflexivity.
Qed.

Lemma C5_empty_and_oversized_batches_witness :
  App.serve Demo.env
    (App.PostUploadMultiple
       (repeat (mkFile "files" "clip.mp4" "video/mp4" "hello" 5) 11))
    Demo.req initial_world
  = (Done, answered initial_world (mkResponse 400 too_many_files_body)).
Proof.
  apply (C5_empty_and_oversized_batches Demo.env Demo.req
           (repeat (mkFile "files" "clip.mp4" "video/mp4" "hello" 5) 11)
           initial_world);
    [simpl; lia | vm_compute; reflexivity].
Defined.

(** ** The size ceiling *)

Lemma single_by_size (cfg : Config) (f : File) :
  fieldname f = "file" ->
  originalname f <> "" ->
  Upload.isAllowed (allowedFileTypes (upload cfg)) (mimetype f) = true ->
  Upload.single cfg "file" [f]
  = if Upload.exceeds (size f) (Upload.limit_fileSize (Upload.limits cfg))
    then inl (Upload.new_MulterError "LIMIT_FILE_SIZE")
    else inr (Some (Upload.stored (Upload.limit_fileSize (Upload.limits cfg))
                                  f)).
Proof.
  intros Hf Hn Ht. unfold Upload.single. cbn [Upload.decode].
  change (Upload.limit_files (Upload.limits cfg) <=? 0) with false.
  apply String.eqb_neq in Hn. rewrite Hn, Hf.
  unfold Upload.fileFilter. rewrite Ht. simpl.
  destruct (Upload.exceeds _ _); reflexivity.
Qed.

(** C4. The size is not compared by the code of the service: the limit
    is handed to multer, whose parser stops a file part when the bytes
    read come to be equal to the limit. With the maximum configured as
    "5B", a file of 4 bytes is accepted and one of 6 bytes is answered 400
    FILE_TOO_LARGE before any storage call, as the claim says; but the
    file of exactly 5 bytes, which the rule of the specification accepts,
    is answered 400 FILE_TOO_LARGE as well. With the maximum configured as
    "1.5B", which the rule of the specification takes to refuse a file of
    5 bytes, that file is not refused: its first byte is handed on as the
    whole file. *)
Theorem C4_boundary_is_refused :
  Upload.limit_fileSize (Upload.limits (sized_cfg "5B"))
  = Js.Fin (inject_Z 5)
  /\ Upload.single (sized_cfg "5B") "file"
       [mkFile "file" "clip.mp4" "video/mp4" "hell" 4]
     = inr (Some (mkFile "file" "clip.mp4" "video/mp4" "hell" 4))
  /\ App.serve (sized_env "5B")
       (App.PostUpload [mkFile "file" "clip.mp4" "video/mp4" "hello!" 6])
       Demo.req initial_world
     = (Done, answered initial_world
                (mkResponse 400 (file_too_large_body (sized_cfg "5B"))))
  /\ SizeRule.accepts (size Demo.clip) (inject_Z 5) = true
  /\ Upload.single (sized_cfg "5B") "file" [Demo.clip]
     = inl (Upload.new_MulterError "LIMIT_FILE_SIZE")
  /\ App.serve (sized_env "5B") (App.PostUpload [Demo.clip]) Demo.req
       initial_world
     = (Done, answered initial_world
                (mkResponse 400 (file_too_large_body (sized_cfg "5B"))))
  /\ Upload.limit_fileSize (Upload.limits (sized_cfg "1.5B"))
     = Js.Fin (3 # 2)
  /\ SizeRule.accepts (size Demo.clip) (3 # 2) = false
  /\ Upload.single (sized_cfg "1.5B") "file" [Demo.clip]
     = inr (Some (mkFile "file" "clip.mp4" "video/mp4" "h" 1)).
Proof.
  repeat split; vm_compute; reflexivity.
Qed.


(** ** The size text *)

Section Span.

Variable p : ascii -> bool.

Lemma span_app (a b : list ascii) :
  forallb p a = true -> stops p b -> Js.span p (a ++ b) = (a, b).
Proof.
  intros Ha Hb. induction a as [| c a IH]; simpl in *.
  - destruct b as [| c b]; [reflexivity |]. simpl in *. rewrite Hb.
    reflexivity.
  - apply andb_true_iff in Ha as [Hc Ha]. rewrite Hc, (IH Ha). reflexivity.
Qed.

Lemma span_all (a : list ascii) :
  forallb p a = true -> Js.span p a = (a, []).
Proof.
  intros Ha. rewrite <- (app_nil_r a) at 1. apply span_app; simpl; auto.
Qed.

Lemma span_spec (l a b : list ascii) :
  Js.span p l = (a, b) ->
  l = (a ++ b)%list /\ forallb p a = true /\ stops p b.
Proof.
  revert a b. induction l as [| c l IH]; intros a b; simpl.
  - intros H; injection H as <- <-. repeat split.
  - destruct (p c) eqn:Hc.
    + destruct (Js.span p l) as [a' b'] eqn:E.
      intros H; injection H as <- <-.
      destruct (IH a' b' eq_refl) as (-> & Ha & Hb).
      repeat split; simpl; auto. rewrite Hc; exact Ha.
    + intros H; injection H as <- <-. repeat split. exact Hc.
Qed.

End Span.

(** A letter of a unit word is no digit, no white space and no point. *)
Lemma unit_letter_class (c : ascii) :
  unit_letter c = true ->
  Js.isDigit c = false /\ Js.isSpace c = false /\ c <> "."%char.
Proof.
  destruct c as [[] [] [] [] [] [] [] []]; vm_compute; intros H;
    try discriminate H; repeat split; discriminate.
Qed.

Lemma unit_word_head (u : list ascii) (bytes : Z) :
  SizeText.unit_word u bytes ->
  exists c u', u = c :: u' /\ unit_letter c = true.
Proof.
  unfold SizeText.unit_word, Js.toUpperCase.
  intros H. destruct u as [| c u'].
  - simpl in H. intuition discriminate.
  - exists c, u'. split; [reflexivity |]. unfold unit_letter.
    simpl in H.
    destruct H as [[H _] | [[H _] | [[H _] | [H _]]]];
      injection H as H _; rewrite H; reflexivity.
Qed.

Lemma unit_word_matches (u : list ascii) (bytes : Z) :
  SizeText.unit_word u bytes ->
  Upload.matches_unit u = true
  /\ Upload.lookup (string_of_list_ascii (Js.toUpperCase u)) Upload.units
     = Some bytes.
Proof.
  unfold SizeText.unit_word, Upload.matches_unit.
  intros [[E ->] | [[E ->] | [[E ->] | [E ->]]]]; rewrite E;
    split; reflexivity.
Qed.

Lemma matches_unit_word (u : list ascii) :
  Upload.matches_unit u = true -> exists bytes, SizeText.unit_word u bytes.
Proof.
  unfold Upload.matches_unit, Upload.unit_alternatives.
  cbn [map existsb]. unfold SizeText.unit_word.
  repeat match goal with
         | |- context [list_eq_dec ascii_dec ?a ?b] =>
             destruct (list_eq_dec ascii_dec a b)
         end; intros H; try discriminate H; eauto 10.
Qed.

Lemma space_class (c : ascii) :
  Js.isSpace c = true -> Js.isDigit c = false /\ Ascii.eqb c "." = false.
Proof.
  destruct c as [[] [] [] [] [] [] [] []]; vm_compute; intros H;
    try discriminate H; split; reflexivity.
Qed.

Lemma unit_letter_not_dot (c : ascii) :
  unit_letter c = true -> Ascii.eqb c "." = false.
Proof.
  intros H. apply Ascii.eqb_neq. apply (unit_letter_class c H).
Qed.

(** What follows the number starts with neither a digit nor a point. *)
Lemma after_number (ws u : list ascii) (bytes : Z) :
  forallb Js.isSpace ws = true ->
  SizeText.unit_word u bytes ->
  exists c r, (ws ++ u)%list = c :: r
              /\ Js.isDigit c = false /\ Ascii.eqb c "." = false.
Proof.
  intros Hws Hu. destruct (unit_word_head u bytes Hu) as (c & u' & -> & Hc).
  destruct ws as [| s ws'].
  - exists c, u'. split; [reflexivity |].
    split; [apply (unit_letter_class c Hc) | apply unit_letter_not_dot, Hc].
  - simpl in Hws. apply andb_true_iff in Hws as [Hs _].
    exists s, (ws' ++ c :: u')%list. split; [reflexivity |].
    apply space_class, Hs.
Qed.

Lemma parseFloat_number (ds frac fs : list ascii) :
  ds <> [] ->
  forallb Js.isDigit ds = true ->
  SizeText.fraction frac fs ->
  Js.parseFloat (ds ++ frac) = Js.to_double (Js.decimal_value ds fs).
Proof.
  intros Hne Hds Hf. unfold Js.parseFloat.
  destruct Hf as [[-> ->] | (Hfs & Hd & ->)].
  - rewrite app_nil_r, (span_all _ _ Hds).
    destruct ds; [congruence | reflexivity].
  - rewrite (span_app _ ds ("."%char :: fs) Hds) by reflexivity.
    change (Ascii.eqb "." ".") with true. cbv iota.
    rewrite (span_all _ _ Hd). cbn [fst].
    destruct ds; [congruence | reflexivity].
Qed.

Lemma size_match_complete (ds frac fs ws u : list ascii) (bytes : Z) :
  ds <> [] ->
  forallb Js.isDigit ds = true ->
  SizeText.fraction frac fs ->
  forallb Js.isSpace ws = true ->
  SizeText.unit_word u bytes ->
  Upload.size_match (ds ++ frac ++ ws ++ u) = Some ((ds ++ frac)%list, u).
Proof.
  intros Hne Hds Hf Hws Hu.
  destruct (after_number ws u bytes Hws Hu) as (c & r & Er & Hcd & Hcp).
  destruct (unit_word_head u bytes Hu) as (l & u' & Eu & Hl).
  assert (Hsp : Js.span Js.isSpace (ws ++ u) = (ws, u)).
  { apply span_app; [exact Hws |]. rewrite Eu. simpl.
    apply (unit_letter_class l Hl). }
  unfold Upload.size_match.
  destruct Hf as [[-> ->] | (Hfs & Hd & ->)].
  - cbn [app]. rewrite (span_app _ ds (ws ++ u) Hds)
      by (rewrite Er; exact Hcd).
    destruct ds as [| d ds']; [congruence |].
    rewrite Er, Hcp, <- Er, Hsp. cbn [snd].
    rewrite (proj1 (unit_word_matches u bytes Hu)), app_nil_r. reflexivity.
  - rewrite (span_app _ ds (("."%char :: fs) ++ ws ++ u) Hds)
      by reflexivity.
    destruct ds as [| d ds']; [congruence |].
    cbn [app]. change (Ascii.eqb "." ".") with true. cbv iota.
    rewrite (span_app _ fs (ws ++ u) Hd) by (rewrite Er; exact Hcd).
    destruct fs as [| f fs']; [congruence |].
    rewrite Hsp. cbn [snd].
    rewrite (proj1 (unit_word_matches u bytes Hu)). reflexivity.
Qed.

Lemma parseSize_reads (s : string) (number : Q) (bytes : Z) :
  SizeText.reads (list_ascii_of_string s) number bytes ->
  Upload.parseSize s = Js.times (Js.to_double number) bytes.
Proof.
  intros H. unfold Upload.parseSize.
  inversion H as [ds frac fs ws u b Hne Hds Hf Hws Hu El En Eb].
  rewrite (size_match_complete ds frac fs ws u bytes Hne Hds Hf Hws Hu).
  rewrite (parseFloat_number ds frac fs Hne Hds Hf).
  rewrite (proj2 (unit_word_matches u bytes Hu)). reflexivity.
Qed.

Lemma size_match_sound (l num u : list ascii) :
  Upload.size_match l = Some (num, u) ->
  exists number bytes, SizeText.reads l number bytes.
Proof.
  unfold Upload.size_match.
  destruct (Js.span Js.isDigit l) as [ds r1] eqn:E1.
  apply span_spec in E1 as (-> & Hds & _).
  destruct ds as [| d ds']; [discriminate |].
  set (ds := d :: ds') in *.
  assert (Hne : ds <> []) by discriminate.
  assert (K : forall frac fs r2,
             SizeText.fraction frac fs ->
             r1 = (frac ++ r2)%list ->
             (if Upload.matches_unit (snd (Js.span Js.isSpace r2))
              then Some ((ds ++ frac)%list, snd (Js.span Js.isSpace r2))
              else None) = Some (num, u) ->
             exists number bytes, SizeText.reads (ds ++ r1) number bytes).
  { intros frac fs r2 Hf -> Hm.
    destruct (Js.span Js.isSpace r2) as [ws r3] eqn:E3.
    apply span_spec in E3 as (-> & Hws & _). cbn [snd] in Hm.
    destruct (Upload.matches_unit r3) eqn:Em; [| discriminate].
    destruct (matches_unit_word r3 Em) as [bytes Hu].
    do 2 eexists. apply (SizeText.reads_intro ds frac fs ws r3 bytes); auto. }
  destruct r1 as [| c r].
  - apply (K [] [] []); [left; auto | reflexivity].
  - destruct (Ascii.eqb c ".") eqn:Ec.
    + apply Ascii.eqb_eq in Ec. subst c.
      destruct (Js.span Js.isDigit r) as [fs r'] eqn:E2.
      apply span_spec in E2 as (-> & Hfs & _).
      destruct fs as [| f fs'].
      * apply (K [] [] ("."%char :: r')); [left; auto | reflexivity].
      * apply (K ("."%char :: f :: fs') (f :: fs') r');
          [right; repeat split; [discriminate | exact Hfs] | reflexivity].
    + apply (K [] [] (c :: r)); [left; auto | reflexivity].
Qed.

(** *** Rounding to binary64 *)

Lemma to_double_not_NaN (q : Q) : Js.to_double q <> Js.NaN.
Proof.
  unfold Js.to_double. destruct (Qnum q <=? 0); [discriminate |].
  cbv zeta. destruct (Js.scaled _ _ _) as [num den].
  destruct (_ || _); discriminate.
Qed.

Lemma pow2_pos (e : Z) : (0 < Js.pow2 e)%Q.
Proof.
  unfold Js.pow2. destruct (Z.leb_spec 0 e).
  - change 0%Q with (inject_Z 0). rewrite <- Zlt_Qlt.
    apply Z.pow_pos_nonneg; lia.
  - reflexivity.
Qed.

Lemma scaled_pos (n d e : Z) :
  0 < n -> 0 < d -> 0 < fst (Js.scaled n d e) /\ 0 < snd (Js.scaled n d e).
Proof.
  intros Hn Hd. unfold Js.scaled. destruct (Z.leb_spec 0 e); cbn [fst snd].
  - split; [lia |]. apply Z.mul_pos_pos; [lia |]. apply Z.pow_pos_nonneg; lia.
  - split; [| lia]. apply Z.mul_pos_pos; [lia |]. apply Z.pow_pos_nonneg; lia.
Qed.

Lemma Fin_Qred_nonneg (m e : Z) (r : Q) :
  0 <= m -> Js.Fin (Qred (inject_Z m * Js.pow2 e)) = Js.Fin r -> (0 <= r)%Q.
Proof.
  intros Hm H.
  assert (E : r = Qred (inject_Z m * Js.pow2 e)) by congruence.
  rewrite E. clear H E.
  apply (Qle_trans _ (inject_Z m * Js.pow2 e)).
  - apply Qmult_le_0_compat; [| apply Qlt_le_weak, pow2_pos].
    change 0%Q with (inject_Z 0). now rewrite <- Zle_Qle.
  - apply Qle_lteq. right. symmetry. apply Qred_correct.
Qed.

(** A rounded value is never negative. *)
Lemma to_double_nonneg (q r : Q) : Js.to_double q = Js.Fin r -> (0 <= r)%Q.
Proof.
  unfold Js.to_double. destruct (Z.leb_spec (Qnum q) 0) as [Hn | Hn].
  - intros H; injection H as <-. apply Qle_refl.
  - cbv zeta.
    match goal with
    | |- context [Js.scaled ?n ?d (Z.max ?e ?c)] =>
        pose proof (scaled_pos n d (Z.max e c) Hn eq_refl) as [H1 H2];
        destruct (Js.scaled n d (Z.max e c)) as [num den]
    end.
    cbn [fst snd] in H1, H2.
    destruct (_ || _); [discriminate |].
    apply Fin_Qred_nonneg.
    pose proof (Z.div_pos num den ltac:(lia) H2).
    destruct (_ || _); lia.
Qed.

Lemma Qred_inject_Z (n : Z) : Qred (inject_Z n) = inject_Z n.
Proof.
  unfold Qred, inject_Z.
  pose proof (Z.ggcd_correct_divisors n (Z.pos 1)) as H.
  pose proof (Z.ggcd_gcd n (Z.pos 1)) as G.
  destruct (Z.ggcd n (Z.pos 1)) as [g [aa bb]].
  cbn [fst snd] in *. rewrite Z.gcd_1_r in G. subst g.
  destruct H as [Ha Hb]. rewrite !Z.mul_1_l in *. subst aa.
  rewrite <- Hb. reflexivity.
Qed.

(** The whole numbers up to [2 ^ 53] are binary64 values. *)
Lemma to_double_int (n : Z) :
  0 <= n <= 2 ^ 53 -> Js.to_double (inject_Z n) = Js.Fin (inject_Z n).
Proof.
  intros [H0 H1]. unfold Js.to_double. cbn [Qnum Qden inject_Z].
  destruct (Z.leb_spec n 0) as [Hn | Hn].
  { replace n with 0 by lia. reflexivity. }
  change (Z.log2 1) with 0. rewrite Z.sub_0_r.
  pose proof (Z.log2_spec n Hn) as [La Lb].
  pose proof (Z.log2_nonneg n) as Lnn.
  assert (La53 : Z.log2 n <= 53).
  { destruct (Z_le_gt_dec (Z.log2 n) 53); [assumption |].
    assert (2 ^ 54 <= 2 ^ Z.log2 n) by (apply Z.pow_le_mono_r; lia).
    assert (2 ^ 53 < 2 ^ 54) by (apply Z.pow_lt_mono_r; lia). lia. }
  set (a := Z.log2 n) in *.
  assert (Hcases : a = 53 \/ a <= 52) by lia.
  destruct Hcases as [E53 | L52].
  - assert (n = 2 ^ 53) by (rewrite E53 in La; lia). subst n.
    rewrite E53. vm_compute. reflexivity.
  - assert (Hq : n * 2 ^ (52 - a) >= 2 ^ 52).
    { replace (2 ^ 52) with (2 ^ a * 2 ^ (52 - a))
        by (rewrite <- Z.pow_add_r by lia; f_equal; lia).
      assert (0 < 2 ^ (52 - a)) by (apply Z.pow_pos_nonneg; lia). nia. }
    assert (Hs : Js.scaled n 1 (a - 52) = (n * 2 ^ (52 - a), 1)).
    { unfold Js.scaled. destruct (Z.leb_spec 0 (a - 52)).
      - replace (a - 52) with 0 by lia. replace (52 - a) with 0 by lia.
        simpl. f_equal. lia.
      - f_equal. f_equal. f_equal. lia. }
    rewrite Hs. cbn [fst snd]. rewrite Z.div_1_r.
    destruct (Z.ltb_spec (n * 2 ^ (52 - a)) (2 ^ 52)); [lia |].
    rewrite Z.max_l by lia. rewrite Hs.
    rewrite Z.div_1_r, Z.mod_1_r.
    change (1 <? 2 * 0) with false. change (1 =? 2 * 0) with false.
    cbn [orb andb].
    destruct (Z.ltb_spec 971 (a - 52)); [lia |].
    destruct (Z.eqb_spec (a - 52) 971); [lia |].
    cbn [orb andb]. f_equal.
    rewrite <- (Qred_inject_Z n). apply Qred_complete.
    unfold Js.pow2. destruct (Z.leb_spec 0 (a - 52)).
    + replace (a - 52) with 0 by lia. replace (52 - a) with 0 by lia.
      simpl. unfold Qeq. simpl. lia.
    + replace (- (a - 52)) with (52 - a) by lia.
      assert (0 < 2 ^ (52 - a)) by (apply Z.pow_pos_nonneg; lia).
      unfold Qeq. cbn [Qnum Qden Qmult inject_Z].
      rewrite Pos.mul_1_l, Z2Pos.id by lia. lia.
Qed.

Lemma digits_val_fold_nonneg (ds : list ascii) :
  forallb Js.isDigit ds = true ->
  forall acc, 0 <= acc ->
    0 <= fold_left (fun a c => 10 * a + Js.digit_val c) ds acc.
Proof.
  induction ds as [| c ds IH]; intros Hd acc Hacc; cbn [fold_left];
    [exact Hacc |].
  cbn [forallb] in Hd. apply andb_true_iff in Hd as [Hc Hd].
  apply IH; [exact Hd |].
  unfold Js.isDigit in Hc. apply andb_true_iff in Hc as [Hc _].
  apply Nat.leb_le in Hc. unfold Js.digit_val. lia.
Qed.

(** A numeral without a fraction denotes its whole number. *)
Lemma decimal_value_whole (ds : list ascii) :
  Js.decimal_value ds [] = inject_Z (Js.digits_val ds).
Proof.
  unfold Js.decimal_value, Qplus, Qdiv, Qmult, Qinv, inject_Z.
  cbn. f_equal. lia.
Qed.

(** C9, as first stated, fails: numbers are binary64 values, so the
    size text "9007199254740993B", which denotes 9007199254740993 bytes,
    is parsed to 9007199254740992. *)
Lemma C9_rounding_counterexample :
  exists q,
    SizeText.denotes (list_ascii_of_string "9007199254740993B") q
    /\ (q == inject_Z 9007199254740993)%Q
    /\ Upload.parseSize "9007199254740993B"
       = Js.Fin (inject_Z 9007199254740992)
    /\ ~ (inject_Z 9007199254740992 == q)%Q.
Proof.
  eexists. split.
  - do 2 eexists. split; [| reflexivity].
    apply (SizeText.reads_intro
             (list_ascii_of_string "9007199254740993") [] [] []
             ["B"%char] 1);
      [discriminate | reflexivity | left; auto | reflexivity |
       left; split; reflexivity].
  - split; [vm_compute; reflexivity |].
    split; [vm_compute; reflexivity |].
    vm_compute. discriminate.
Qed.

(** C9 (amended). A size text made of a number, optional white space
    and one of B, KB, MB, GB in either case parses to the binary64 value
    nearest to the number, multiplied by the bytes of its unit; for a
    whole number this is the number times the bytes of the unit exactly,
    as long as that product is at most 2^53 (and "1.5KB" is 1536, "2.25
    gb" is 2415919104, "0.5 Mb" is 524288), and it is infinite for a
    number too large for a binary64 value, such as a 1 followed by 309
    zeros. Every other text, the empty one included, parses to
    10 * 1024 * 1024; the result is never [NaN]; and it is what the
    multipart decode takes as its file-size limit. *)
Theorem C9_parseSize :
  (forall (s : string) (number : Q) (bytes : Z),
      SizeText.reads (list_ascii_of_string s) number bytes ->
      Upload.parseSize s = Js.times (Js.to_double number) bytes)
  /\ (forall (ds ws u : list ascii) (bytes : Z),
         ds <> [] ->
         forallb Js.isDigit ds = true ->
         forallb Js.isSpace ws = true ->
         SizeText.unit_word u bytes ->
         Js.digits_val ds * bytes <= 2 ^ 53 ->
         Upload.parseSize (string_of_list_ascii (ds ++ ws ++ u))
         = Js.Fin (inject_Z (Js.digits_val ds * bytes)))
  /\ map Upload.parseSize ["1.5KB"; "2.25 gb"; "0.5 Mb"]
     = map (fun n => Js.Fin (inject_Z n)) [1536; 2415919104; 524288]
  /\ Upload.parseSize
       (string_of_list_ascii
          ("1"%char :: repeat "0"%char 309 ++ ["B"%char]))
     = Js.PInf
  /\ (forall s : string,
         ~ (exists number bytes,
               SizeText.reads (list_ascii_of_string s) number bytes) ->
         Upload.parseSize s = Js.Fin (inject_Z (10 * 1024 * 1024)))
  /\ Upload.parseSize "" = Js.Fin (inject_Z 10485760)
  /\ (forall s : string, Upload.parseSize s <> Js.NaN)
  /\ (forall cfg : Config,
         Upload.limit_fileSize (Upload.limits cfg)
         = Upload.parseSize (maxFileSize (upload cfg))).
Proof.
  assert (Fallback : forall s,
             Upload.size_match (list_ascii_of_string s) = None ->
             Upload.parseSize s = Js.Fin (inject_Z (10 * 1024 * 1024))).
  { intros s E. unfold Upload.parseSize. rewrite E. reflexivity. }
  split; [exact parseSize_reads |].
  split; [| split; [vm_compute; reflexivity |
                    split; [vm_compute; reflexivity |
                    split; [| split; [reflexivity |
                                      split; [| reflexivity]]]]]].
  - intros ds ws u bytes Hne Hds Hws Hu Hle.
    rewrite (parseSize_reads _ (Js.decimal_value ds []) bytes).
    + rewrite decimal_value_whole.
      pose proof (digits_val_fold_nonneg ds Hds 0 (Z.le_refl 0)) as Hn.
      fold (Js.digits_val ds) in Hn.
      assert (Hb : 1 <= bytes)
        by (destruct Hu as [[_ ->] | [[_ ->] | [[_ ->] | [_ ->]]]]; lia).
      rewrite to_double_int by nia.
      cbn [Js.times].
      change (inject_Z (Js.digits_val ds) * inject_Z bytes)%Q
        with (inject_Z (Js.digits_val ds * bytes)).
      apply to_double_int. nia.
    + rewrite list_ascii_of_string_of_list_ascii.
      apply (SizeText.reads_intro ds [] [] ws u bytes); auto.
      left; auto.
  - intros s Hno.
    destruct (Upload.size_match (list_ascii_of_string s)) as [[num u] |]
      eqn:E; [| apply Fallback, E].
    exfalso. apply Hno. eapply size_match_sound; eauto.
  - intros s.
    destruct (Upload.size_match (list_ascii_of_string s)) as [[num u] |]
      eqn:E.
    + destruct (size_match_sound _ _ _ E) as (number & bytes & Hr).
      rewrite (parseSize_reads _ _ _ Hr). unfold Js.times.
      destruct (Js.to_double number) eqn:Ed;
        [exfalso; exact (to_double_not_NaN _ Ed) | discriminate |].
      apply to_double_not_NaN.
    + rewrite (Fallback s E). discriminate.
Qed.

Lemma C9_parseSize_witness :
  Upload.parseSize "100 mb" = Js.Fin (inject_Z (100 * 1048576)).
Proof.
  apply (proj1 (proj2 C9_parseSize)
           (list_ascii_of_string "100") [" "%char]
           (list_ascii_of_string "mb") 1048576);
    [discriminate | reflexivity | reflexivity |
     right; right; left; split; reflexivity | vm_compute; discriminate].
Defined.

(** ** Object keys *)

Lemma substring_whole (s : string) : substring 0 (String.length s) s = s.
Proof.
  induction s as [| c s IH]; simpl; [reflexivity | now rewrite IH].
Qed.

Lemma endsWith_refl (p : string) : Js.endsWith p p = true.
Proof.
  unfold Js.endsWith. rewrite Nat.leb_refl, Nat.sub_diag, substring_whole.
  apply String.eqb_refl.
Qed.

Lemma endsWith_cons (c : ascii) (s p : string) :
  Js.endsWith s p = true -> Js.endsWith (String c s) p = true.
Proof.
  unfold Js.endsWith. intros H. apply andb_true_iff in H as [Hle Hs].
  apply Nat.leb_le in Hle. cbn [String.length].
  replace (S (String.length s) - String.length p)%nat
    with (S (String.length s - String.length p)) by lia.
  cbn [substring]. rewrite Hs.
  replace (String.length p <=? S (String.length s))%nat with true
    by (symmetry; apply Nat.leb_le; lia).
  reflexivity.
Qed.

Lemma endsWith_append (a s p : string) :
  Js.endsWith s p = true -> Js.endsWith (a ++ s) p = true.
Proof.
  intros H. induction a as [| c a IH]; simpl; [exact H |].
  apply endsWith_cons, IH.
Qed.

Lemma list_of_append (a b : string) :
  list_ascii_of_string (a ++ b)
  = (list_ascii_of_string a ++ list_ascii_of_string b)%list.
Proof.
  induction a as [| c a IH]; simpl; [reflexivity | now rewrite IH].
Qed.

Lemma string_of_app (a b : list ascii) :
  string_of_list_ascii (a ++ b)
  = string_of_list_ascii a ++ string_of_list_ascii b.
Proof.
  induction a as [| c a IH]; simpl; [reflexivity | now rewrite IH].
Qed.

Lemma forallb_rev (p : ascii -> bool) (l : list ascii) :
  forallb p (rev l) = forallb p l.
Proof.
  induction l as [| c l IH]; simpl; [reflexivity |].
  rewrite forallb_app, IH. simpl. rewrite andb_true_r. apply andb_comm.
Qed.

(** What [split_last_dot] returns: the two parts make up the name, and
    the extension is empty for a name without a point, and otherwise a
    point followed by text without one. *)
Lemma split_last_dot_spec (f : list ascii) :
  let (b, e) := NameRule.split_last_dot f in
  f = (b ++ e)%list
  /\ ((e = [] /\ forallb Path.notDot f = true)
      \/ exists x, e = "."%char :: x /\ forallb Path.notDot x = true).
Proof.
  induction f as [| c f IH]; simpl.
  - split; [reflexivity | left; split; reflexivity].
  - destruct (NameRule.split_last_dot f) as [b e].
    destruct IH as [-> IH]. destruct e as [| d e'].
    + destruct IH as [[_ Hn] | (x & Hx & _)]; [| discriminate].
      rewrite app_nil_r in Hn.
      destruct (Ascii.eqb c ".") eqn:Ec.
      * apply Ascii.eqb_eq in Ec. subst c. rewrite app_nil_r.
        split; [reflexivity |]. right. exists b. split; [reflexivity | exact Hn].
      * split; [reflexivity |]. left. split; [reflexivity |].
        rewrite app_nil_r. simpl. unfold Path.notDot at 1. rewrite Ec. exact Hn.
    + split; [reflexivity |]. right.
      destruct IH as [[H _] | (x & Hx & Hn)]; [discriminate |].
      exists x. split; assumption.
Qed.

Lemma last_portion_plain (l : list ascii) :
  forallb Path.notSlash l = true -> Path.last_portion l = l.
Proof.
  intros H. unfold Path.last_portion.
  assert (Hr : forallb Path.notSlash (rev l) = true)
    by (rewrite forallb_rev; exact H).
  assert (E : Js.span Path.isSlash (rev l) = ([], rev l)).
  { destruct (rev l) as [| c r]; [reflexivity |]. simpl in *.
    apply andb_true_iff in Hr as [Hc _]. unfold Path.notSlash in Hc.
    apply negb_true_iff in Hc. rewrite Hc. reflexivity. }
  rewrite E. cbn [snd]. rewrite (span_all _ _ Hr). cbn [fst].
  apply rev_involutive.
Qed.

Lemma path_split_plain (l : list ascii) :
  plain_name (string_of_list_ascii l) = true ->
  Path.extname_l l = snd (NameRule.split_last_dot l)
  /\ Path.basename_l l (Path.extname_l l) = fst (NameRule.split_last_dot l).
Proof.
  unfold plain_name. rewrite list_ascii_of_string_of_list_ascii.
  destruct l as [| c0 l0]; [discriminate |].
  set (l := c0 :: l0). intros H. apply andb_true_iff in H as [Hdot Hsl].
  apply negb_true_iff in Hdot.
  pose proof (split_last_dot_spec l) as S.
  destruct (NameRule.split_last_dot l) as [b e]. destruct S as [El He].
  cbn [fst snd].
  assert (Ex : Path.extname_l l = e).
  { unfold Path.extname_l. rewrite (last_portion_plain l Hsl).
    destruct He as [[-> Hn] | (x & -> & Hn)].
    - rewrite (span_all _ (rev l)) by (rewrite forallb_rev; exact Hn).
      reflexivity.
    - rewrite El, rev_app_distr. cbn [rev]. rewrite <- app_assoc. cbn [app].
      rewrite (span_app _ (rev x) ("."%char :: rev b))
        by (rewrite ?forallb_rev; auto; reflexivity).
      destruct b as [| b0 b'].
      + exfalso. subst l. injection El as Ec _. subst c0. discriminate.
      + destruct (rev (b0 :: b')) eqn:Er.
        { apply (f_equal (@List.length ascii)) in Er.
          rewrite length_rev in Er. discriminate. }
        destruct (list_eq_dec ascii_dec ((b0 :: b') ++ "."%char :: x)
                              ["."%char; "."%char]) as [E2 | _].
        { exfalso. subst l. rewrite E2 in El. injection El as Ec _.
          subst c0. discriminate. }
        rewrite rev_involutive. reflexivity. }
  split; [exact Ex |]. rewrite Ex.
  unfold Path.basename_l. rewrite (last_portion_plain l Hsl).
  destruct He as [[-> _] | (x & -> & _)].
  - rewrite app_nil_r in El. congruence.
  - assert (Hb : b <> []).
    { intros ->. subst l. injection El as Ec _. subst c0. discriminate. }
    clear Ex Hdot Hsl. clearbody l. subst l.
    replace (List.length ("."%char :: x) <=? List.length (b ++ "."%char :: x))%nat
      with true
      by (symmetry; apply Nat.leb_le; rewrite length_app; lia).
    destruct (list_eq_dec ascii_dec ("."%char :: x) (b ++ "."%char :: x))
      as [E2 | _].
    { exfalso. apply (f_equal (@List.length ascii)) in E2.
      rewrite length_app in E2. destruct b; [congruence | simpl in E2; lia]. }
    unfold Path.strip_suffix.
    replace (List.length (b ++ "."%char :: x) - List.length ("."%char :: x))%nat
      with (List.length b + 0)%nat by (rewrite length_app; lia).
    rewrite skipn_app, firstn_app.
    rewrite Nat.add_0_r, skipn_all, firstn_all, Nat.sub_diag.
    cbn [skipn firstn app].
    destruct (list_eq_dec ascii_dec ("."%char :: x) ("."%char :: x));
      [| congruence].
    rewrite app_nil_r. destruct b; [congruence | reflexivity].
Qed.

Lemma lower_hex_not_dash (c : ascii) :
  NameRule.lower_hex c = true -> Ascii.eqb c "-" = false.
Proof.
  destruct c as [[] [] [] [] [] [] [] []]; vm_compute; intros H;
    try discriminate H; reflexivity.
Qed.

Lemma split_first_app (sep : ascii) (g r : list ascii) :
  forallb (fun c => negb (Ascii.eqb c sep)) g = true ->
  Js.split_first sep (string_of_list_ascii (g ++ sep :: r))
  = string_of_list_ascii g.
Proof.
  intros H. induction g as [| c g IH]; simpl in *.
  - rewrite Ascii.eqb_refl. reflexivity.
  - apply andb_true_iff in H as [Hc Hg]. apply negb_true_iff in Hc.
    rewrite Hc, (IH Hg). reflexivity.
Qed.

Lemma length_string_of (l : list ascii) :
  String.length (string_of_list_ascii l) = List.length l.
Proof.
  induction l as [| c l IH]; simpl; [reflexivity | now rewrite IH].
Qed.

(** The first group of a UUID is eight hexadecimal digits. *)
Lemma uuid_first_group (u : string) :
  NameRule.is_uuid u = true ->
  NameRule.hex8 (Js.split_first "-" u) = true.
Proof.
  unfold NameRule.is_uuid. rewrite <- (string_of_list_ascii_of_string u) at 2.
  generalize (list_ascii_of_string u) as l. intros l.
  cbn [NameRule.hex_groups].
  intros H. apply andb_true_iff in H as [H Hrest].
  apply andb_true_iff in H as [Hlen Hhex].
  destruct (skipn 8 l) as [| c l'] eqn:Es; [discriminate |].
  apply andb_true_iff in Hrest as [Hc _]. apply Ascii.eqb_eq in Hc. subst c.
  rewrite <- (firstn_skipn 8 l), Es.
  rewrite split_first_app.
  - unfold NameRule.hex8.
    rewrite length_string_of, list_ascii_of_string_of_list_ascii.
    rewrite Hlen, Hhex. reflexivity.
  - rewrite forallb_forall in *. intros c Hin.
    rewrite (lower_hex_not_dash c (Hhex c Hin)). reflexivity.
Qed.

(** C3, as first stated, fails for a name whose only point is its first
    character: [path.extname] finds no extension in ".env", so the key is
    ".env_<timestamp>_<suffix>", while splitting at the last point gives the
    empty base and the extension ".env"; the key does not end with that
    extension. *)
Lemma C3_leading_dot_name :
  let dotenv := mkFile "file" ".env" "text/plain" "x" 1 in
  fst (MinioService.uploadFile_issue Demo.env dotenv "" initial_world)
  = Ok (".env_1700000000000_9b2e4f10", None)
  /\ NameRule.key ".env" "" 1700000000000 "9b2e4f10"
     = "_1700000000000_9b2e4f10.env"
  /\ ".env_1700000000000_9b2e4f10"
     <> NameRule.key ".env" "" 1700000000000 "9b2e4f10"
  /\ Js.endsWith ".env_1700000000000_9b2e4f10" (NameRule.extension ".env")
     = false.
Proof.
  repeat split; try reflexivity. discriminate.
Qed.

Lemma append_assoc (a b c : string) : (a ++ b) ++ c = a ++ b ++ c.
Proof.
  induction a as [| x a IH]; simpl; [reflexivity | now rewrite IH].
Qed.

(** C3 (amended). The key under which a file is put is
    base_<timestamp>_<suffix><extension>, preceded by the prefix and "/"
    when the prefix is not empty, where the extension is [path.extname] of
    the original name, the base is its [path.basename] without that
    extension, the timestamp is the reading of the clock in milliseconds
    and the suffix is the first group of a fresh UUID, eight hexadecimal
    digits. The key ends with that extension. For a name without "/" that
    does not start with ".", base and extension are the name split at its
    last ".", so the key is the one the naming rule describes. *)
Theorem C3_object_key (env : Env) (file : File) (customPath : string)
  (w : World) :
  clock_ok env ->
  let f := originalname file in
  let key := object_key env f customPath w in
  let suffix := Js.split_first "-" (uuidv4 env (uuids_drawn w)) in
  (exists meta w',
      MinioService.uploadFile_issue env file customPath w
      = (Ok (key,
             be_putObject (backend env) (calls w) (bucketName (config env))
                          key (buffer file) (size file) meta), w')
      /\ calls w' = (calls w ++ [PutObject (bucketName (config env)) key
                                           (buffer file) (size file) meta])%list)
  /\ Js.endsWith key (Path.extname f) = true
  /\ (NameRule.is_uuid (uuidv4 env (uuids_drawn w)) = true ->
      NameRule.hex8 suffix = true)
  /\ (plain_name f = true ->
      Path.basename f (Path.extname f) = NameRule.base f
      /\ Path.extname f = NameRule.extension f
      /\ NameRule.base f ++ NameRule.extension f = f
      /\ key = NameRule.key f customPath (clock env (clock_reads w)) suffix).
Proof.
  intros Hc f key suffix.
  split; [| split; [| split]].
  - set (w1 := mkWorld (S (clock_reads w)) (S (uuids_drawn w)) (calls w)
                       (responses w)).
    destruct (now_iso_runs env w1 Hc) as (ts & _ & Hrun & _).
    eexists. eexists.
    unfold MinioService.uploadFile_issue, MinioService.generateUniqueFilename,
      bind, Date_now, draw_uuid, ret, history, record_call.
    cbn [clock_reads uuids_drawn calls responses].
    fold w1. rewrite Hrun. unfold ticked. cbn [calls fst snd].
    split; reflexivity.
  - unfold key, object_key. destruct (customPath =? "")%string;
      repeat apply endsWith_append; apply endsWith_refl.
  - apply uuid_first_group.
  - intros Hp.
    assert (Hl : plain_name
                   (string_of_list_ascii (list_ascii_of_string f)) = true)
      by (rewrite string_of_list_ascii_of_string; exact Hp).
    destruct (path_split_plain _ Hl) as [E1 E2].
    assert (Eext : Path.extname f = NameRule.extension f)
      by (unfold Path.extname, NameRule.extension; now rewrite E1).
    assert (Ebase : Path.basename f (Path.extname f) = NameRule.base f).
    { unfold Path.basename, NameRule.base, Path.extname.
      rewrite list_ascii_of_string_of_list_ascii, E2. reflexivity. }
    split; [exact Ebase |]. split; [exact Eext |]. split.
    + unfold NameRule.base, NameRule.extension.
      pose proof (split_last_dot_spec (list_ascii_of_string f)) as S.
      destruct (NameRule.split_last_dot (list_ascii_of_string f)) as [b e].
      destruct S as [S _]. cbn [fst snd].
      rewrite <- string_of_app, <- S. apply string_of_list_ascii_of_string.
    + unfold key, object_key, NameRule.key. rewrite Ebase, Eext.
      destruct (customPath =? "")%string; [reflexivity |].
      now rewrite append_assoc.
Qed.

Lemma C3_object_key_witness :
  object_key Demo.env "my.test.file.txt" "videos/2024" initial_world
  = NameRule.key "my.test.file.txt" "videos/2024" 1700000000000 "9b2e4f10".
Proof.
  destruct (C3_object_key Demo.env
              (mkFile "file" "my.test.file.txt" "text/plain" "x" 1)
              "videos/2024" initial_world demo_clock_ok)
    as (_ & _ & _ & H).
  apply H. reflexivity.
Defined.

(** ** Listing *)

(** The listener keeps the first [maxKeys] items it is given. *)
Lemma on_data_fold (maxKeys : Z) :
  forall (items : list BucketItem) (acc : list MinioService.ListEntry),
    fold_left (MinioService.on_data maxKeys) items acc
    = (acc ++ map entry_of
               (firstn (Z.to_nat (maxKeys - Z.of_nat (List.length acc)))
                       items))%list.
Proof.
  induction items as [| o items IH]; intros acc; cbn [fold_left].
  - rewrite firstn_nil. simpl. now rewrite app_nil_r.
  - rewrite IH. unfold MinioService.on_data.
    destruct (Z.ltb_spec (Z.of_nat (List.length acc)) maxKeys) as [H | H].
    + rewrite length_app. cbn [List.length].
      replace (Z.to_nat (maxKeys - Z.of_nat (List.length acc)))
        with (S (Z.to_nat (maxKeys - Z.of_nat (List.length acc + 1))))
        by lia.
      cbn [firstn map]. rewrite <- app_assoc. reflexivity.
    + replace (Z.to_nat (maxKeys - Z.of_nat (List.length acc))) with O by lia.
      reflexivity.
Qed.

(** C7. When the backend's stream ends normally, listing with limit [n]
    (1000 when none is given) returns the first [n] items of the stream
    and no more, each with the name, size, modification time and entity
    tag of its item, and a count equal to the number of entries returned;
    the HTTP route does the same with the limit of the query, 1000 when
    the query has none. *)
Theorem C7_list_bounded (env : Env) (pfx : option string)
  (maxKeys : option Z) (req : Request) (w : World) (stream : Stream) :
  let n := match maxKeys with Some n => n | None => 1000 end in
  let p := match pfx with Some x => x | None => "" end in
  let files := map entry_of (firstn (Z.to_nat n) (stream_data stream)) in
  let listed (q : string) :=
    mkWorld (clock_reads w) (uuids_drawn w)
            (calls w ++ [ListObjects (bucketName (config env)) q true])
            (responses w) in
  stream_end stream = StreamEnded ->
  (be_listObjects (backend env) (calls w) (bucketName (config env)) p true
   = inr stream ->
   MinioService.listFiles env pfx maxKeys w
   = (Ok (MinioService.mkListResult true files
                                    (Z.of_nat (List.length files))),
      listed p)
   /\ (0 <= n -> Z.of_nat (List.length files) <= n))
  /\ (pfx = Some (Js.or_str (query_prefix req) "") ->
      maxKeys = Some (Js.or_num (Js.parseInt (query_limit req)) 1000) ->
      be_listObjects (backend env) (calls w) (bucketName (config env)) p true
      = inr stream ->
      FileController.listFiles env req w
      = (Done,
         answered (listed p)
           (mkResponse 200
              (list_ok_body
                 (MinioService.mkListResult true files
                    (Z.of_nat (List.length files)))))))
  /\ (query_limit req = None ->
      Js.or_num (Js.parseInt (query_limit req)) 1000 = 1000).
Proof.
  intros n p files listed Hend.
  assert (Run : be_listObjects (backend env) (calls w)
                  (bucketName (config env)) p true = inr stream ->
                MinioService.listFiles env pfx maxKeys w
                = (Ok (MinioService.mkListResult true files
                         (Z.of_nat (List.length files))), listed p)).
  { intros Hb.
    unfold MinioService.listFiles, MinioService.rethrow, try_catch, bind,
      history, record_call, ret.
    cbn [calls]. fold p. fold n. rewrite Hb. cbn [calls]. rewrite Hend.
    rewrite on_data_fold. cbn [List.length app].
    replace (n - Z.of_nat 0) with n by lia. reflexivity. }
  split; [| split].
  - intros Hb. split; [exact (Run Hb) |].
    intros Hn. unfold files. rewrite length_map, length_firstn. lia.
  - intros Hp Hm Hb.
    unfold FileController.listFiles, FileController.guarded, bind.
    rewrite <- Hp, <- Hm, (Run Hb). reflexivity.
  - intros ->. reflexivity.
Qed.

Lemma C7_list_bounded_witness :
  MinioService.listFiles Demo.env None (Some 2) initial_world
  = (Ok (MinioService.mkListResult true
           [MinioService.mkListEntry "a.txt" 1 0 "e1";
            MinioService.mkListEntry "b.txt" 2 0 "e2"] 2),
     mkWorld 0 0 [ListObjects "uploads" "" true] []).
Proof.
  destruct (C7_list_bounded Demo.env None (Some 2) Demo.req initial_world
              (mkStream [mkItem "a.txt" 1 0 "e1"; mkItem "b.txt" 2 0 "e2";
                         mkItem "c.txt" 3 0 "e3"] StreamEnded)
              eq_refl) as (H & _).
  exact (proj1 (H eq_refl)).
Defined.

(** ** Access URLs *)

(** C8. Asked for the URL of a named object, the service presigns with
    the expiry of the query when it has one and with the configured
    default otherwise: without an [expiry] parameter the default (3600
    when the environment does not set it), with [expiry=7200] exactly
    7200. When the backend signs, the answer carries that expiry and an
    [expiresAt] that is the instant read from the clock plus the expiry in
    seconds. *)
Theorem C8_url_expiry (env : Env) (req : Request) (name url : string)
  (w : World) :
  let expiry :=
    MinioService.expiry_or_default env (FileController.expiry_of req) in
  let t := clock env (clock_reads w) in
  param_filename req = Some name ->
  name <> "" ->
  be_presignedGetObject (backend env) (calls w) (bucketName (config env))
                        name expiry = inr url ->
  Z.abs (t + expiry * 1000) <= 8640000000000000 ->
  (exists expiresAt,
      Js.toISOString (t + expiry * 1000) = Some expiresAt
      /\ FileController.getFileUrl env req w
         = (Done,
            mkWorld (S (clock_reads w)) (uuids_drawn w)
              (calls w ++ [PresignedGetObject (bucketName (config env))
                                              name expiry])
              (responses w
               ++ [mkResponse 200
                     (url_ok_body
                        (MinioService.mkUrlResult true url expiry
                                                  expiresAt))])))
  /\ (query_expiry req = None -> expiry = presignedUrl_expiry (config env))
  /\ (query_expiry req = Some "7200" -> expiry = 7200)
  /\ (forall penv : string -> option string,
         penv "PRESIGNED_URL_EXPIRY" = None ->
         presignedUrl_expiry (load_config penv) = 3600).
Proof.
  intros expiry t Hname Hne Hsign Hrange.
  split; [| split; [| split]].
  - destruct (toISOString_defined _ Hrange) as [expiresAt E].
    exists expiresAt. split; [exact E |].
    unfold FileController.getFileUrl, FileController.guarded.
    rewrite Hname. apply String.eqb_neq in Hne.
    unfold Js.truthy_str, Js.or_str. rewrite Hne. cbn [negb].
    unfold bind at 1.
    unfold MinioService.getPresignedUrl, MinioService.getPresignedUrl_started,
      MinioService.getPresignedUrl_finish, MinioService.started,
      MinioService.getPresignedUrl_issue, MinioService.rethrow, try_catch,
      MinioService.resume, MinioService.getPresignedUrl_settle,
      bind, history, record_call, ret, Date_now, iso.
    cbn [calls clock_reads uuids_drawn responses]. fold expiry.
    rewrite Hsign. cbn [calls clock_reads uuids_drawn responses].
    fold t. rewrite E. reflexivity.
  - intros Hq. unfold expiry, FileController.expiry_of. rewrite Hq.
    reflexivity.
  - intros Hq. unfold expiry, FileController.expiry_of. rewrite Hq.
    reflexivity.
  - intros penv Hp. unfold load_config. cbn [presignedUrl_expiry].
    rewrite Hp. reflexivity.
Qed.

Lemma C8_url_expiry_witness :
  FileController.getFileUrl Demo.env
    (mkRequest "GET" "/api/files/url/test.mp4" None None None None
               (Some "7200") None None (Some "test.mp4"))
    initial_world
  = (Done,
     mkWorld 1 0 [PresignedGetObject "uploads" "test.mp4" 7200]
       [mkResponse 200
          (url_ok_body
             (MinioService.mkUrlResult true
                "http://localhost:9000/uploads/test.mp4" 7200
                "2023-11-15T00:13:20.000Z"))]).
Proof.
  destruct (C8_url_expiry Demo.env
              (mkRequest "GET" "/api/files/url/test.mp4" None None None None
                         (Some "7200") None None (Some "test.mp4"))
              "test.mp4" "http://localhost:9000/uploads/test.mp4"
              initial_world eq_refl ltac:(discriminate) eq_refl
              ltac:(vm_compute; discriminate))
    as ((expiresAt & E & H) & _).
  vm_compute in E. injection E as <-. exact H.
Defined.

(** ** Every request is answered once *)

Section Combinators.

Context {A B : Type}.

Lemma quiet_ret (a : A) : quiet (ret a).
Proof. intros w; reflexivity. Qed.

Lemma quiet_throw (e : JsError) : quiet (@throw A e).
Proof. intros w; reflexivity. Qed.

Lemma quiet_bind (m : M A) (k : A -> M B) :
  quiet m -> (forall a, quiet (k a)) -> quiet (bind m k).
Proof.
  intros Hm Hk w. unfold bind. specialize (Hm w).
  destruct (m w) as [[a | e] w1]; simpl in *.
  - rewrite Hk. exact Hm.
  - exact Hm.
Qed.

Lemma quiet_try_catch (m : M A) (h : JsError -> M A) :
  quiet m -> (forall e, quiet (h e)) -> quiet (try_catch m h).
Proof.
  intros Hm Hh w. unfold try_catch. specialize (Hm w).
  destruct (m w) as [[a | e] w1]; simpl in *.
  - exact Hm.
  - rewrite Hh. exact Hm.
Qed.

Lemma quiet_rethrow (what : string) (m : M A) :
  quiet m -> quiet (MinioService.rethrow what m).
Proof.
  intros Hm. apply quiet_try_catch; [exact Hm |].
  intros e. apply quiet_throw.
Qed.

Lemma quiet_started (m : M A) : quiet m -> quiet (MinioService.started m).
Proof.
  intros Hm w. unfold MinioService.started. specialize (Hm w).
  destruct (m w) as [r w1]. exact Hm.
Qed.

Lemma quiet_resume (r : Result A) : quiet (MinioService.resume r).
Proof. destruct r; [apply quiet_ret | apply quiet_throw]. Qed.

Lemma plain_ret (a : A) : plain (ret a).
Proof. intros w e H; discriminate H. Qed.

Lemma plain_bind (m : M A) (k : A -> M B) :
  plain m -> (forall a, plain (k a)) -> plain (bind m k).
Proof.
  intros Hm Hk w e. unfold bind. specialize (Hm w).
  destruct (m w) as [[a | e1] w1]; simpl in *.
  - apply Hk.
  - intros H. apply Hm. injection H as <-. reflexivity.
Qed.

Lemma plain_rethrow (what : string) (m : M A) :
  plain (MinioService.rethrow what m).
Proof.
  intros w e. unfold MinioService.rethrow, try_catch.
  destruct (m w) as [[a | e1] w1]; simpl.
  - discriminate.
  - intros H. injection H as <-. eexists; reflexivity.
Qed.

Lemma plain_started (m : M A) : plain (MinioService.started m).
Proof.
  intros w e. unfold MinioService.started.
  destruct (m w) as [r w1]. discriminate.
Qed.

End Combinators.

Lemma quiet_Date_now (env : Env) : quiet (Date_now env).
Proof. intros w; reflexivity. Qed.

Lemma quiet_iso (ms : Z) : quiet (iso ms).
Proof.
  unfold iso. destruct (Js.toISOString ms);
    [apply quiet_ret | apply quiet_throw].
Qed.

Lemma quiet_now_iso (env : Env) : quiet (now_iso env).
Proof.
  apply quiet_bind; [apply quiet_Date_now | intros; apply quiet_iso].
Qed.

Lemma quiet_draw_uuid (env : Env) : quiet (draw_uuid env).
Proof. intros w; reflexivity. Qed.

Lemma quiet_record_call (c : Call) : quiet (record_call c).
Proof. intros w; reflexivity. Qed.

Lemma quiet_history : quiet history.
Proof. intros w; reflexivity. Qed.

Create HintDb quiet.

#[local] Hint Resolve quiet_ret quiet_throw quiet_Date_now quiet_iso
  quiet_now_iso quiet_draw_uuid quiet_record_call quiet_history
  quiet_resume : quiet.

Ltac quiet_steps :=
  repeat first
    [ apply quiet_rethrow
    | apply quiet_started
    | apply quiet_bind; [| intros ]
    | solve [auto with quiet] ].

Section ServiceQuiet.

Variable env : Env.

Lemma quiet_uploadFile_started (file : File) (customPath : string) :
  quiet (MinioService.uploadFile_started env file customPath).
Proof.
  unfold MinioService.uploadFile_started, MinioService.uploadFile_issue,
    MinioService.generateUniqueFilename.
  quiet_steps.
Qed.

Lemma quiet_uploadFile_finish (file : File)
  (r : Result (string * option JsError)) :
  quiet (MinioService.uploadFile_finish env file r).
Proof.
  unfold MinioService.uploadFile_finish, MinioService.uploadFile_settle.
  quiet_steps. destruct (snd a); quiet_steps.
Qed.

Lemma quiet_uploadFile (file : File) (customPath : string) :
  quiet (MinioService.uploadFile env file customPath).
Proof.
  unfold MinioService.uploadFile.
  apply quiet_bind; [apply quiet_uploadFile_started |].
  intros; apply quiet_uploadFile_finish.
Qed.

Lemma quiet_getPresignedUrl_started (name : string) (expiry : option Z) :
  quiet (MinioService.getPresignedUrl_started env name expiry).
Proof.
  unfold MinioService.getPresignedUrl_started,
    MinioService.getPresignedUrl_issue.
  quiet_steps.
Qed.

Lemma quiet_getPresignedUrl_finish (expiry : option Z)
  (r : Result (JsError + string)) :
  quiet (MinioService.getPresignedUrl_finish env expiry r).
Proof.
  unfold MinioService.getPresignedUrl_finish,
    MinioService.getPresignedUrl_settle.
  quiet_steps. destruct a; quiet_steps.
Qed.

Lemma quiet_getPresignedUrl (name : string) (expiry : option Z) :
  quiet (MinioService.getPresignedUrl env name expiry).
Proof.
  unfold MinioService.getPresignedUrl.
  apply quiet_bind; [apply quiet_getPresignedUrl_started |].
  intros; apply quiet_getPresignedUrl_finish.
Qed.

Lemma quiet_deleteFile (name : string) :
  quiet (MinioService.deleteFile env name).
Proof.
  unfold MinioService.deleteFile. quiet_steps.
  destruct (be_removeObject _ _ _ _); quiet_steps.
Qed.

Lemma quiet_listFiles (pfx : option string) (maxKeys : option Z) :
  quiet (MinioService.listFiles env pfx maxKeys).
Proof.
  unfold MinioService.listFiles. quiet_steps.
  - destruct (be_listObjects _ _ _ _ _); quiet_steps.
  - destruct (stream_end a); quiet_steps.
Qed.

Lemma quiet_getFileInfo (name : string) :
  quiet (MinioService.getFileInfo env name).
Proof.
  unfold MinioService.getFileInfo. quiet_steps.
  destruct (be_statObject _ _ _ _); quiet_steps.
Qed.

Lemma plain_uploadFile (file : File) (customPath : string) :
  plain (MinioService.uploadFile env file customPath).
Proof.
  unfold MinioService.uploadFile. apply plain_bind.
  - apply plain_started.
  - intros r. apply plain_rethrow.
Qed.

Lemma plain_getPresignedUrl (name : string) (expiry : option Z) :
  plain (MinioService.getPresignedUrl env name expiry).
Proof.
  unfold MinioService.getPresignedUrl. apply plain_bind.
  - apply plain_started.
  - intros r. apply plain_rethrow.
Qed.

Lemma plain_listFiles (pfx : option string) (maxKeys : option Z) :
  plain (MinioService.listFiles env pfx maxKeys).
Proof.
  unfold MinioService.listFiles. apply plain_bind.
  - apply plain_rethrow.
  - intros s w e. destruct (stream_end s); simpl.
    + discriminate.
    + intros H. injection H as <-. eexists; reflexivity.
Qed.

End ServiceQuiet.

Lemma answers_send (code : Z) (b : Json) :
  response_ok (mkResponse code b) -> answers (send code b).
Proof.
  intros H w. simpl. eexists; split; [reflexivity | exact H].
Qed.

Lemma answers_bind {A} (m : M A) (k : A -> M unit) :
  quiet m -> plain m -> (forall a, answers (k a)) -> answers (bind m k).
Proof.
  intros Hq Hp Hk w. unfold bind.
  specialize (Hq w). specialize (Hp w).
  destruct (m w) as [[a | e] w1]; simpl in *.
  - specialize (Hk a w1). rewrite Hq in Hk. exact Hk.
  - split; [exact Hq | apply Hp; reflexivity].
Qed.

Lemma ok_success (code : Z) (fields : list (string * Json)) :
  code = 200 \/ code = 201 ->
  response_ok (mkResponse code (JObj (("success", JBool true) :: fields))).
Proof.
  intros H. left. split; [exact H | reflexivity].
Qed.

Section Lists.

Context {A P B : Type}.

Lemma quiet_start_all (f : A -> M P) (xs : list A) :
  (forall x, quiet (f x)) -> quiet (FileController.start_all f xs).
Proof.
  intros Hf. induction xs as [| x xs IH]; simpl; quiet_steps;
    solve [apply Hf | exact IH].
Qed.

Lemma plain_start_all (f : A -> M P) (xs : list A) :
  (forall x, plain (f x)) -> plain (FileController.start_all f xs).
Proof.
  intros Hf. induction xs as [| x xs IH]; simpl.
  - apply plain_ret.
  - apply plain_bind; [apply Hf |]. intros p.
    apply plain_bind; [exact IH |]. intros ps. apply plain_ret.
Qed.

Lemma quiet_settle_all (k : P -> M B) (ps : list P) :
  (forall p, quiet (k p)) -> quiet (FileController.settle_all k ps).
Proof.
  intros Hk. induction ps as [| p ps IH]; simpl; quiet_steps;
    solve [apply Hk | exact IH].
Qed.

Lemma plain_settle_all (k : P -> M B) (ps : list P) :
  plain (FileController.settle_all k ps).
Proof.
  induction ps as [| p ps IH]; simpl.
  - apply plain_ret.
  - apply plain_bind; [apply plain_started |]. intros r.
    apply plain_bind; [exact IH |]. intros rs. apply plain_ret.
Qed.

Lemma settle_all_results (k : P -> M B) (ps : list P) :
  (forall p, plain (k p)) ->
  forall w rs w',
    FileController.settle_all k ps w = (Ok rs, w') -> plain_results rs.
Proof.
  intros Hk. induction ps as [| p ps IH]; intros w rs w'; simpl.
  - intros H. injection H as <- _. constructor.
  - unfold bind, MinioService.started.
    pose proof (Hk p w) as Hp.
    destruct (k p w) as [r w1]. simpl in Hp.
    destruct (FileController.settle_all k ps w1) as [[rs1 | e] w2] eqn:E;
      [| discriminate].
    intros H. injection H as <- _. constructor.
    + destruct r as [b | e]; [exact I | apply Hp; reflexivity].
    + eapply IH; eauto.
Qed.

Lemma quiet_all_settled (rs : list (Result B)) :
  quiet (FileController.all_settled rs).
Proof.
  induction rs as [| [b | e] rs IH]; simpl; quiet_steps.
Qed.

Lemma plain_all_settled (rs : list (Result B)) :
  plain_results rs -> plain (FileController.all_settled rs).
Proof.
  induction rs as [| [b | e] rs IH]; intros Hr; simpl.
  - apply plain_ret.
  - apply plain_bind; [| intros; apply plain_ret].
    apply IH. inversion Hr; assumption.
  - inversion Hr as [| ? ? Hx _]; subst. destruct Hx as [msg ->].
    intros w e' H. injection H as <-. eexists; reflexivity.
Qed.

End Lists.

Lemma answers_bind_post {A} (m : M A) (k : A -> M unit) :
  quiet m -> plain m ->
  (forall w a w', m w = (Ok a, w') -> answers (k a)) ->
  answers (bind m k).
Proof.
  intros Hq Hp Hk w. unfold bind.
  specialize (Hq w). specialize (Hp w).
  destruct (m w) as [[a | e] w1] eqn:E; simpl in *.
  - specialize (Hk w a w1 E w1). rewrite Hq in Hk. exact Hk.
  - split; [exact Hq | apply Hp; reflexivity].
Qed.

Lemma classify_new_Error (msg : string) :
  exists st m code,
    ErrorHandler.classify (new_Error msg) = (st, m, code)
    /\ 400 <= st /\ ErrorBody.is_code code = true.
Proof.
  unfold ErrorHandler.classify. cbn [err_name err_message err_code
                                      err_statusCode new_Error].
  change ("Error" =? "ValidationError")%string with false.
  change ("Error" =? "UnauthorizedError")%string with false.
  cbv iota.
  destruct (Js.includes msg "ECONNREFUSED");
    [do 3 eexists; split; [reflexivity | split; [lia | reflexivity]] |].
  destruct (Js.includes msg "NoSuchBucket");
    [do 3 eexists; split; [reflexivity | split; [lia | reflexivity]] |].
  destruct (Js.includes msg "AccessDenied");
    do 3 eexists; (split; [reflexivity | split; [simpl; lia | reflexivity]]).
Qed.

Lemma replies_basic (env : Env) (req : Request) (err : JsError) (w : World)
  (st : Z) (msg code : string) :
  replies env req err w st msg code ->
  exists b,
    ErrorHandler.errorHandler env req err w
    = (Ok tt, answered (ticked w) (mkResponse st b))
    /\ ErrorBody.basic b = true
    /\ ErrorBody.str_field "code" b = Some code
    /\ ErrorBody.timestamped b = true.
Proof.
  intros (ts & b & Ets & Hrun & Hs & He & Hcode & Hts).
  exists b. split; [exact Hrun |].
  unfold ErrorBody.basic, ErrorBody.timestamped.
  rewrite Hs, He, Hcode, Hts.
  repeat split. eapply toISOString_shape; eauto.
Qed.

Section Handlers.

Variable env : Env.
Hypothesis clock_valid : clock_ok env.

Lemma errorHandler_new_Error (req : Request) (msg : string) (w : World) :
  exists r,
    ErrorHandler.errorHandler env req (new_Error msg) w
    = (Ok tt, answered (ticked w) r)
    /\ response_ok r.
Proof.
  destruct (classify_new_Error msg) as (st & m & code & Hk & Hst & Hcode).
  destruct (replies_basic env req (new_Error msg) w st m code)
    as (b & Hrun & Hb & Hc & _).
  { apply errorHandler_replies; assumption. }
  exists (mkResponse st b). split; [exact Hrun |].
  right. cbn [status body]. split; [exact Hst |]. split; [exact Hb |].
  unfold ErrorBody.code_listed. rewrite Hc. exact Hcode.
Qed.

(** A guarded handler whose body answers: with the final error handler
    behind it, exactly one well-formed answer is written. *)
Lemma guarded_served (req : Request) (body : M unit) (w : World) :
  answers body ->
  exists r w',
    App.to_errorHandler env req (FileController.guarded body w) = (Done, w')
    /\ responses w' = (responses w ++ [r])%list
    /\ response_ok r.
Proof.
  intros Hb. specialize (Hb w). unfold FileController.guarded.
  destruct (body w) as [[[] | e] w1].
  - destruct Hb as (r & Hr & Hok). exists r, w1. simpl. auto.
  - destruct Hb as (Hr & msg & ->).
    destruct (errorHandler_new_Error req msg w1) as (r & Hrun & Hok).
    exists r. eexists. unfold App.to_errorHandler. rewrite Hrun.
    split; [reflexivity |]. split; [| exact Hok].
    simpl. rewrite Hr. reflexivity.
Qed.

Lemma answers_missing_filename : answers FileController.missing_filename.
Proof.
  apply answers_send. right. repeat split. simpl; lia.
Qed.

Lemma answers_uploadSingle_body (file : File) (customPath : string) :
  answers
    (result <- MinioService.uploadFile env file customPath ;;
     urlResult <- MinioService.getPresignedUrl env
                    (MinioService.up_objectName result) None ;;
     send 201 (JObj [("success", JBool true);
                     ("message", JStr "File uploaded successfully");
                     ("data", FileController.with_url result urlResult)])).
Proof.
  apply answers_bind;
    [apply quiet_uploadFile | apply plain_uploadFile | intros result].
  apply answers_bind;
    [apply quiet_getPresignedUrl | apply plain_getPresignedUrl
    | intros urlResult].
  apply answers_send, ok_success. auto.
Qed.

Lemma served_uploadSingle (req0 req : Request) (w : World) :
  exists r w',
    App.to_errorHandler env req0 (FileController.uploadSingle env req w)
    = (Done, w')
    /\ responses w' = (responses w ++ [r])%list
    /\ response_ok r.
Proof.
  unfold FileController.uploadSingle. apply guarded_served.
  destruct (req_file req) as [file |].
  - apply answers_uploadSingle_body.
  - apply answers_send. right. repeat split. simpl; lia.
Qed.

Lemma served_uploadMultiple (req0 req : Request) (w : World) :
  exists r w',
    App.to_errorHandler env req0 (FileController.uploadMultiple env req w)
    = (Done, w')
    /\ responses w' = (responses w ++ [r])%list
    /\ response_ok r.
Proof.
  unfold FileController.uploadMultiple. apply guarded_served.
  destruct (FileController.no_files req).
  { apply answers_send. right. repeat split. simpl; lia. }
  apply answers_bind.
  { apply quiet_start_all. intros file.
    apply quiet_bind; [apply quiet_uploadFile_started | intros; quiet_steps]. }
  { apply plain_start_all. intros file.
    apply plain_bind; [apply plain_started | intros; apply plain_ret]. }
  intros uploadPromises.
  apply answers_bind_post.
  { apply quiet_settle_all. intros p. apply quiet_uploadFile_finish. }
  { apply plain_settle_all. }
  intros w1 settled w2 Hs.
  apply answers_bind.
  { apply quiet_all_settled. }
  { apply plain_all_settled. eapply settle_all_results; [| exact Hs].
    intros p. apply plain_rethrow. }
  intros results.
  apply answers_bind.
  { apply quiet_start_all. intros result.
    apply quiet_getPresignedUrl_started. }
  { apply plain_start_all. intros result. apply plain_started. }
  intros urlPromises.
  apply answers_bind_post.
  { apply quiet_settle_all. intros p. apply quiet_getPresignedUrl_finish. }
  { apply plain_settle_all. }
  intros w3 urlSettled w4 Hu.
  apply answers_bind.
  { apply quiet_all_settled. }
  { apply plain_all_settled. eapply settle_all_results; [| exact Hu].
    intros p. apply plain_rethrow. }
  intros urlResults.
  apply answers_send, ok_success. auto.
Qed.

Lemma served_getFileUrl (req : Request) (w : World) :
  exists r w',
    App.to_errorHandler env req (FileController.getFileUrl env req w)
    = (Done, w')
    /\ responses w' = (responses w ++ [r])%list
    /\ response_ok r.
Proof.
  unfold FileController.getFileUrl. apply guarded_served.
  destruct (Js.truthy_str (param_filename req));
    [| apply answers_missing_filename].
  apply answers_bind;
    [apply quiet_getPresignedUrl | apply plain_getPresignedUrl | intros u].
  apply answers_send, ok_success. auto.
Qed.

Lemma served_deleteFile (req : Request) (w : World) :
  exists r w',
    App.to_errorHandler env req (FileController.deleteFile env req w)
    = (Done, w')
    /\ responses w' = (responses w ++ [r])%list
    /\ response_ok r.
Proof.
  unfold FileController.deleteFile. apply guarded_served.
  destruct (Js.truthy_str (param_filename req));
    [| apply answers_missing_filename].
  apply answers_bind;
    [apply quiet_deleteFile | apply plain_rethrow | intros u].
  apply answers_send, ok_success. auto.
Qed.

Lemma served_listFiles (req : Request) (w : World) :
  exists r w',
    App.to_errorHandler env req (FileController.listFiles env req w)
    = (Done, w')
    /\ responses w' = (responses w ++ [r])%list
    /\ response_ok r.
Proof.
  unfold FileController.listFiles. apply guarded_served.
  apply answers_bind;
    [apply quiet_listFiles | apply plain_listFiles | intros u].
  apply answers_send, ok_success. auto.
Qed.

Lemma served_getFileInfo (req : Request) (w : World) :
  exists r w',
    App.to_errorHandler env req (FileController.getFileInfo env req w)
    = (Done, w')
    /\ responses w' = (responses w ++ [r])%list
    /\ response_ok r.
Proof.
  unfold FileController.getFileInfo. apply guarded_served.
  destruct (Js.truthy_str (param_filename req));
    [| apply answers_missing_filename].
  apply answers_bind;
    [apply quiet_getFileInfo | apply plain_rethrow | intros u].
  apply answers_send, ok_success. auto.
Qed.

Lemma served_healthCheck (req : Request) (w : World) :
  exists r w',
    App.to_errorHandler env req (FileController.healthCheck env req w)
    = (Done, w')
    /\ responses w' = (responses w ++ [r])%list
    /\ response_ok r.
Proof.
  unfold FileController.healthCheck, FileController.unguarded, try_catch,
    bind, history, record_call.
  cbn [calls clock_reads uuids_drawn responses].
  set (w1 := mkWorld (clock_reads w) (uuids_drawn w)
               (calls w ++ [BucketExists (bucketName (config env))])
               (responses w)).
  destruct (now_iso_runs env w1 clock_valid) as (ts & _ & Hrun & _).
  destruct (be_bucketExists (backend env) (calls w)
                            (bucketName (config env))) as [e | b].
  - unfold throw at 1. cbv iota beta.
    fold (bind (now_iso env)
               (fun ts0 => send 503
                  (JObj [("success", JBool false);
                         ("error", JStr "Service unhealthy");
                         ("code", JStr "SERVICE_UNHEALTHY");
                         ("data",
                          JObj [("status", JStr "unhealthy");
                                ("timestamp", JStr ts0);
                                ("minio", JStr "disconnected")])]))).
    unfold bind. rewrite Hrun. simpl.
    do 2 eexists. split; [reflexivity |]. split; [reflexivity |].
    right. repeat split. simpl; lia.
  - rewrite Hrun. simpl.
    do 2 eexists. split; [reflexivity |]. split; [reflexivity |].
    left. split; [left; reflexivity | reflexivity].
Qed.

Lemma served_upload_error (req : Request) (e : JsError) (w : World) :
  decode_error e ->
  exists r w',
    App.to_errorHandler env req (Upload.handleMulterError (config env) e w)
    = (Done, w')
    /\ responses w' = (responses w ++ [r])%list
    /\ response_ok r.
Proof.
  intros He.
  destruct (handleMulterError_answers (config env) e w He)
    as (b & Hrun & Hb & Hc).
  rewrite Hrun. do 2 eexists. split; [reflexivity |].
  split; [reflexivity |]. right. cbn [status body].
  split; [lia | split; assumption].
Qed.

Lemma served_notFound (req : Request) (w : World) :
  exists ts,
    Js.toISOString (clock env (clock_reads w)) = Some ts
    /\ ErrorHandler.notFoundHandler env req w
       = (Ok tt, answered (ticked w) (mkResponse 404 (not_found_body req ts)))
    /\ ErrorBody.complete (not_found_body req ts) = true.
Proof.
  destruct (now_iso_runs env w clock_valid) as (ts & E & Hrun & Hshape).
  exists ts. split; [exact E |].
  unfold ErrorHandler.notFoundHandler, bind. rewrite Hrun.
  split; [reflexivity |].
  unfold ErrorBody.complete, ErrorBody.timestamped. simpl.
  exact Hshape.
Qed.

(** Whatever the route, one well-formed answer. *)
Lemma served_once (route : App.Route) (req : Request) (w : World) :
  exists r w',
    App.serve env route req w = (Done, w')
    /\ responses w' = (responses w ++ [r])%list
    /\ response_ok r.
Proof.
  unfold App.serve. destruct route as [| parts | parts | | | | |];
    cbn [App.route_handler].
  - apply served_healthCheck.
  - unfold App.post_upload, Upload.single.
    destruct (Upload.decode (config env) "file" 1 0 parts) as [e | fs] eqn:E.
    + apply served_upload_error.
      eapply decode_fails_with_decode_error; eauto.
    + apply served_uploadSingle.
  - unfold App.post_upload_multiple, Upload.array.
    destruct (Upload.decode (config env) "files" 10 0 parts) as [e | fs]
      eqn:E.
    + apply served_upload_error.
      eapply decode_fails_with_decode_error; eauto.
    + apply served_uploadMultiple.
  - apply served_getFileUrl.
  - apply served_getFileInfo.
  - apply served_listFiles.
  - apply served_deleteFile.
  - destruct (served_notFound req w) as (ts & _ & Hrun & Hc). rewrite Hrun.
    do 2 eexists. split; [reflexivity |]. split; [reflexivity |].
    right. cbn [status body]. split; [lia |].
    apply andb_true_iff in Hc as [Hc _]. apply andb_true_iff in Hc.
    exact Hc.
Qed.

End Handlers.

(** ** Error bodies *)

Lemma classify_code (err : JsError) :
  let '(_, _, code) := ErrorHandler.classify err in
  ErrorBody.is_code code = true \/ err_code err = Some code.
Proof.
  unfold ErrorHandler.classify.
  repeat match goal with
         | |- context [if ?c then (_, _, _) else _] => destruct c
         end; try (left; reflexivity).
  unfold Js.or_str. destruct (err_code err) as [c |]; [| left; reflexivity].
  destruct (c =? "")%string; [left; reflexivity | right; reflexivity].
Qed.

(** C2. The failure answers written by the upload error middleware and
    by the guards of the controllers have [success:false], an error text
    and a code of the list, but no [timestamp]: a request to the upload
    route without a file part is answered 400 NO_FILE, and one with a file
    of a type that is not allowed 400 INVALID_FILE_TYPE, each with a body
    that lacks the timestamp the claim requires, and so do the answers
    FILE_TOO_LARGE, TOO_MANY_FILES, UNEXPECTED_FIELD and UPLOAD_ERROR of
    the middleware. The final error handler and the not-found handler do
    stamp their bodies: the same rejection, answered by the final handler,
    has a timestamp, and so has the answer to a request no route
    matches. *)
Theorem C2_bodies_without_timestamp :
  App.serve Demo.env (App.PostUpload []) Demo.req initial_world
  = (Done, answered initial_world (mkResponse 400 no_file_body))
  /\ ErrorBody.basic no_file_body = true
  /\ ErrorBody.code_listed no_file_body = true
  /\ ErrorBody.timestamped no_file_body = false
  /\ App.serve Demo.env
       (App.PostUpload [mkFile "file" "a.txt" "text/plain" "" 0])
       Demo.req initial_world
     = (Done,
        answered initial_world
          (mkResponse 400
             (invalid_file_type_body
                ("File type text/plain is not allowed. Allowed types: "
                 ++ "video/*, image/*, application/pdf"))))
  /\ map (fun e =>
            map (fun r => (status r, ErrorBody.str_field "code" (body r),
                           ErrorBody.basic (body r),
                           ErrorBody.timestamped (body r)))
                (responses (snd (Upload.handleMulterError Demo.cfg e
                                   initial_world))))
         [new_Error "File type text/plain is not allowed";
          Upload.new_MulterError "LIMIT_FILE_SIZE";
          Upload.new_MulterError "LIMIT_FILE_COUNT";
          Upload.new_MulterError "LIMIT_UNEXPECTED_FILE";
          Upload.new_MulterError "LIMIT_PART_COUNT"]
     = [[(400, Some "INVALID_FILE_TYPE", true, false)];
        [(400, Some "FILE_TOO_LARGE", true, false)];
        [(400, Some "TOO_MANY_FILES", true, false)];
        [(400, Some "UNEXPECTED_FIELD", true, false)];
        [(400, Some "UPLOAD_ERROR", true, false)]]
  /\ map (fun r => (status r, ErrorBody.str_field "code" (body r),
                    ErrorBody.complete (body r)))
         (responses (snd (ErrorHandler.errorHandler Demo.env Demo.req
                            (new_Error "File type text/plain is not allowed")
                            initial_world)))
     = [(500, Some "INTERNAL_ERROR", true)]
  /\ map (fun r => (status r, ErrorBody.str_field "code" (body r),
                    ErrorBody.complete (body r)))
         (responses (snd (App.serve Demo.env App.Unmatched Demo.req
                            initial_world)))
     = [(404, Some "NOT_FOUND", true)].
Proof.
  repeat split; vm_compute; reflexivity.
Qed.

(** * Further properties of the code *)

(** ** The type filter and its error *)

(** X1. Whatever the filter rejects is answered by the error middleware
    with 400 and INVALID_FILE_TYPE: the error it builds names the type and
    the allowed list, and that text is the message of the answer. What the
    filter does not reject, it accepts. *)
Theorem X1_rejection_is_answered (cfg : Config) (ucfg : UploadConfig)
  (f : File) (w : World) :
  (Upload.isAllowed (allowedFileTypes ucfg) (mimetype f) = true ->
   Upload.fileFilter ucfg f = Upload.Accept)
  /\ (Upload.isAllowed (allowedFileTypes ucfg) (mimetype f) = false ->
      exists e,
        Upload.fileFilter ucfg f = Upload.Reject e
        /\ err_message e
           = "File type " ++ mimetype f ++ " is not allowed. Allowed types: "
             ++ Js.join ", " (allowedFileTypes ucfg)
        /\ Upload.handleMulterError cfg e w
           = (Done,
              answered w (mkResponse 400
                            (invalid_file_type_body (err_message e))))).
Proof.
  unfold Upload.fileFilter. split; intros H; rewrite H; [reflexivity |].
  eexists. split; [reflexivity |]. split; reflexivity.
Qed.

Lemma X1_rejection_is_answered_witness :
  exists e,
    Upload.fileFilter (upload Demo.cfg)
      (mkFile "file" "a.txt" "text/plain" "" 0) = Upload.Reject e
    /\ err_message e
       = "File type text/plain is not allowed. Allowed types: "
         ++ "video/*, image/*, application/pdf".
Proof.
  destruct (X1_rejection_is_answered Demo.cfg (upload Demo.cfg)
              (mkFile "file" "a.txt" "text/plain" "" 0) initial_world)
    as [_ H].
  destruct (H eq_refl) as (e & H1 & H2 & _).
  exists e. split; [exact H1 | exact H2].
Defined.

Lemma length_append (a b : string) :
  String.length (a ++ b) = (String.length a + String.length b)%nat.
Proof.
  induction a as [| c a IH]; simpl; [reflexivity | now rewrite IH].
Qed.

Lemma substring_head (a b : string) :
  substring 0 (String.length a) (a ++ b) = a.
Proof.
  induction a as [| c a IH]; simpl.
  - destruct b; reflexivity.
  - now rewrite IH.
Qed.

Lemma slice_wildcard (b : string) : Js.slice (b ++ "/*") 0 (-2) = b.
Proof.
  unfold Js.slice, Js.len, Js.clamp. rewrite length_append. simpl.
  replace (Z.to_nat (Z.min 0 (Z.of_nat (String.length b + 2)))) with O by lia.
  replace (Z.to_nat
             (Z.max (Z.of_nat (String.length b + 2) + -2) 0
              - Z.min 0 (Z.of_nat (String.length b + 2))))
    with (String.length b) by lia.
  apply substring_head.
Qed.

Lemma prefix_refl_append (a b : string) : String.prefix a (a ++ b) = true.
Proof.
  induction a as [| c a IH]; simpl.
  - destruct b; reflexivity.
  - destruct (ascii_dec c c); [exact IH | congruence].
Qed.

Lemma prefix_empty (t : string) : String.prefix "" t = true.
Proof. destruct t; reflexivity. Qed.

(** X2. What an entry of the allow-list accepts: an entry [b/*] accepts
    exactly the types that begin with [b], the separator not included; any
    other entry accepts itself only. So the entry "/*" accepts every type,
    and the entry "*/*" accepts no type that does not begin with "*". *)
Theorem X2_entry_semantics :
  (forall b t : string,
      Upload.type_matches t (b ++ "/*") = Js.startsWith t b)
  /\ (forall e t : string,
         Js.endsWith e "/*" = false ->
         (Upload.type_matches t e = true <-> t = e))
  /\ (forall t : string, Upload.type_matches t "/*" = true)
  /\ (forall t : string,
         Js.startsWith t "*" = false ->
         Upload.type_matches t "*/*" = false).
Proof.
  assert (W : forall b t,
             Upload.type_matches t (b ++ "/*") = Js.startsWith t b).
  { intros b t. unfold Upload.type_matches.
    rewrite (endsWith_append b "/*" "/*") by reflexivity.
    now rewrite slice_wildcard. }
  split; [exact W |]. split; [| split].
  - intros e t He. unfold Upload.type_matches. rewrite He.
    apply String.eqb_eq.
  - intros t. transitivity (Js.startsWith t "");
      [exact (W "" t) | apply prefix_empty].
  - intros t Ht. transitivity (Js.startsWith t "*");
      [exact (W "*" t) | exact Ht].
Qed.

Lemma X2_entry_semantics_witness :
  Upload.type_matches "text/plain" "*/*" = false.
Proof.
  apply (proj2 (proj2 (proj2 X2_entry_semantics)) "text/plain").
  reflexivity.
Defined.

(** X3. The upload error middleware hands an error on exactly when it is
    not a multer error and its message does not contain "File type"; then
    it writes nothing and the error is unchanged. Every other error it
    answers itself with 400, a body with [success:false], an error text and
    a listed code, and no [timestamp] property. *)
Theorem X3_forwarding (cfg : Config) (e : JsError) (w : World) :
  (forwarded e = true ->
   Upload.handleMulterError cfg e w = (Next e, w))
  /\ (forwarded e = false ->
      exists b,
        Upload.handleMulterError cfg e w
        = (Done, answered w (mkResponse 400 b))
        /\ ErrorBody.basic b = true
        /\ ErrorBody.code_listed b = true
        /\ field "timestamp" b = None).
Proof.
  unfold forwarded, Upload.handleMulterError.
  destruct (err_class e).
  - destruct (Js.includes (err_message e) "File type"); split; intros H;
      try discriminate H; [| reflexivity].
    eexists; repeat split; reflexivity.
  - split; intros H; [discriminate H |].
    repeat match goal with
           | |- context [if ?c then _ else _] => destruct c
           end;
      eexists; repeat split; reflexivity.
Qed.

Lemma X3_forwarding_witness :
  exists b,
    Upload.handleMulterError Demo.cfg
      (Upload.new_MulterError "LIMIT_PART_COUNT") initial_world
    = (Done, answered initial_world (mkResponse 400 b))
    /\ ErrorBody.basic b = true
    /\ ErrorBody.code_listed b = true
    /\ field "timestamp" b = None.
Proof.
  apply (X3_forwarding Demo.cfg (Upload.new_MulterError "LIMIT_PART_COUNT")
           initial_world).
  reflexivity.
Defined.

(** ** The final error handler *)

(** X4. The body written by the final error handler always has the path
    and the method of the request, and has a [stack] property exactly when
    the configured environment is "development". *)
Theorem X4_stack_only_in_development (env : Env) (req : Request)
  (err : JsError) (w : World) :
  clock_ok env ->
  exists st b,
    ErrorHandler.errorHandler env req err w
    = (Ok tt, answered (ticked w) (mkResponse st b))
    /\ field "path" b = Some (JStr (req_path req))
    /\ field "method" b = Some (JStr (req_method req))
    /\ (nodeEnv (config env) = "development" ->
        field "stack" b = Some (JStr (err_stack err)))
    /\ (nodeEnv (config env) <> "development" -> field "stack" b = None).
Proof.
  intros Hc. destruct (now_iso_runs env w Hc) as (ts & _ & Hrun & _).
  unfold ErrorHandler.errorHandler.
  destruct (ErrorHandler.classify err) as [[st msg] code].
  unfold bind. rewrite Hrun.
  destruct (nodeEnv (config env) =? "development")%string eqn:E.
  - apply String.eqb_eq in E.
    do 2 eexists. split; [reflexivity |]. repeat split; try reflexivity.
    intros H; contradiction.
  - apply String.eqb_neq in E.
    do 2 eexists. split; [reflexivity |]. repeat split; try reflexivity.
    intros H; contradiction.
Qed.

Lemma X4_stack_only_in_development_witness :
  exists st b,
    ErrorHandler.errorHandler Demo.env Demo.req (new_Error "boom")
      initial_world
    = (Ok tt, answered (ticked initial_world) (mkResponse st b))
    /\ field "stack" b = Some (JStr "Error: boom").
Proof.
  destruct (X4_stack_only_in_development Demo.env Demo.req (new_Error "boom")
              initial_world demo_clock_ok)
    as (st & b & H & _ & _ & Hdev & _).
  exists st, b. split; [exact H | apply Hdev; reflexivity].
Defined.

(** X5. An error named ValidationError is answered 400 with code
    VALIDATION_ERROR and one named UnauthorizedError 401 with code
    UNAUTHORIZED, whatever status, code or message the error carries; the
    message is passed on as the error text. *)
Theorem X5_named_errors (env : Env) (req : Request) (err : JsError)
  (w : World) :
  clock_ok env ->
  (err_name err = "ValidationError" ->
   replies env req err w 400
           (Js.or_str (Some (err_message err)) "Internal Server Error")
           "VALIDATION_ERROR")
  /\ (err_name err = "UnauthorizedError" ->
      replies env req err w 401
              (Js.or_str (Some (err_message err)) "Internal Server Error")
              "UNAUTHORIZED").
Proof.
  intros Hc. split; intros Hn; apply errorHandler_replies; try assumption;
    unfold ErrorHandler.classify; rewrite Hn; reflexivity.
Qed.

Lemma X5_named_errors_witness :
  replies Demo.env Demo.req
    (mkError PlainError "UnauthorizedError" "No token" (Some "E_AUTH")
             (Some 418) "")
    initial_world 401 "No token" "UNAUTHORIZED".
Proof.
  apply (X5_named_errors Demo.env Demo.req
           (mkError PlainError "UnauthorizedError" "No token" (Some "E_AUTH")
                    (Some 418) "")
           initial_world demo_clock_ok).
  reflexivity.
Defined.

(** ** Failures of the backend *)

Ltac classify_wrapped :=
  unfold ErrorHandler.classify, backend_failure_answer;
  cbn [err_name err_message err_code err_statusCode new_Error];
  change ("Error" =? "ValidationError")%string with false;
  change ("Error" =? "UnauthorizedError")%string with false;
  cbv iota; simpl;
  repeat match goal with
         | |- context [Js.includes ?m ?p] => destruct (Js.includes m p)
         end; reflexivity.

Lemma classify_info (msg : string) :
  ErrorHandler.classify (new_Error ("File info failed: " ++ msg))
  = backend_failure_answer "File info failed: " msg.
Proof. classify_wrapped. Qed.

Lemma classify_delete (msg : string) :
  ErrorHandler.classify (new_Error ("Delete failed: " ++ msg))
  = backend_failure_answer "Delete failed: " msg.
Proof. classify_wrapped. Qed.

Lemma classify_url (msg : string) :
  ErrorHandler.classify (new_Error ("Failed to generate URL: " ++ msg))
  = backend_failure_answer "Failed to generate URL: " msg.
Proof. classify_wrapped. Qed.

Lemma classify_upload (msg : string) :
  ErrorHandler.classify (new_Error ("Upload failed: " ++ msg))
  = backend_failure_answer "Upload failed: " msg.
Proof. classify_wrapped. Qed.

Lemma classify_list (msg : string) :
  ErrorHandler.classify (new_Error ("List failed: " ++ msg))
  = backend_failure_answer "List failed: " msg.
Proof. classify_wrapped. Qed.

(** A guarded handler whose body throws the wrapped error of a backend
    failure: the final handler answers from the backend's message. *)
Lemma failure_served (env : Env) (req : Request) (body : M unit)
  (w w1 : World) (what msg : string) :
  clock_ok env ->
  body w = (Throw (new_Error (what ++ msg)), w1) ->
  ErrorHandler.classify (new_Error (what ++ msg))
  = backend_failure_answer what msg ->
  exists b,
    App.to_errorHandler env req (FileController.guarded body w)
    = (Done,
       answered (ticked w1)
         (mkResponse (fst (fst (backend_failure_answer what msg))) b))
    /\ ErrorBody.str_field "error" b
       = Some (snd (fst (backend_failure_answer what msg)))
    /\ ErrorBody.str_field "code" b
       = Some (snd (backend_failure_answer what msg)).
Proof.
  intros Hc Hb Hk.
  destruct (backend_failure_answer what msg) as [[st m] code].
  destruct (errorHandler_replies env req (new_Error (what ++ msg)) w1
              st m code Hc Hk)
    as (ts & b & _ & Hrun & _ & He & Hcode & _).
  exists b. unfold FileController.guarded, App.to_errorHandler.
  rewrite Hb, Hrun. cbn [fst snd]. auto.
Qed.

(** X6. When the backend call of the info, delete or URL route fails, the
    answer depends on the message of the backend's error only (its name,
    code and status are dropped by the service): 503 SERVICE_UNAVAILABLE
    when it contains "ECONNREFUSED", 500 BUCKET_NOT_FOUND for
    "NoSuchBucket", 403 ACCESS_DENIED for "AccessDenied", and otherwise
    500 INTERNAL_ERROR with the message behind the words of the operation;
    so a missing object is answered 500, never 404. Exactly the one call
    was made. *)
Theorem X6_backend_failures (env : Env) (req : Request) (name : string)
  (e : JsError) (w : World) :
  clock_ok env ->
  param_filename req = Some name ->
  name <> "" ->
  let bucket := bucketName (config env) in
  let expiry :=
    MinioService.expiry_or_default env (FileController.expiry_of req) in
  (be_statObject (backend env) (calls w) bucket name = inl e ->
   failure_answered env App.GetInfo req w (StatObject bucket name)
                    "File info failed: " e)
  /\ (be_removeObject (backend env) (calls w) bucket name = Some e ->
      failure_answered env App.DeleteFile req w (RemoveObject bucket name)
                       "Delete failed: " e)
  /\ (be_presignedGetObject (backend env) (calls w) bucket name expiry
      = inl e ->
      failure_answered env App.GetUrl req w
                       (PresignedGetObject bucket name expiry)
                       "Failed to generate URL: " e).
Proof.
  intros Hc Hname Hne bucket expiry.
  apply String.eqb_neq in Hne.
  assert (Ht : Js.truthy_str (param_filename req) = true)
    by (rewrite Hname; simpl; now rewrite Hne).
  assert (Ho : Js.or_str (param_filename req) "" = name)
    by (rewrite Hname; simpl; now rewrite Hne).
  split; [| split]; intros Hb; unfold failure_answered, App.serve;
    cbn [App.route_handler].
  - unfold FileController.getFileInfo. rewrite Ht, Ho.
    apply failure_served; [exact Hc | | apply classify_info].
    unfold bind at 1.
    unfold MinioService.getFileInfo, MinioService.rethrow, try_catch, bind,
      history, record_call.
    cbn [calls]. fold bucket. rewrite Hb. reflexivity.
  - unfold FileController.deleteFile. rewrite Ht, Ho.
    apply failure_served; [exact Hc | | apply classify_delete].
    unfold bind at 1.
    unfold MinioService.deleteFile, MinioService.rethrow, try_catch, bind,
      history, record_call.
    cbn [calls]. fold bucket. rewrite Hb. reflexivity.
  - unfold FileController.getFileUrl. rewrite Ht, Ho.
    apply failure_served; [exact Hc | | apply classify_url].
    unfold bind at 1.
    unfold MinioService.getPresignedUrl, MinioService.getPresignedUrl_started,
      MinioService.getPresignedUrl_finish, MinioService.started,
      MinioService.getPresignedUrl_issue, MinioService.rethrow, try_catch,
      MinioService.resume, MinioService.getPresignedUrl_settle,
      bind, history, record_call, ret.
    cbn [calls]. fold bucket. fold expiry. rewrite Hb. reflexivity.
Qed.

Lemma X6_backend_failures_witness :
  failure_answered missing_object_env App.GetInfo (info_request "gone.mp4")
    initial_world (StatObject "uploads" "gone.mp4") "File info failed: "
    not_found_error.
Proof.
  apply (X6_backend_failures missing_object_env (info_request "gone.mp4")
           "gone.mp4" not_found_error initial_world);
    [exact demo_clock_ok | reflexivity | discriminate | reflexivity].
Defined.

Example missing_object_is_answered_500 :
  map (fun r => (status r, ErrorBody.str_field "code" (body r),
                 ErrorBody.str_field "error" (body r)))
      (responses (snd (App.serve missing_object_env App.GetInfo
                         (info_request "gone.mp4") initial_world)))
  = [(500, Some "INTERNAL_ERROR", Some "File info failed: Not Found")].
Proof. reflexivity. Qed.

(** ** Uploading one file *)

Section Presign.

Variable env : Env.
Variable name : string.
Variable w : World.

Let bucket := bucketName (config env).
Let expiry := presignedUrl_expiry (config env).
Let presign := PresignedGetObject bucket name expiry.

Lemma getPresignedUrl_runs (url expiresAt : string) :
  be_presignedGetObject (backend env) (calls w) bucket name expiry
  = inr url ->
  Js.toISOString (clock env (clock_reads w) + expiry * 1000)
  = Some expiresAt ->
  MinioService.getPresignedUrl env name None w
  = (Ok (MinioService.mkUrlResult true url expiry expiresAt),
     ticked (called w presign)).
Proof.
  intros Hsign Hexp.
  unfold MinioService.getPresignedUrl, MinioService.getPresignedUrl_started,
    MinioService.getPresignedUrl_finish, MinioService.started,
    MinioService.getPresignedUrl_issue, MinioService.rethrow, try_catch,
    MinioService.resume, MinioService.getPresignedUrl_settle,
    MinioService.expiry_or_default, iso,
    bind, history, record_call, ret, Date_now.
  cbn [clock_reads uuids_drawn calls responses].
  fold bucket. fold expiry. rewrite Hsign.
  cbn [clock_reads uuids_drawn calls responses].
  rewrite Hexp. reflexivity.
Qed.

Lemma getPresignedUrl_fails (e : JsError) :
  be_presignedGetObject (backend env) (calls w) bucket name expiry
  = inl e ->
  MinioService.getPresignedUrl env name None w
  = (Throw (new_Error ("Failed to generate URL: " ++ err_message e)),
     called w presign).
Proof.
  intros Hsign.
  unfold MinioService.getPresignedUrl, MinioService.getPresignedUrl_started,
    MinioService.getPresignedUrl_finish, MinioService.started,
    MinioService.getPresignedUrl_issue, MinioService.rethrow, try_catch,
    MinioService.resume, MinioService.getPresignedUrl_settle,
    MinioService.expiry_or_default, iso,
    bind, history, record_call, ret, Date_now.
  cbn [clock_reads uuids_drawn calls responses].
  fold bucket. fold expiry. rewrite Hsign. reflexivity.
Qed.

End Presign.

Section UploadOne.

Variable env : Env.
Variable req : Request.
Variable file : File.
Variable w : World.
Variable d1 : string.

Hypothesis has_file : req_file req = Some file.
Hypothesis date1 :
  Js.toISOString (clock env (S (clock_reads w))) = Some d1.

Let customPath := FileController.customPath_of req.
Let key := object_key env (originalname file) customPath w.
Let put := put_call env file customPath w d1.
Let presign := presign_call env file customPath w.
Let bucket := bucketName (config env).
Let expiry := presignedUrl_expiry (config env).
Let meta := mkMetaData (mimetype file) (originalname file) d1.

(** The world once the put has been issued. *)
Let issued : World :=
  mkWorld (S (S (clock_reads w))) (S (uuids_drawn w)) (calls w ++ [put])
          (responses w).

Lemma uploadFile_issue_runs :
  MinioService.uploadFile_issue env file customPath w
  = (Ok (key,
         be_putObject (backend env) (calls w) bucket key (buffer file)
                      (size file) meta),
     issued).
Proof.
  unfold MinioService.uploadFile_issue, MinioService.generateUniqueFilename,
    now_iso, iso, bind, Date_now, draw_uuid, ret, history, record_call.
  cbn [clock_reads uuids_drawn calls responses].
  rewrite date1. reflexivity.
Qed.

Lemma uploadFile_runs (d2 : string) :
  Js.toISOString (clock env (S (S (clock_reads w)))) = Some d2 ->
  be_putObject (backend env) (calls w) bucket key (buffer file) (size file)
               meta = None ->
  MinioService.uploadFile env file customPath w
  = (Ok (MinioService.mkUploadResult true key (originalname file)
           (size file) (mimetype file) d2),
     ticked issued).
Proof.
  intros date2 Hput.
  unfold MinioService.uploadFile, MinioService.uploadFile_started,
    MinioService.started.
  unfold bind at 1. rewrite uploadFile_issue_runs, Hput.
  unfold MinioService.uploadFile_finish, MinioService.rethrow, try_catch,
    MinioService.resume, MinioService.uploadFile_settle, now_iso, iso,
    bind, ret, Date_now.
  cbn [fst snd clock_reads uuids_drawn calls responses issued].
  rewrite date2. reflexivity.
Qed.

Lemma uploadFile_fails (e : JsError) :
  be_putObject (backend env) (calls w) bucket key (buffer file) (size file)
               meta = Some e ->
  MinioService.uploadFile env file customPath w
  = (Throw (new_Error ("Upload failed: " ++ err_message e)), issued).
Proof.
  intros Hput.
  unfold MinioService.uploadFile, MinioService.uploadFile_started,
    MinioService.started.
  unfold bind at 1. rewrite uploadFile_issue_runs, Hput.
  reflexivity.
Qed.

(** X7. A single upload whose put and presign both succeed makes exactly
    these two calls, in this order and for one and the same key, and
    answers 201 with the stored object under that key and the URL the
    backend signed for it. *)
Theorem X7_upload_stores_then_signs (d2 url expiresAt : string) :
  Js.toISOString (clock env (S (S (clock_reads w)))) = Some d2 ->
  be_putObject (backend env) (calls w) bucket key (buffer file) (size file)
               meta = None ->
  be_presignedGetObject (backend env) (calls w ++ [put]) bucket key expiry
  = inr url ->
  Js.toISOString (clock env (S (S (S (clock_reads w)))) + expiry * 1000)
  = Some expiresAt ->
  exists w',
    FileController.uploadSingle env req w = (Done, w')
    /\ calls w' = (calls w ++ [put; presign])%list
    /\ responses w'
       = (responses w
          ++ [mkResponse 201
                (uploaded_body
                   (MinioService.mkUploadResult true key (originalname file)
                      (size file) (mimetype file) d2)
                   (MinioService.mkUrlResult true url expiry expiresAt))])%list.
Proof.
  intros date2 Hput Hsign Hexp. eexists. split; [| split].
  - unfold FileController.uploadSingle, FileController.guarded.
    rewrite has_file. fold customPath.
    unfold bind at 1. rewrite (uploadFile_runs d2 date2 Hput).
    unfold bind at 1. cbn [MinioService.up_objectName].
    rewrite (getPresignedUrl_runs env key (ticked issued) url expiresAt
               Hsign Hexp).
    reflexivity.
  - cbn [calls send snd ticked called issued].
    rewrite <- app_assoc. reflexivity.
  - reflexivity.
Qed.

(** The body of the single upload, as the controller writes it. *)
Let upload_body : M unit :=
  match req_file req with
  | None =>
      send 400 (JObj [("success", JBool false);
                      ("error", JStr "No file provided");
                      ("code", JStr "NO_FILE")])
  | Some f =>
      result <- MinioService.uploadFile env f
                  (FileController.customPath_of req) ;;
      urlResult <- MinioService.getPresignedUrl env
                     (MinioService.up_objectName result) None ;;
      send 201 (uploaded_body result urlResult)
  end.

(** X8. When the put fails, no URL is asked for: the put is the only
    call, and the answer is the one for the backend's message behind
    "Upload failed: ". When the put succeeds and the presign fails, the
    calls are the put and the presign and nothing else, so the stored
    object is left in place, and the answer is the one for the message
    behind "Failed to generate URL: ". *)
Theorem X8_upload_failures (e : JsError) :
  clock_ok env ->
  (be_putObject (backend env) (calls w) bucket key (buffer file) (size file)
                meta = Some e ->
   exists b w',
     App.to_errorHandler env req (FileController.uploadSingle env req w)
     = (Done, w')
     /\ calls w' = (calls w ++ [put])%list
     /\ responses w'
        = (responses w
           ++ [mkResponse
                 (fst (fst (backend_failure_answer "Upload failed: "
                              (err_message e)))) b])%list
     /\ ErrorBody.str_field "code" b
        = Some (snd (backend_failure_answer "Upload failed: "
                       (err_message e))))
  /\ (be_putObject (backend env) (calls w) bucket key (buffer file)
                   (size file) meta = None ->
      be_presignedGetObject (backend env) (calls w ++ [put]) bucket key
                            expiry = inl e ->
      exists b w',
        App.to_errorHandler env req (FileController.uploadSingle env req w)
        = (Done, w')
        /\ calls w' = (calls w ++ [put; presign])%list
        /\ responses w'
           = (responses w
              ++ [mkResponse
                    (fst (fst (backend_failure_answer
                                 "Failed to generate URL: "
                                 (err_message e)))) b])%list
        /\ ErrorBody.str_field "code" b
           = Some (snd (backend_failure_answer "Failed to generate URL: "
                          (err_message e)))).
Proof.
  intros Hc. split.
  - intros Hput.
    destruct (failure_served env req upload_body w issued
                "Upload failed: " (err_message e) Hc)
      as (b & Hrun & _ & Hcode).
    { unfold upload_body. rewrite has_file. fold customPath.
      unfold bind at 1. rewrite (uploadFile_fails e Hput). reflexivity. }
    { apply classify_upload. }
    exists b. eexists. split; [exact Hrun |].
    split; [reflexivity |]. split; [reflexivity | exact Hcode].
  - intros Hput Hsign.
    destruct (toISOString_defined _ (Hc (S (S (clock_reads w)))))
      as [d2 date2].
    destruct (failure_served env req upload_body w
                (called (ticked issued) presign)
                "Failed to generate URL: " (err_message e) Hc)
      as (b & Hrun & _ & Hcode).
    { unfold upload_body. rewrite has_file. fold customPath.
      unfold bind at 1. rewrite (uploadFile_runs d2 date2 Hput).
      unfold bind at 1. cbn [MinioService.up_objectName].
      rewrite (getPresignedUrl_fails env key (ticked issued) e Hsign).
      reflexivity. }
    { apply classify_url. }
    exists b. eexists. split; [exact Hrun |].
    split; [| split; [reflexivity | exact Hcode]].
    cbn [calls answered ticked called issued].
    rewrite <- app_assoc. reflexivity.
Qed.

End UploadOne.

Lemma X7_upload_stores_then_signs_witness :
  exists w',
    FileController.uploadSingle Demo.env upload_request initial_world
    = (Done, w')
    /\ calls w'
       = [PutObject "uploads" "clip_1700000000000_9b2e4f10.mp4" "hello" 5
            (mkMetaData "video/mp4" "clip.mp4" "2023-11-14T22:13:20.001Z");
          PresignedGetObject "uploads" "clip_1700000000000_9b2e4f10.mp4"
            3600].
Proof.
  destruct (X7_upload_stores_then_signs Demo.env upload_request Demo.clip
              initial_world "2023-11-14T22:13:20.001Z" eq_refl eq_refl
              "2023-11-14T22:13:20.002Z"
              "http://localhost:9000/uploads/clip_1700000000000_9b2e4f10.mp4"
              "2023-11-14T23:13:20.003Z" eq_refl eq_refl eq_refl eq_refl)
    as (w' & H & Hcalls & _).
  exists w'. split; [exact H | exact Hcalls].
Defined.

Lemma X8_upload_failures_witness :
  exists b w',
    App.to_errorHandler put_fails_env upload_request
      (FileController.uploadSingle put_fails_env upload_request
         initial_world) = (Done, w')
    /\ calls w'
       = [PutObject "uploads" "clip_1700000000000_9b2e4f10.mp4" "hello" 5
            (mkMetaData "video/mp4" "clip.mp4" "2023-11-14T22:13:20.001Z")]
    /\ responses w' = [mkResponse 503 b]
    /\ ErrorBody.str_field "code" b = Some "SERVICE_UNAVAILABLE".
Proof.
  destruct (X8_upload_failures put_fails_env upload_request Demo.clip
              initial_world "2023-11-14T22:13:20.001Z" eq_refl eq_refl
              refused demo_clock_ok) as [H _].
  exact (H eq_refl).
Defined.

(** ** The calls a route may make *)

Section Makes.

Variable P : Call -> bool.

Lemma makes_none {X} (f : World -> X * World) :
  (forall w, calls (snd (f w)) = calls w) -> makes P f.
Proof.
  intros H w. exists []. rewrite app_nil_r. split; [apply H | reflexivity].
Qed.

Lemma makes_bind {A B} (m : M A) (k : A -> M B) :
  makes P m -> (forall a, makes P (k a)) -> makes P (bind m k).
Proof.
  intros Hm Hk w. unfold bind. destruct (Hm w) as (cs & E & Hcs).
  destruct (m w) as [[a | e] w1]; cbn [snd] in *.
  - destruct (Hk a w1) as (cs' & E' & Hcs').
    exists (cs ++ cs')%list. rewrite E', E, app_assoc, forallb_app, Hcs, Hcs'.
    split; reflexivity.
  - exists cs. split; assumption.
Qed.

Lemma makes_try_catch {A} (m : M A) (h : JsError -> M A) :
  makes P m -> (forall e, makes P (h e)) -> makes P (try_catch m h).
Proof.
  intros Hm Hh w. unfold try_catch. destruct (Hm w) as (cs & E & Hcs).
  destruct (m w) as [[a | e] w1]; cbn [snd] in *.
  - exists cs. split; assumption.
  - destruct (Hh e w1) as (cs' & E' & Hcs').
    exists (cs ++ cs')%list. rewrite E', E, app_assoc, forallb_app, Hcs, Hcs'.
    split; reflexivity.
Qed.

Lemma makes_rethrow {A} (what : string) (m : M A) :
  makes P m -> makes P (MinioService.rethrow what m).
Proof.
  intros Hm. apply makes_try_catch; [exact Hm |].
  intros e. apply makes_none. reflexivity.
Qed.

Lemma makes_started {A} (m : M A) :
  makes P m -> makes P (MinioService.started m).
Proof.
  intros Hm w. unfold MinioService.started. destruct (Hm w) as (cs & E & Hcs).
  destruct (m w) as [r w1]. exists cs. split; assumption.
Qed.

Lemma makes_record (c : Call) : P c = true -> makes P (record_call c).
Proof.
  intros Hc w. exists [c]. simpl. rewrite Hc. split; reflexivity.
Qed.

Lemma makes_iso (ms : Z) : makes P (iso ms).
Proof.
  apply makes_none. intros w. unfold iso. destruct (Js.toISOString ms);
    reflexivity.
Qed.

Lemma makes_now_iso (env : Env) : makes P (now_iso env).
Proof.
  apply makes_bind; [apply makes_none; reflexivity | intros; apply makes_iso].
Qed.

Lemma makes_guarded (body : M unit) :
  makes P body -> makes P (FileController.guarded body).
Proof.
  intros Hb w. unfold FileController.guarded.
  destruct (Hb w) as (cs & E & Hcs).
  destruct (body w) as [[[] | e] w1]; exists cs; split; assumption.
Qed.

Lemma makes_unguarded (body : M unit) :
  makes P body -> makes P (FileController.unguarded body).
Proof.
  intros Hb w. unfold FileController.unguarded.
  destruct (Hb w) as (cs & E & Hcs).
  destruct (body w) as [[[] | e] w1]; exists cs; split; assumption.
Qed.

Lemma makes_errorHandler (env : Env) (req : Request) (err : JsError) :
  makes P (ErrorHandler.errorHandler env req err).
Proof.
  unfold ErrorHandler.errorHandler.
  destruct (ErrorHandler.classify err) as [[st msg] code].
  apply makes_bind; [apply makes_now_iso |].
  intros ts. apply makes_none. reflexivity.
Qed.

Lemma makes_to_errorHandler (env : Env) (req : Request)
  (h : World -> Outcome * World) :
  makes P h -> makes P (fun w => App.to_errorHandler env req (h w)).
Proof.
  intros Hh w. destruct (Hh w) as (cs & E & Hcs).
  unfold App.to_errorHandler.
  destruct (h w) as [[| e | e] w1]; cbn [snd] in *;
    try (exists cs; split; assumption).
  destruct (makes_errorHandler env req e w1) as (cs' & E' & Hcs').
  destruct (ErrorHandler.errorHandler env req e w1) as [[[] | e'] w2];
    cbn [snd] in *;
    exists (cs ++ cs')%list;
    rewrite E', E, app_assoc, forallb_app, Hcs, Hcs'; split; reflexivity.
Qed.

Lemma makes_start_all {A Q} (f : A -> M Q) (xs : list A) :
  (forall x, makes P (f x)) -> makes P (FileController.start_all f xs).
Proof.
  intros Hf. induction xs as [| x xs IH]; simpl.
  - apply makes_none. reflexivity.
  - apply makes_bind; [apply Hf |]. intros q.
    apply makes_bind; [exact IH |]. intros qs. apply makes_none. reflexivity.
Qed.

Lemma makes_settle_all {Q B} (k : Q -> M B) (ps : list Q) :
  (forall q, makes P (k q)) -> makes P (FileController.settle_all k ps).
Proof.
  intros Hk. induction ps as [| q ps IH]; simpl.
  - apply makes_none. reflexivity.
  - apply makes_bind; [apply makes_started, Hk |]. intros r.
    apply makes_bind; [exact IH |]. intros rs. apply makes_none. reflexivity.
Qed.

Lemma makes_all_settled {B} (rs : list (Result B)) :
  makes P (FileController.all_settled rs).
Proof.
  induction rs as [| [b | e] rs IH]; simpl.
  - apply makes_none. reflexivity.
  - apply makes_bind; [exact IH |]. intros bs. apply makes_none. reflexivity.
  - apply makes_none. reflexivity.
Qed.

End Makes.

Lemma makes_respond (P : Call -> bool) (cfg : Config) (e : JsError) :
  makes P (Upload.handleMulterError cfg e).
Proof.
  apply makes_none. intros w. unfold Upload.handleMulterError.
  destruct (err_class e);
    repeat match goal with |- context [if ?c then _ else _] => destruct c end;
    reflexivity.
Qed.

Lemma makes_uploadFile_started (P : Call -> bool) (env : Env) (file : File)
  (customPath : string) :
  (forall k buf sz m,
     P (PutObject (bucketName (config env)) k buf sz m) = true) ->
  makes P (MinioService.uploadFile_started env file customPath).
Proof.
  intros HP. unfold MinioService.uploadFile_started,
    MinioService.uploadFile_issue, MinioService.generateUniqueFilename.
  apply makes_started.
  repeat (apply makes_bind; [| intros ]);
    try (apply makes_none; reflexivity);
    try apply makes_iso.
  apply makes_record, HP.
Qed.

Lemma makes_uploadFile_finish (P : Call -> bool) (env : Env) (file : File)
  (r : Result (string * option JsError)) :
  makes P (MinioService.uploadFile_finish env file r).
Proof.
  unfold MinioService.uploadFile_finish, MinioService.uploadFile_settle.
  apply makes_rethrow. apply makes_bind.
  - destruct r; apply makes_none; reflexivity.
  - intros p. destruct (snd p).
    + apply makes_none; reflexivity.
    + apply makes_bind; [apply makes_now_iso |].
      intros d. apply makes_none; reflexivity.
Qed.

Lemma makes_getPresignedUrl_started (P : Call -> bool) (env : Env)
  (objectName : string) (expiry : option Z) :
  (forall k x, P (PresignedGetObject (bucketName (config env)) k x) = true) ->
  makes P (MinioService.getPresignedUrl_started env objectName expiry).
Proof.
  intros HP. unfold MinioService.getPresignedUrl_started,
    MinioService.getPresignedUrl_issue.
  apply makes_started.
  repeat (apply makes_bind; [| intros ]);
    try (apply makes_none; reflexivity).
  apply makes_record, HP.
Qed.

Lemma makes_getPresignedUrl_finish (P : Call -> bool) (env : Env)
  (expiry : option Z) (r : Result (JsError + string)) :
  makes P (MinioService.getPresignedUrl_finish env expiry r).
Proof.
  unfold MinioService.getPresignedUrl_finish,
    MinioService.getPresignedUrl_settle.
  apply makes_rethrow. apply makes_bind.
  - destruct r; apply makes_none; reflexivity.
  - intros [e | url].
    + apply makes_none; reflexivity.
    + apply makes_bind; [apply makes_none; reflexivity |]. intros now.
      apply makes_bind; [apply makes_iso |]. intros x.
      apply makes_none; reflexivity.
Qed.

Lemma makes_uploadSingle (P : Call -> bool) (env : Env) (req : Request) :
  (forall k buf sz m,
     P (PutObject (bucketName (config env)) k buf sz m) = true) ->
  (forall k x, P (PresignedGetObject (bucketName (config env)) k x) = true) ->
  makes P (FileController.uploadSingle env req).
Proof.
  intros Hput Hsign. unfold FileController.uploadSingle.
  apply makes_guarded. destruct (req_file req) as [file |].
  - apply makes_bind.
    + apply makes_bind; [apply makes_uploadFile_started, Hput |].
      intros r. apply makes_uploadFile_finish.
    + intros result. apply makes_bind.
      * apply makes_bind; [apply makes_getPresignedUrl_started, Hsign |].
        intros r. apply makes_getPresignedUrl_finish.
      * intros u. apply makes_none; reflexivity.
  - apply makes_none; reflexivity.
Qed.

Lemma makes_uploadMultiple (P : Call -> bool) (env : Env) (req : Request) :
  (forall k buf sz m,
     P (PutObject (bucketName (config env)) k buf sz m) = true) ->
  (forall k x, P (PresignedGetObject (bucketName (config env)) k x) = true) ->
  makes P (FileController.uploadMultiple env req).
Proof.
  intros Hput Hsign. unfold FileController.uploadMultiple.
  apply makes_guarded. destruct (FileController.no_files req).
  - apply makes_none; reflexivity.
  - apply makes_bind.
    { apply makes_start_all. intros file.
      apply makes_bind; [apply makes_uploadFile_started, Hput |].
      intros r. apply makes_none; reflexivity. }
    intros ps. apply makes_bind.
    { apply makes_settle_all. intros q. apply makes_uploadFile_finish. }
    intros settled. apply makes_bind; [apply makes_all_settled |].
    intros results. apply makes_bind.
    { apply makes_start_all. intros result.
      apply makes_getPresignedUrl_started, Hsign. }
    intros us. apply makes_bind.
    { apply makes_settle_all. intros q. apply makes_getPresignedUrl_finish. }
    intros urlSettled. apply makes_bind; [apply makes_all_settled |].
    intros urlResults. apply makes_none; reflexivity.
Qed.

Lemma makes_route_handler (env : Env) (r : App.Route) (req : Request) :
  makes (route_call env r) (App.route_handler env r req).
Proof.
  destruct r; cbn [App.route_handler].
  - unfold FileController.healthCheck. apply makes_unguarded.
    apply makes_try_catch.
    + apply makes_bind; [apply makes_none; reflexivity |]. intros h.
      apply makes_bind.
      * apply makes_record. unfold route_call. cbn. apply String.eqb_refl.
      * intros []. destruct (be_bucketExists _ _ _).
        -- apply makes_none; reflexivity.
        -- apply makes_bind; [apply makes_now_iso |]. intros ts.
           apply makes_none; reflexivity.
    + intros e. apply makes_bind; [apply makes_now_iso |]. intros ts.
      apply makes_none; reflexivity.
  - unfold App.post_upload. destruct (Upload.single _ _ _).
    + apply makes_respond.
    + apply makes_uploadSingle; intros; unfold route_call; cbn;
        apply String.eqb_refl.
  - unfold App.post_upload_multiple. destruct (Upload.array _ _ _ _).
    + apply makes_respond.
    + apply makes_uploadMultiple; intros; unfold route_call; cbn;
        apply String.eqb_refl.
  - unfold FileController.getFileUrl. apply makes_guarded.
    destruct (Js.truthy_str _); [| apply makes_none; reflexivity].
    apply makes_bind.
    + apply makes_bind.
      * apply makes_getPresignedUrl_started. intros. unfold route_call. cbn.
        apply String.eqb_refl.
      * intros r. apply makes_getPresignedUrl_finish.
    + intros u. apply makes_none; reflexivity.
  - unfold FileController.getFileInfo. apply makes_guarded.
    destruct (Js.truthy_str _); [| apply makes_none; reflexivity].
    apply makes_bind; [| intros; apply makes_none; reflexivity].
    unfold MinioService.getFileInfo. apply makes_rethrow.
    apply makes_bind; [apply makes_none; reflexivity |]. intros h.
    apply makes_bind.
    + apply makes_record. unfold route_call. cbn. apply String.eqb_refl.
    + intros []. destruct (be_statObject _ _ _ _); apply makes_none;
        reflexivity.
  - unfold FileController.listFiles. apply makes_guarded.
    apply makes_bind; [| intros; apply makes_none; reflexivity].
    unfold MinioService.listFiles. apply makes_bind.
    + apply makes_rethrow.
      apply makes_bind; [apply makes_none; reflexivity |]. intros h.
      apply makes_bind.
      * apply makes_record. unfold route_call. cbn. apply String.eqb_refl.
      * intros []. destruct (be_listObjects _ _ _ _ _); apply makes_none;
          reflexivity.
    + intros stream. destruct (stream_end stream); apply makes_none;
        reflexivity.
  - unfold FileController.deleteFile. apply makes_guarded.
    destruct (Js.truthy_str _); [| apply makes_none; reflexivity].
    apply makes_bind; [| intros; apply makes_none; reflexivity].
    unfold MinioService.deleteFile. apply makes_rethrow.
    apply makes_bind; [apply makes_none; reflexivity |]. intros h.
    apply makes_bind.
    + apply makes_record. unfold route_call. cbn. apply String.eqb_refl.
    + intros []. destruct (be_removeObject _ _ _ _); apply makes_none;
        reflexivity.
  - apply makes_none. intros w. unfold ErrorHandler.notFoundHandler.
    destruct (bind _ _ w) as [[[] | e] w1] eqn:E.
    all: revert E; unfold bind, now_iso, Date_now, iso, send, ret, throw;
      cbn; destruct (Js.toISOString _); intros E; inversion E; reflexivity.
Qed.

(** X9. Whatever the request and whatever the backend answers, serving a
    request only calls the backend operations of its own route, and only
    on the configured bucket: the health route asks whether the bucket
    exists, the upload routes store and sign, the url route signs, the
    info route stats, the list route lists, the delete route removes, and
    an unmatched request calls nothing.  In particular only the delete
    route ever removes an object. *)
Theorem X9_calls_of_a_route (env : Env) (r : App.Route) (req : Request)
  (w : World) :
  exists cs,
    calls (snd (App.serve env r req w)) = (calls w ++ cs)%list
    /\ forallb (route_call env r) cs = true
    /\ (r = App.Unmatched -> cs = [])
    /\ (r <> App.DeleteFile ->
        forall b k, ~ In (RemoveObject b k) cs).
Proof.
  destruct (makes_to_errorHandler (route_call env r) env req _
              (makes_route_handler env r req) w) as (cs & E & Hcs).
  exists cs. split; [exact E |]. split; [exact Hcs |]. split.
  - intros ->. destruct cs as [| c cs]; [reflexivity |].
    simpl in Hcs. unfold route_call in Hcs. simpl in Hcs. discriminate.
  - intros Hr b k Hin.
    rewrite forallb_forall in Hcs. specialize (Hcs _ Hin).
    unfold route_call in Hcs. destruct r; simpl in Hcs; try discriminate.
    apply Hr; reflexivity.
Qed.

Lemma makes_nothing {X} (f : World -> X * World) (w : World) :
  makes (fun _ => false) f -> calls (snd (f w)) = calls w.
Proof.
  intros H. destruct (H w) as ([| c cs] & E & Hcs).
  - rewrite E. apply app_nil_r.
  - discriminate Hcs.
Qed.

(** X10. An upload that multer refuses (a type outside the allow-list, a
    file over the size limit, too many files, a file under another field
    name) or that carries no file at all never reaches the storage
    backend: serving it makes no backend call, on either upload route. *)
Theorem X10_refused_upload_stores_nothing (env : Env) (parts : list File)
  (req : Request) (w : World) :
  ((forall f, Upload.single (config env) "file" parts <> inr (Some f))
   -> calls (snd (App.serve env (App.PostUpload parts) req w)) = calls w)
  /\ ((forall f fs,
         Upload.array (config env) "files" 10 parts <> inr (f :: fs))
      -> calls (snd (App.serve env (App.PostUploadMultiple parts) req w))
         = calls w).
Proof.
  split.
  - intros H. unfold App.serve.
    apply (makes_nothing
             (fun w => App.to_errorHandler env req
                         (App.route_handler env (App.PostUpload parts) req w))).
    apply makes_to_errorHandler. cbn [App.route_handler].
    unfold App.post_upload.
    destruct (Upload.single (config env) "file" parts) as [e | [f |]].
    + apply makes_respond.
    + exfalso. apply (H f). reflexivity.
    + apply makes_none. reflexivity.
  - intros H. unfold App.serve.
    apply (makes_nothing
             (fun w => App.to_errorHandler env req
                         (App.route_handler env (App.PostUploadMultiple parts)
                                            req w))).
    apply makes_to_errorHandler. cbn [App.route_handler].
    unfold App.post_upload_multiple.
    destruct (Upload.array (config env) "files" 10 parts) as [e | [| f fs]].
    + apply makes_respond.
    + apply makes_none. reflexivity.
    + exfalso. apply (H f fs). reflexivity.
Qed.

Lemma X10_refused_upload_stores_nothing_witness :
  calls (snd (App.serve Demo.env
                (App.PostUpload [mkFile "file" "a.txt" "text/plain" "" 0])
                Demo.req initial_world))
  = calls initial_world
  /\ calls (snd (App.serve Demo.env
                   (App.PostUploadMultiple
                      [mkFile "files" "a.txt" "text/plain" "" 0])
                   Demo.req initial_world))
     = calls initial_world.
Proof.
  split.
  - apply X10_refused_upload_stores_nothing.
    intros f. vm_compute. discriminate.
  - apply X10_refused_upload_stores_nothing.
    intros f fs. vm_compute. discriminate.
Defined.

(** ** Health *)

(** X11. The health check asks the backend once whether the bucket
    exists and never hands an error on: whenever the backend answers,
    whether the bucket is there or not, the reply is 200 with status
    "healthy" and the configured bucket name; when the backend call
    fails, the reply is 503 SERVICE_UNHEALTHY with status "unhealthy". *)
Theorem X11_health_ignores_the_answer (env : Env) (req : Request)
  (w : World) :
  clock_ok env ->
  let bucket := bucketName (config env) in
  exists st b w',
    App.serve env App.GetHealth req w = (Done, w')
    /\ calls w' = (calls w ++ [BucketExists bucket])%list
    /\ responses w' = (responses w ++ [mkResponse st b])%list
    /\ (forall present,
          be_bucketExists (backend env) (calls w) bucket = inr present ->
          st = 200
          /\ field "success" b = Some (JBool true)
          /\ health_status b = Some "healthy"
          /\ match field "data" b with
             | Some d => ErrorBody.str_field "bucket" d = Some bucket
             | None => False
             end)
    /\ (forall e,
          be_bucketExists (backend env) (calls w) bucket = inl e ->
          st = 503
          /\ ErrorBody.str_field "code" b = Some "SERVICE_UNHEALTHY"
          /\ health_status b = Some "unhealthy").
Proof.
  intros Hc bucket. unfold App.serve. cbn [App.route_handler].
  unfold FileController.healthCheck, FileController.unguarded, try_catch,
    bind, history, record_call.
  cbn [calls clock_reads uuids_drawn responses]. fold bucket.
  set (w1 := mkWorld (clock_reads w) (uuids_drawn w)
               (calls w ++ [BucketExists bucket]) (responses w)).
  destruct (now_iso_runs env w1 Hc) as (ts & _ & Hrun & _).
  destruct (be_bucketExists (backend env) (calls w) bucket)
    as [e | present].
  - unfold throw. cbv beta iota. rewrite Hrun. unfold send. cbn.
    do 3 eexists. split; [reflexivity |].
    split; [reflexivity |]. split; [reflexivity |].
    split; [intros ? H; discriminate H |].
    intros ? _. repeat split.
  - rewrite Hrun. unfold send. cbn.
    do 3 eexists. split; [reflexivity |].
    split; [reflexivity |]. split; [reflexivity |].
    split; [| intros ? H; discriminate H].
    intros ? _. repeat split.
Qed.

Lemma X11_health_ignores_the_answer_witness :
  exists b w',
    App.serve no_bucket_env App.GetHealth Demo.req initial_world = (Done, w')
    /\ responses w' = [mkResponse 200 b]
    /\ health_status b = Some "healthy".
Proof.
  destruct (X11_health_ignores_the_answer no_bucket_env Demo.req
              initial_world demo_clock_ok)
    as (st & b & w' & Hrun & _ & Hr & Hok & _).
  destruct (Hok false eq_refl) as (Hst & _ & Hh & _).
  exists b, w'. rewrite Hr, Hst. auto.
Defined.

(** ** Listings that fail *)

(** X12. A listing fails as a whole. Whether the backend refuses to open
    the stream or the stream breaks off with an error after any number of
    items, the route answers once, from the message of that error behind
    the single prefix "List failed: ", and none of the items already
    received is returned. *)
Theorem X12_list_failures (env : Env) (req : Request) (e : JsError)
  (w : World) :
  clock_ok env ->
  let bucket := bucketName (config env) in
  let p := Js.or_str (query_prefix req) "" in
  be_listObjects (backend env) (calls w) bucket p true = inl e
  \/ (exists items,
        be_listObjects (backend env) (calls w) bucket p true
        = inr (mkStream items (StreamError e))) ->
  failure_answered env App.GetList req w (ListObjects bucket p true)
                   "List failed: " e.
Proof.
  intros Hc bucket p Hb. unfold failure_answered, App.serve.
  cbn [App.route_handler]. unfold FileController.listFiles.
  apply failure_served; [exact Hc | | apply classify_list].
  unfold bind at 1.
  unfold MinioService.listFiles, MinioService.rethrow, try_catch.
  unfold bind at 1. unfold bind at 1. unfold history.
  unfold bind at 1. unfold record_call.
  cbn [calls]. fold bucket. fold p.
  destruct Hb as [Hb | (items & Hb)]; rewrite Hb; reflexivity.
Qed.

Lemma X12_list_failures_witness :
  failure_answered
    (broken_list_env [mkItem "a.txt" 1 0 "e1"; mkItem "b.txt" 2 0 "e2"]
                     refused)
    App.GetList Demo.req initial_world (ListObjects "uploads" "" true)
    "List failed: " refused.
Proof.
  apply (X12_list_failures
           (broken_list_env [mkItem "a.txt" 1 0 "e1"; mkItem "b.txt" 2 0 "e2"]
                            refused)
           Demo.req refused initial_world demo_clock_ok).
  right. eexists. reflexivity.
Defined.

(** ** Edges of the listing limit *)

(** X13. The limit of the list route is never 0: a query that says 0, or
    nothing that [parseInt] reads as a number, lists up to 1000.  A
    negative limit is taken as it is and lists nothing, and a stream that
    holds no more items than the limit is listed whole, in order. *)
Theorem X13_list_limit_edges (env : Env) (req : Request) (w : World)
  (stream : Stream) :
  let n := Js.or_num (Js.parseInt (query_limit req)) 1000 in
  let p := Js.or_str (query_prefix req) "" in
  stream_end stream = StreamEnded ->
  be_listObjects (backend env) (calls w) (bucketName (config env)) p true
  = inr stream ->
  exists files w',
    FileController.listFiles env req w = (Done, w')
    /\ responses w'
       = (responses w
          ++ [mkResponse 200
                (list_ok_body
                   (MinioService.mkListResult true files
                      (Z.of_nat (List.length files))))])%list
    /\ n <> 0
    /\ (Js.parseInt (query_limit req) = None
        \/ Js.parseInt (query_limit req) = Some 0 -> n = 1000)
    /\ (n < 0 -> files = [])
    /\ (Z.of_nat (List.length (stream_data stream)) <= n ->
        files = map entry_of (stream_data stream)).
Proof.
  intros n p Hend Hb.
  exists (map entry_of (firstn (Z.to_nat n) (stream_data stream))).
  eexists. split; [| split; [| split; [| split; [| split]]]].
  - unfold FileController.listFiles, FileController.guarded.
    unfold bind at 1.
    unfold MinioService.listFiles, MinioService.rethrow, try_catch, bind,
      history, record_call, ret.
    cbn [calls]. fold p. fold n. rewrite Hb. cbn [calls]. rewrite Hend.
    rewrite on_data_fold. cbn [List.length app].
    replace (n - Z.of_nat 0) with n by lia. unfold send. reflexivity.
  - reflexivity.
  - unfold n, Js.or_num. destruct (Js.parseInt (query_limit req)) as [k |];
      [| discriminate].
    destruct (Z.eqb_spec k 0); [discriminate | assumption].
  - unfold n. intros [-> | ->]; reflexivity.
  - intros Hn. replace (Z.to_nat n) with O by lia. reflexivity.
  - intros Hn. rewrite firstn_all2 by lia. reflexivity.
Qed.

Lemma X13_list_limit_edges_witness :
  exists w',
    FileController.listFiles Demo.env (list_request (Some "-5")) initial_world
    = (Done, w')
    /\ responses w'
       = [mkResponse 200
            (list_ok_body (MinioService.mkListResult true [] 0))].
Proof.
  destruct (X13_list_limit_edges Demo.env (list_request (Some "-5"))
              initial_world
              (mkStream [mkItem "a.txt" 1 0 "e1"; mkItem "b.txt" 2 0 "e2";
                         mkItem "c.txt" 3 0 "e3"] StreamEnded)
              eq_refl eq_refl)
    as (files & w' & Hrun & Hr & _ & _ & Hneg & _).
  exists w'. split; [exact Hrun |].
  rewrite Hr, (Hneg ltac:(vm_compute; reflexivity)). reflexivity.
Defined.

(** ** The expiry that is signed *)

(** X14. With a configuration read from the environment, the expiry
    handed to the backend is never 0: an [expiry] query that is missing,
    not a number or 0 gives way to the configured default, and a
    configured default that is missing, not a number or 0 gives way to
    3600.  Any other number of the query, negative ones included, is
    handed on as it is. *)
Theorem X14_expiry_never_zero (penv : string -> option string) (env : Env)
  (req : Request) :
  config env = load_config penv ->
  let expiry :=
    MinioService.expiry_or_default env (FileController.expiry_of req) in
  expiry <> 0
  /\ (Js.parseInt (query_expiry req) = None
      \/ Js.parseInt (query_expiry req) = Some 0 ->
      expiry = presignedUrl_expiry (config env))
  /\ (forall k, Js.parseInt (query_expiry req) = Some k -> k <> 0 ->
      expiry = k)
  /\ (Js.parseInt (penv "PRESIGNED_URL_EXPIRY") = None
      \/ Js.parseInt (penv "PRESIGNED_URL_EXPIRY") = Some 0 ->
      presignedUrl_expiry (config env) = 3600).
Proof.
  intros Hcfg expiry.
  assert (Hd : presignedUrl_expiry (config env) <> 0).
  { rewrite Hcfg. cbn [presignedUrl_expiry load_config]. unfold Js.or_num.
    destruct (Js.parseInt (penv "PRESIGNED_URL_EXPIRY")) as [k |];
      [| discriminate].
    destruct (Z.eqb_spec k 0); [discriminate | assumption]. }
  unfold expiry, MinioService.expiry_or_default, FileController.expiry_of.
  split; [| split; [| split]].
  - destruct (Js.parseInt (query_expiry req)) as [k |]; [| exact Hd].
    destruct (Z.eqb_spec k 0); [exact Hd | assumption].
  - intros [-> | ->]; reflexivity.
  - intros k -> Hk. apply Z.eqb_neq in Hk. rewrite Hk. reflexivity.
  - rewrite Hcfg. cbn [presignedUrl_expiry load_config].
    intros [-> | ->]; reflexivity.
Qed.

Lemma X14_expiry_never_zero_witness :
  MinioService.expiry_or_default Demo.env
    (FileController.expiry_of
       (mkRequest "GET" "/api/files/a.mp4/url" None None None None
                  (Some "0") None None (Some "a.mp4")))
  = 3600.
Proof.
  destruct (X14_expiry_never_zero (fun _ => None) Demo.env
              (mkRequest "GET" "/api/files/a.mp4/url" None None None None
                         (Some "0") None None (Some "a.mp4"))
              eq_refl) as (_ & H & _ & _).
  rewrite H; [reflexivity | right; reflexivity].
Defined.

(** ** What reaches the controller *)

Lemma decode_admits (cfg : Config) (name : string) :
  forall parts filesLeft seen fs,
    Upload.decode cfg name filesLeft seen parts = inr fs ->
    fs = map (Upload.stored (Upload.limit_fileSize (Upload.limits cfg)))
             (named_parts parts)
    /\ forallb (admitted cfg name) (named_parts parts) = true
    /\ Z.of_nat (List.length fs) <= Z.max 0 filesLeft
    /\ (parts <> [] -> seen + Z.of_nat (List.length parts) <= 10).
Proof.
  induction parts as [| f rest IH]; intros filesLeft seen fs;
    cbn [Upload.decode].
  - intros H; injection H as <-. repeat split; simpl; try lia.
    intros H; contradiction H; reflexivity.
  - change (Upload.limit_files (Upload.limits cfg)) with 10.
    destruct (Z.leb_spec 10 seen) as [Hs | Hs]; [discriminate |].
    cbn [named_parts filter]. fold (named_parts rest).
    destruct (originalname f =? "")%string eqn:En.
    { intros H. destruct (IH _ _ _ H) as (E & Ha & Hl & Hc).
      cbn [negb]. repeat split; try assumption.
      intros _. cbn [List.length]. destruct rest as [| g rest'].
      - simpl; lia.
      - specialize (Hc ltac:(discriminate)). cbn [List.length] in *. lia. }
    destruct (fieldname f =? name)%string eqn:Ef; cbn [negb orb];
      [| discriminate].
    destruct (Z.leb_spec filesLeft 0) as [Hf | Hf]; [discriminate |].
    unfold Upload.fileFilter.
    destruct (Upload.isAllowed _ _) eqn:Ea; [| discriminate].
    destruct (Upload.exceeds _ _) eqn:Ex; [discriminate |].
    destruct (Upload.decode cfg name (filesLeft - 1) (seen + 1) rest)
      as [e | fs'] eqn:Ed; [discriminate |].
    intros H; injection H as <-.
    destruct (IH _ _ _ Ed) as (E & Ha & Hl & Hc).
    split; [cbn [map]; now rewrite E |]. split.
    + cbn [forallb]. unfold admitted at 1. rewrite En, Ef, Ea, Ex. exact Ha.
    + split; [cbn [List.length]; lia |].
      intros _. cbn [List.length]. destruct rest as [| g rest'].
      * simpl; lia.
      * specialize (Hc ltac:(discriminate)). cbn [List.length] in *. lia.
Qed.

(** A part that is handed on is handed on whole, unless the limit is no
    whole number and lies below the size of the part. *)
Lemma stored_cut (cfg : Config) (name : string) (p : File) :
  admitted cfg name p = true ->
  Upload.stored (Upload.limit_fileSize (Upload.limits cfg)) p <> p ->
  exists q,
    Upload.limit_fileSize (Upload.limits cfg) = Js.Fin q
    /\ Upload.is_whole q = false
    /\ (q < inject_Z (size p))%Q
    /\ size (Upload.stored (Upload.limit_fileSize (Upload.limits cfg)) p)
       = Z.max 0 (Qfloor q).
Proof.
  unfold admitted. intros Ha Hs.
  apply andb_true_iff in Ha as [_ Hx]. apply negb_true_iff in Hx.
  revert Hs Hx. unfold Upload.stored, Upload.kept, Upload.exceeds.
  destruct (Upload.limit_fileSize (Upload.limits cfg)) as [| | q].
  - rewrite Z.ltb_irrefl. intros H; contradiction H; reflexivity.
  - rewrite Z.ltb_irrefl. intros H; contradiction H; reflexivity.
  - destruct (Z.ltb_spec (Z.max 0 (Z.min (size p) (Qfloor q))) (size p))
      as [Hk | Hk]; [| intros H; contradiction H; reflexivity].
    intros _ Hx. exists q. split; [reflexivity |].
    assert (Hfl : Qfloor q < size p) by lia.
    assert (Hlt : (q < inject_Z (size p))%Q).
    { apply (Qlt_le_trans _ (inject_Z (Qfloor q + 1))).
      - apply Qlt_floor.
      - rewrite <- Zle_Qle. lia. }
    assert (Hpos : 0 < size p) by lia.
    apply Z.ltb_lt in Hpos. rewrite Hpos in Hx. cbn [andb] in Hx.
    destruct (Upload.is_whole q) eqn:Ew.
    + exfalso. cbn [andb] in Hx.
      assert (Qle_bool q (inject_Z (size p)) = true)
        by (apply Qle_bool_iff, Qlt_le_weak, Hlt).
      congruence.
    + split; [reflexivity |]. split; [exact Hlt |].
      cbn [size]. lia.
Qed.

(** X15. What multer lets through to the controllers: the files handed
    on are the named parts of the body, one for one and in order, each
    under the expected field name, of an allowed type and not refused for
    its size; [single] hands on at most one file, [array] at most ten, and
    the body had at most ten file parts. A part is handed on as it came,
    except under a size limit that is no whole number: then a part longer
    than the limit is not refused but cut to the whole bytes below the
    limit. *)
Theorem X15_admitted_files (cfg : Config) (parts : list File) :
  let limit := Upload.limit_fileSize (Upload.limits cfg) in
  (forall f, Upload.single cfg "file" parts = inr (Some f) ->
             exists p, named_parts parts = [p]
                       /\ admitted cfg "file" p = true
                       /\ f = Upload.stored limit p)
  /\ (Upload.single cfg "file" parts = inr None -> named_parts parts = [])
  /\ (forall fs, Upload.array cfg "files" 10 parts = inr fs ->
                 fs = map (Upload.stored limit) (named_parts parts)
                 /\ forallb (admitted cfg "files") (named_parts parts) = true
                 /\ (List.length fs <= 10)%nat
                 /\ (List.length parts <= 10)%nat)
  /\ (forall name p,
        admitted cfg name p = true ->
        Upload.stored limit p <> p ->
        exists q, limit = Js.Fin q
                  /\ Upload.is_whole q = false
                  /\ (q < inject_Z (size p))%Q
                  /\ size (Upload.stored limit p) = Z.max 0 (Qfloor q)).
Proof.
  intros limit. split; [| split; [| split]].
  - intros f. unfold Upload.single.
    destruct (Upload.decode cfg "file" 1 0 parts) as [e | fs] eqn:E;
      [discriminate |].
    destruct (decode_admits _ _ _ _ _ _ E) as (En & Ha & Hl & _).
    fold limit in En.
    destruct (named_parts parts) as [| p [| p' ps]]; subst fs;
      cbn [map hd_error List.length] in *; try discriminate; try lia.
    intros H; injection H as <-. exists p. split; [reflexivity |].
    split; [| reflexivity].
    cbn [forallb] in Ha. now rewrite andb_true_r in Ha.
  - unfold Upload.single.
    destruct (Upload.decode cfg "file" 1 0 parts) as [e | fs] eqn:E;
      [discriminate |].
    destruct (decode_admits _ _ _ _ _ _ E) as (En & _).
    destruct (named_parts parts); subst fs;
      [reflexivity | discriminate].
  - intros fs E. unfold Upload.array in E.
    destruct (decode_admits _ _ _ _ _ _ E) as (En & Ha & Hl & Hc).
    repeat split; try assumption; [lia |].
    destruct parts as [| g parts']; [simpl; lia |].
    specialize (Hc ltac:(discriminate)). lia.
  - intros name p. apply stored_cut.
Qed.

Lemma X15_admitted_files_witness :
  exists p, named_parts [Demo.clip] = [p]
            /\ admitted (sized_cfg "1.5B") "file" p = true
            /\ mkFile "file" "clip.mp4" "video/mp4" "h" 1
               = Upload.stored (Js.Fin (3 # 2)) p.
Proof.
  apply (proj1 (X15_admitted_files (sized_cfg "1.5B") [Demo.clip])
           (mkFile "file" "clip.mp4" "video/mp4" "h" 1)).
  vm_compute. reflexivity.
Defined.

(** ** Origins *)

Lemma array_includes_In (xs : list string) (x : string) :
  Cors.array_includes xs x = true <-> In x xs.
Proof.
  unfold Cors.array_includes. rewrite existsb_exists. split.
  - intros (y & Hy & E). apply String.eqb_eq in E. now subst.
  - intros H. exists x. split; [exact H | apply String.eqb_refl].
Qed.


(** X16. The origin rule of the application: a request without an
    [Origin] header (or with an empty one) is always let through; one
    with an origin is let through exactly when that origin is one of the
    configured ones, compared as written, or when the configured ones
    include "*"; every other origin is refused with the error "Not
    allowed by CORS". *)
Theorem X16_origin_rule (c : Cors.CorsOrigin) (origin : option string) :
  (Cors.origin_callback c origin = None
   <-> origin = None \/ origin = Some ""
       \/ exists o, origin = Some o
                    /\ (In o (Cors.allowedOrigins c)
                        \/ In "*" (Cors.allowedOrigins c)))
  /\ (Cors.origin_callback c origin = None
      \/ Cors.origin_callback c origin = Some cors_rejection).
Proof.
  unfold Cors.origin_callback. destruct origin as [o |]; cbn [Js.truthy_str].
  - destruct (String.eqb_spec o "") as [-> | Hne]; cbn [negb].
    + split; [| left; reflexivity].
      split; [intros _; right; left; reflexivity | reflexivity].
    + cbn [Js.or_str]. apply String.eqb_neq in Hne. rewrite Hne.
      destruct (Cors.array_includes (Cors.allowedOrigins c) o) eqn:E1;
        cbn [orb].
      * split; [| left; reflexivity].
        split; [| reflexivity]. intros _. right; right. exists o.
        split; [reflexivity |]. left. now apply array_includes_In.
      * destruct (Cors.array_includes (Cors.allowedOrigins c) "*") eqn:E2.
        -- split; [| left; reflexivity].
           split; [| reflexivity]. intros _. right; right. exists o.
           split; [reflexivity |]. right. now apply array_includes_In.
        -- split; [| right; reflexivity].
           split; [discriminate |].
           intros [H | [H | (o' & H & [Hin | Hin])]]; try discriminate H.
           ++ injection H as ->. apply String.eqb_neq in Hne.
              contradiction Hne; reflexivity.
           ++ injection H as <-. apply array_includes_In in Hin.
              rewrite Hin in E1. discriminate.
           ++ apply array_includes_In in Hin. rewrite Hin in E2.
              discriminate.
  - split; [| left; reflexivity].
    split; [intros _; left; reflexivity | reflexivity].
Qed.

Lemma stops_snd_span (p : ascii -> bool) (l : list ascii) :
  stops p (snd (Js.span p l)).
Proof.
  destruct (Js.span p l) as [a b] eqn:E.
  destruct (span_spec p l a b E) as (_ & _ & H). exact H.
Qed.

Lemma trim_trimmed (s : string) : trimmed (Cors.trim s).
Proof.
  unfold trimmed, Cors.trim. rewrite list_ascii_of_string_of_list_ascii.
  unfold Cors.trim_l.
  set (A := snd (Js.span Js.isSpace (list_ascii_of_string s))).
  assert (HA : stops Js.isSpace A) by apply stops_snd_span.
  split.
  - destruct (Js.span Js.isSpace (rev A)) as [S R] eqn:E.
    destruct (span_spec Js.isSpace (rev A) S R E) as (ER & _ & _).
    cbn [snd].
    assert (EA : A = (rev R ++ rev S)%list).
    { rewrite <- rev_app_distr, <- ER. symmetry. apply rev_involutive. }
    destruct (rev R) as [| c r]; [exact I |].
    rewrite EA in HA. exact HA.
  - rewrite rev_involutive. apply stops_snd_span.
Qed.

(** X17. How [CORS_ORIGIN] is read: unset or empty, the one origin
    http://localhost:3000; without a comma, the text itself as the one
    origin, as written; with a comma, the pieces between the commas, one
    more than there are commas, each with the white space at its ends
    removed. *)
Theorem X17_cors_origin_of_env (v : option string) :
  (Js.truthy_str v = false ->
   Cors.allowedOrigins (Cors.corsOrigin_of_env v) = ["http://localhost:3000"])
  /\ (forall s, v = Some s -> s <> "" -> Js.includes s "," = false ->
      Cors.allowedOrigins (Cors.corsOrigin_of_env v) = [s])
  /\ (forall s, v = Some s -> Js.includes s "," = true ->
      Cors.allowedOrigins (Cors.corsOrigin_of_env v)
      = map Cors.trim (Js.split_char "," s)
      /\ Forall trimmed (Cors.allowedOrigins (Cors.corsOrigin_of_env v))).
Proof.
  unfold Cors.corsOrigin_of_env. split; [| split].
  - intros ->. reflexivity.
  - intros s -> Hne Hc. apply String.eqb_neq in Hne.
    cbn [Js.truthy_str Js.or_str]. rewrite Hne. cbn [negb].
    rewrite Hc. reflexivity.
  - intros s -> Hc. cbn [Js.truthy_str Js.or_str].
    destruct (String.eqb_spec s "") as [-> | Hne]; [discriminate Hc |].
    cbn [negb]. rewrite Hc. cbn [Cors.allowedOrigins].
    split; [reflexivity |].
    apply Forall_forall. intros x Hx. apply in_map_iff in Hx as (y & <- & _).
    apply trim_trimmed.
Qed.

Lemma X17_cors_origin_of_env_witness :
  Cors.allowedOrigins
    (Cors.corsOrigin_of_env (Some "https://a.example , https://b.example"))
  = ["https://a.example"; "https://b.example"].
Proof.
  destruct (X17_cors_origin_of_env
              (Some "https://a.example , https://b.example"))
    as (_ & _ & H).
  destruct (H _ eq_refl eq_refl) as [E _]. rewrite E. reflexivity.
Defined.


Lemma X16_origin_rule_witness :
  Cors.origin_callback
    (Cors.ManyOrigins ["https://a.example"; "*"]) (Some "https://b.example")
  = None.
Proof.
  apply (proj1 (X16_origin_rule
                  (Cors.ManyOrigins ["https://a.example"; "*"])
                  (Some "https://b.example"))).
  right; right. exists "https://b.example". split; [reflexivity |].
  right. simpl. auto.
Defined.


Lemma X9_calls_of_a_route_witness :
  exists cs,
    calls (snd (App.serve Demo.env App.GetList Demo.req initial_world))
    = (calls initial_world ++ cs)%list
    /\ forall b k, ~ In (RemoveObject b k) cs.
Proof.
  destruct (X9_calls_of_a_route Demo.env App.GetList Demo.req initial_world)
    as (cs & E & _ & _ & H).
  exists cs. split; [exact E |]. apply H. discriminate.
Defined.

(** ** Start-up *)

(** X19. Start-up asks once whether the bucket exists, provided the
    client could be built, and creates the bucket exactly when the backend
    answers that it does not exist. The application listens exactly when
    every step went through: the client was built, the bucket was there or
    was created, and [app.listen] did not throw. In every other case the
    process exits with code 1 and the application does not listen.
    Nothing happens after the listen or the exit. *)
Theorem X19_startup (be : Startup.Probe) (bucket : string)
  (port : Startup.Port) :
  let evs := Startup.startServer be bucket port in
  let bucket_ready :=
    Startup.probe_bucketExists be bucket = inr true
    \/ (Startup.probe_bucketExists be bucket = inr false
        /\ Startup.probe_makeBucket be bucket = None) in
  let ready :=
    Startup.probe_newClient be = None
    /\ bucket_ready
    /\ Startup.probe_listen be port = None in
  (Startup.probe_newClient be = None ->
   hd_error evs = Some (Startup.CheckBucket bucket))
  /\ (Startup.probe_newClient be <> None -> evs = [Startup.Exit 1])
  /\ (In (Startup.MakeBucket bucket) evs
      <-> Startup.probe_newClient be = None
          /\ Startup.probe_bucketExists be bucket = inr false)
  /\ (ready <-> last evs (Startup.Exit 0) = Startup.Listen port)
  /\ (~ ready <-> last evs (Startup.Exit 0) = Startup.Exit 1)
  /\ (In (Startup.Exit 1) evs -> ~ In (Startup.Listen port) evs).
Proof.
  intros evs bucket_ready ready.
  unfold evs, ready, bucket_ready, Startup.startServer, Startup.initialize.
  destruct (Startup.probe_newClient be) as [e0 |];
    destruct (Startup.probe_bucketExists be bucket) as [e | [|]];
    destruct (Startup.probe_makeBucket be bucket) as [e1 |];
    destruct (Startup.probe_listen be port) as [e2 |];
    cbn [app last hd_error In];
    repeat split; intros;
    try reflexivity; try discriminate;
    try solve [intuition (discriminate || congruence)];
    try solve [exfalso; intuition (discriminate || congruence)].
Qed.

Lemma X19_startup_witness :
  In (Startup.MakeBucket "uploads")
     (Startup.startServer
        (Startup.mkProbe None (fun _ => inr false) (fun _ => None)
                         (fun _ => None))
        "uploads" (Startup.PortNumber 3000))
  /\ last (Startup.startServer
             (Startup.mkProbe None (fun _ => inr false) (fun _ => None)
                              (fun _ => None))
             "uploads" (Startup.PortNumber 3000)) (Startup.Exit 0)
     = Startup.Listen (Startup.PortNumber 3000).
Proof.
  destruct (X19_startup
              (Startup.mkProbe None (fun _ => inr false) (fun _ => None)
                               (fun _ => None))
              "uploads" (Startup.PortNumber 3000))
    as (_ & _ & Hm & Hl & _).
  split; [apply Hm; split; reflexivity |].
  apply Hl. split; [reflexivity |]. split; [| reflexivity].
  right; split; reflexivity.
Defined.

(** ** The parts of a client's file name *)

Lemma span_lengths (p : ascii -> bool) (l a b : list ascii) :
  Js.span p l = (a, b) ->
  (List.length a + List.length b = List.length l)%nat.
Proof.
  intros E. destruct (span_spec p l a b E) as (-> & _).
  now rewrite length_app.
Qed.

Lemma last_portion_no_slash (p : list ascii) :
  forallb Path.notSlash (Path.last_portion p) = true.
Proof.
  unfold Path.last_portion. rewrite forallb_rev.
  destruct (Js.span Path.notSlash _) as [a b] eqn:E.
  destruct (span_spec _ _ _ _ E) as (_ & H & _). exact H.
Qed.

Lemma last_portion_length (p : list ascii) :
  (List.length (Path.last_portion p) <= List.length p)%nat.
Proof.
  unfold Path.last_portion. rewrite length_rev.
  destruct (Js.span Path.isSlash (rev p)) as [s r] eqn:E1.
  destruct (Js.span Path.notSlash (snd (s, r))) as [a b] eqn:E2.
  cbn [fst snd] in *.
  pose proof (span_lengths _ _ _ _ E1) as H1.
  pose proof (span_lengths _ _ _ _ E2) as H2.
  rewrite length_rev in H1. lia.
Qed.

Lemma strip_suffix_app (b suf : list ascii) :
  Path.strip_suffix suf (b ++ suf) = Some b.
Proof.
  unfold Path.strip_suffix. rewrite length_app.
  replace (List.length b + List.length suf - List.length suf)%nat
    with (List.length b + 0)%nat by lia.
  rewrite skipn_app, firstn_app.
  replace (List.length b + 0 - List.length b)%nat with O by lia.
  rewrite Nat.add_0_r, skipn_all, firstn_all. cbn [skipn firstn app].
  rewrite app_nil_r.
  destruct (list_eq_dec ascii_dec suf suf) as [_ | H];
    [reflexivity | contradiction H; reflexivity].
Qed.

(** The extension is empty, or a point and what follows the last point
    of a portion that has something before it. *)
Lemma extname_cases (p : list ascii) :
  Path.extname_l p = []
  \/ exists b x,
       b <> []
       /\ Path.last_portion p = (b ++ "."%char :: x)%list
       /\ Path.extname_l p = "."%char :: x
       /\ forallb Path.notDot x = true.
Proof.
  unfold Path.extname_l.
  set (comp := Path.last_portion p).
  destruct (Js.span Path.notDot (rev comp)) as [rext rest] eqn:E.
  destruct (span_spec _ _ _ _ E) as (Er & Hext & Hstop).
  destruct rest as [| dot rbase]; [left; reflexivity |].
  destruct rbase as [| c rbase']; [left; reflexivity |].
  destruct (list_eq_dec ascii_dec comp ["."%char; "."%char]);
    [left; reflexivity |].
  right. exists (rev (c :: rbase')), (rev rext).
  cbn [stops] in Hstop. unfold Path.notDot in Hstop.
  apply negb_false_iff, Ascii.eqb_eq in Hstop. subst dot.
  split; [| split; [| split]].
  - intros H. apply (f_equal (@List.length ascii)) in H.
    rewrite length_rev in H. discriminate H.
  - rewrite <- (rev_involutive comp), Er, rev_app_distr.
    cbn [rev]. rewrite <- !app_assoc. reflexivity.
  - reflexivity.
  - rewrite forallb_rev. exact Hext.
Qed.

Lemma basename_extname_l (p : list ascii) :
  (Path.basename_l p (Path.extname_l p) ++ Path.extname_l p)%list
  = Path.last_portion p.
Proof.
  destruct (extname_cases p) as [E | (b & x & Hb & Ec & Ee & _)].
  - rewrite E. unfold Path.basename_l. apply app_nil_r.
  - rewrite Ee. unfold Path.basename_l. rewrite Ec.
    pose proof (last_portion_length p) as Hl. rewrite Ec in Hl.
    rewrite length_app in Hl.
    assert (Hbl : (0 < List.length b)%nat)
      by (destruct b; [contradiction Hb; reflexivity | simpl; lia]).
    destruct (Nat.leb_spec (List.length ("."%char :: x)) (List.length p));
      [| lia].
    destruct (list_eq_dec ascii_dec ("."%char :: x) p) as [Hp | _].
    { rewrite <- Hp in Hl. lia. }
    destruct (b ++ "."%char :: x)%list as [| c l] eqn:Ebx.
    { destruct b; discriminate Ebx. }
    rewrite <- Ebx, strip_suffix_app.
    destruct b as [| c' b']; [contradiction Hb; reflexivity | reflexivity].
Qed.

(** X20. Whatever file name a client sends, the base name and the
    extension that go into the stored name are the two halves of the last
    portion of that name: directory parts never get into them, neither
    holds a "/", and the extension is empty or is the last "." of the
    portion with what follows it, the base name then not being empty. *)
Theorem X20_name_parts (name : string) :
  let ext := Path.extname name in
  let base := Path.basename name ext in
  base ++ ext
  = string_of_list_ascii (Path.last_portion (list_ascii_of_string name))
  /\ forallb Path.notSlash (list_ascii_of_string (base ++ ext)) = true
  /\ (ext = ""
      \/ exists x, ext = String "." x
                   /\ forallb Path.notDot (list_ascii_of_string x) = true
                   /\ base <> "").
Proof.
  intros ext base.
  assert (E : base ++ ext
              = string_of_list_ascii
                  (Path.last_portion (list_ascii_of_string name))).
  { unfold base, ext, Path.basename, Path.extname.
    rewrite list_ascii_of_string_of_list_ascii, <- string_of_app.
    now rewrite basename_extname_l. }
  split; [exact E |]. split.
  - rewrite E, list_ascii_of_string_of_list_ascii.
    apply last_portion_no_slash.
  - unfold base, ext, Path.basename, Path.extname.
    rewrite list_ascii_of_string_of_list_ascii.
    set (p := list_ascii_of_string name).
    pose proof (basename_extname_l p) as Hp.
    destruct (extname_cases p) as [E0 | (b & x & Hb & Ec & Ee & Hx)].
    + left. now rewrite E0.
    + right. exists (string_of_list_ascii x). rewrite Ee in *.
      split; [reflexivity |]. split.
      * now rewrite list_ascii_of_string_of_list_ascii.
      * rewrite Ec in Hp. apply app_inv_tail in Hp. rewrite Hp.
        destruct b; [contradiction Hb; reflexivity | discriminate].
Qed.

(** ** Generated names *)

Lemma uint_chars (d : Decimal.uint) :
  forallb numeral_char (list_ascii_of_string (NilEmpty.string_of_uint d))
  = true.
Proof.
  induction d; simpl; try reflexivity; exact IHd.
Qed.

Lemma Z_to_string_chars (z : Z) :
  forallb numeral_char (list_ascii_of_string (Js.Z_to_string z)) = true.
Proof.
  unfold Js.Z_to_string, NilZero.string_of_int, NilZero.string_of_uint.
  destruct (Z.to_int z) as [d | d]; destruct d; try reflexivity;
    try apply (uint_chars (_ _));
    cbn [list_ascii_of_string forallb]; apply (uint_chars (_ _)).
Qed.

Lemma Z_to_string_inj (a b : Z) :
  Js.Z_to_string a = Js.Z_to_string b -> a = b.
Proof.
  unfold Js.Z_to_string. intros H.
  assert (N : forall z, Z.to_int z <> Decimal.Pos Decimal.Nil
                        /\ Z.to_int z <> Decimal.Neg Decimal.Nil).
  { intros [| p | p]; simpl; split; try discriminate;
      intros E; injection E as E;
      exact (DecimalPos.Unsigned.to_uint_nonnil p E). }
  apply (f_equal NilZero.int_of_string) in H.
  rewrite !NilZero.isi in H by apply N.
  injection H as H. apply (f_equal Z.of_int) in H.
  now rewrite !DecimalZ.of_to in H.
Qed.

(** Two texts cut at the first occurrence of [c]. *)
Lemma first_cut (c : ascii) (p : ascii -> bool) :
  p c = false ->
  forall a1 a2 r1 r2 : list ascii,
    forallb p a1 = true -> forallb p a2 = true ->
    (a1 ++ c :: r1 = a2 ++ c :: r2)%list -> a1 = a2 /\ r1 = r2.
Proof.
  intros Hc. induction a1 as [| x a1 IH]; intros [| y a2] r1 r2 H1 H2 E;
    simpl in *.
  - injection E as E. auto.
  - injection E as -> _. apply andb_true_iff in H2 as [H2 _]. congruence.
  - injection E as -> _. apply andb_true_iff in H1 as [H1 _]. congruence.
  - injection E as -> E.
    apply andb_true_iff in H1 as [_ H1]. apply andb_true_iff in H2 as [_ H2].
    destruct (IH a2 r1 r2 H1 H2 E) as [-> ->]. auto.
Qed.

Lemma list_ascii_inj (a b : string) :
  list_ascii_of_string a = list_ascii_of_string b -> a = b.
Proof.
  intros H. rewrite <- (string_of_list_ascii_of_string a),
    <- (string_of_list_ascii_of_string b). now rewrite H.
Qed.

Lemma forallb_weaken (p q : ascii -> bool) (l : list ascii) :
  (forall c, p c = true -> q c = true) ->
  forallb p l = true -> forallb q l = true.
Proof.
  intros H. induction l as [| c l IH]; simpl; [reflexivity |].
  intros E. apply andb_true_iff in E as [E1 E2].
  now rewrite (H c E1), (IH E2).
Qed.

Lemma name_parts_no_slash (name : string) :
  forallb Path.notSlash
    (list_ascii_of_string
       (Path.basename name (Path.extname name) ++ Path.extname name))
  = true.
Proof.
  unfold Path.basename, Path.extname.
  rewrite list_ascii_of_string_of_list_ascii, <- string_of_app,
    basename_extname_l, list_ascii_of_string_of_list_ascii.
  apply last_portion_no_slash.
Qed.

(** X21. The stored name of a file is always produced, and for one and
    the same original name two stored names are equal only when both the
    clock reading and the first group of the UUID are: a different
    reading or a different group gives a different name.  The name has
    no "/" of its own as long as the UUID's first group has none, whatever
    the client's file name is. *)
Theorem X21_generated_names (env : Env) (name : string) (w1 w2 : World) :
  let t w := clock env (clock_reads w) in
  let g w := Js.split_first "-" (uuidv4 env (uuids_drawn w)) in
  exists n1 n2 w1' w2',
    MinioService.generateUniqueFilename env name w1 = (Ok n1, w1')
    /\ MinioService.generateUniqueFilename env name w2 = (Ok n2, w2')
    /\ (n1 = n2 <-> t w1 = t w2 /\ g w1 = g w2)
    /\ (forallb Path.notSlash (list_ascii_of_string (g w1)) = true ->
        forallb Path.notSlash (list_ascii_of_string n1) = true).
Proof.
  intros t g. do 4 eexists.
  split; [reflexivity |]. split; [reflexivity |].
  cbn [clock_reads uuids_drawn]. fold (t w1) (t w2) (g w1) (g w2).
  set (ext := Path.extname name). set (base := Path.basename name ext).
  split.
  - split.
    + intros E. apply (f_equal list_ascii_of_string) in E.
      rewrite !list_of_append in E. apply app_inv_head in E.
      cbn [list_ascii_of_string app] in E. injection E as E.
      rewrite <- !list_of_append in E.
      rewrite !list_of_append in E. cbn [list_ascii_of_string app] in E.
      apply (first_cut "_"%char numeral_char eq_refl) in E;
        try apply Z_to_string_chars.
      destruct E as [Et Eg]. split.
      * apply Z_to_string_inj, list_ascii_inj, Et.
      * apply app_inv_tail in Eg. apply list_ascii_inj, Eg.
    + intros [-> ->]. reflexivity.
  - intros Hg.
    pose proof (name_parts_no_slash name) as Hn.
    rewrite !list_of_append. cbn [list_ascii_of_string].
    rewrite !forallb_app. cbn [forallb].
    rewrite Hg.
    rewrite (forallb_weaken numeral_char Path.notSlash _
               ltac:(intros c; unfold numeral_char, Path.notSlash,
                       Path.isSlash, Js.isDigit;
                     destruct c as [[] [] [] [] [] [] [] []];
                     vm_compute; congruence)
               (Z_to_string_chars (t w1))).
    rewrite list_of_append, forallb_app in Hn.
    apply andb_true_iff in Hn as [Hb He].
    change (Path.extname name) with ext in Hb, He.
    change (Path.basename name ext) with base in Hb.
    rewrite Hb, He. reflexivity.
Qed.

Lemma X21_generated_names_witness :
  exists n1 w1',
    MinioService.generateUniqueFilename Demo.env "../../etc/passwd.mp4"
      initial_world = (Ok n1, w1')
    /\ forallb Path.notSlash (list_ascii_of_string n1) = true.
Proof.
  destruct (X21_generated_names Demo.env "../../etc/passwd.mp4"
              initial_world initial_world)
    as (n1 & n2 & w1' & w2' & H1 & _ & _ & Hs).
  exists n1, w1'. split; [exact H1 | apply Hs; reflexivity].
Defined.

(** ** Batches *)

Section Batch.

Variable env : Env.
Hypothesis clock_valid : clock_ok env.

Let bucket := bucketName (config env).

Lemma uploadFile_started_puts (f : File) (customPath : string) (w : World) :
  exists c w1,
    MinioService.uploadFile_started env f customPath w
    = (Ok (Ok (put_key c, put_result env (calls w) c)), w1)
    /\ calls w1 = (calls w ++ [c])%list
    /\ stores env f c.
Proof.
  destruct (toISOString_defined _ (clock_valid (S (clock_reads w))))
    as [d Hd].
  unfold MinioService.uploadFile_started, MinioService.started,
    MinioService.uploadFile_issue, MinioService.generateUniqueFilename,
    now_iso, iso, bind, Date_now, draw_uuid, ret, history, record_call.
  cbn [clock_reads uuids_drawn calls responses].
  rewrite Hd. cbn [clock_reads uuids_drawn calls responses].
  match goal with
  | |- context [(calls w ++ [?c0])%list] => exists c0
  end.
  eexists. split; [reflexivity |]. split; [reflexivity |].
  do 2 eexists. reflexivity.
Qed.

(** Starting the uploads of a batch: one put per file, in order. *)
Lemma start_uploads (customPath : string) :
  forall (files : list File) (w : World),
  exists ps w' puts,
    FileController.start_all
      (fun file =>
         r <- MinioService.uploadFile_started env file customPath ;;
         ret (file, r)) files w = (Ok ps, w')
    /\ calls w' = (calls w ++ puts)%list
    /\ Forall2 (stores env) files puts
    /\ map snd ps
       = map (fun cr => Ok (put_key (fst cr), snd cr))
             (combine puts (put_results env (calls w) puts)).
Proof.
  induction files as [| f files IH]; intros w.
  - exists [], w, []. cbn. rewrite app_nil_r. repeat split; constructor.
  - cbn [FileController.start_all].
    destruct (uploadFile_started_puts f customPath w)
      as (c & w1 & Hrun & Hc1 & Hst).
    destruct (IH w1) as (ps & w' & puts & Hs & Hc & Hf & Hk).
    unfold bind at 1. unfold bind at 1. rewrite Hrun. cbn [ret].
    unfold bind at 1. rewrite Hs.
    exists ((f, Ok (put_key c, put_result env (calls w) c)) :: ps), w',
      (c :: puts).
    split; [reflexivity |]. split; [| split].
    + rewrite Hc, Hc1, <- app_assoc. reflexivity.
    + constructor; assumption.
    + cbn [map snd fst put_results combine]. rewrite Hk, Hc1. reflexivity.
Qed.

(** Settling them makes no call; a put that went through gives a result
    that names its key, one that failed gives a rejection. *)
Lemma settle_uploads :
  forall (ps : list (File * Result (string * option JsError))) (w : World),
  exists rs w',
    FileController.settle_all
      (fun p => MinioService.uploadFile_finish env (fst p) (snd p)) ps w
    = (Ok rs, w')
    /\ calls w' = calls w
    /\ Forall2 (fun q r =>
                  forall key res, q = Ok (key, res) ->
                    match res with
                    | None =>
                        exists u, r = Ok u
                                  /\ MinioService.up_objectName u = key
                    | Some _ => exists e, r = Throw e
                    end) (map snd ps) rs.
Proof.
  induction ps as [| p ps IH]; intros w.
  - exists [], w. repeat split; constructor.
  - cbn [FileController.settle_all].
    destruct (MinioService.uploadFile_finish env (fst p) (snd p) w)
      as [r w1] eqn:E1.
    pose proof (makes_nothing _ w
                  (makes_uploadFile_finish _ env (fst p) (snd p))) as Hc1.
    rewrite E1 in Hc1. cbn [snd] in Hc1.
    destruct (IH w1) as (rs & w' & Hs & Hc & Hk).
    unfold bind at 1. unfold MinioService.started. rewrite E1.
    unfold bind at 1. rewrite Hs.
    do 2 eexists. split; [reflexivity |].
    split; [congruence |].
    cbn [map]. constructor; [| exact Hk].
    intros key res Hp. revert E1. rewrite Hp.
    unfold MinioService.uploadFile_finish, MinioService.rethrow, try_catch,
      MinioService.resume, MinioService.uploadFile_settle.
    unfold bind at 1. cbn [ret fst snd].
    destruct res as [e |].
    + unfold throw. intros H; injection H as <- _. eexists. reflexivity.
    + destruct (now_iso_runs env w clock_valid) as (d & _ & Hd & _).
      unfold bind. rewrite Hd. cbn [ret].
      intros H; injection H as <- _. eexists. split; reflexivity.
Qed.

Lemma all_settled_spec {B} (rs : list (Result B)) (w : World) :
  (exists bs, FileController.all_settled rs w = (Ok bs, w) /\ rs = map Ok bs)
  \/ (exists e, FileController.all_settled rs w = (Throw e, w)
                /\ In (Throw e) rs).
Proof.
  induction rs as [| [b | e] rs IH]; cbn [FileController.all_settled].
  - left. exists []. split; reflexivity.
  - destruct IH as [(bs & E & ->) | (e & E & Hin)].
    + left. exists (b :: bs). unfold bind. rewrite E. split; reflexivity.
    + right. exists e. unfold bind. rewrite E.
      split; [reflexivity | right; exact Hin].
  - right. exists e. split; [reflexivity | left; reflexivity].
Qed.

(** Starting the signing of the stored objects: one call per result. *)
Lemma start_signs :
  forall (us : list MinioService.UploadResult) (w : World),
  exists qs w',
    FileController.start_all
      (fun result =>
         MinioService.getPresignedUrl_started env
           (MinioService.up_objectName result) None) us w = (Ok qs, w')
    /\ calls w'
       = (calls w
          ++ map (fun u => PresignedGetObject bucket
                             (MinioService.up_objectName u)
                             (presignedUrl_expiry (config env))) us)%list.
Proof.
  induction us as [| u us IH]; intros w.
  - exists [], w. cbn. rewrite app_nil_r. split; reflexivity.
  - cbn [FileController.start_all map].
    unfold bind at 1.
    unfold MinioService.getPresignedUrl_started at 1, MinioService.started,
      MinioService.getPresignedUrl_issue, bind at 1, history, bind at 1,
      record_call, ret.
    cbn [calls clock_reads uuids_drawn responses
         MinioService.expiry_or_default].
    match goal with
    | |- context [bind _ _ ?w1] =>
        destruct (IH w1) as (qs & w' & Hs & Hc)
    end.
    unfold bind at 1. rewrite Hs.
    do 2 eexists. split; [reflexivity |].
    rewrite Hc. cbn [calls]. rewrite <- app_assoc. reflexivity.
Qed.

(** The results of a batch that settled well, against its puts. *)
Lemma settled_well (puts : list Call) :
  forall (h : list Call) (us : list MinioService.UploadResult),
    Forall2 (fun q r =>
               forall key res, q = Ok (key, res) ->
                 match res with
                 | None =>
                     exists u, r = Ok u
                               /\ MinioService.up_objectName u = key
                 | Some _ => exists e, r = Throw e
                 end)
            (map (fun cr => Ok (put_key (fst cr), snd cr))
                 (combine puts (put_results env h puts)))
            (map Ok us) ->
    Forall (fun r => r = None) (put_results env h puts)
    /\ map (fun u => PresignedGetObject bucket
                       (MinioService.up_objectName u)
                       (presignedUrl_expiry (config env))) us
       = map (sign_of env) puts.
Proof.
  induction puts as [| c puts IH]; intros h us H.
  - destruct us; [split; [constructor | reflexivity] | inversion H].
  - cbn [put_results combine map] in H.
    destruct us as [| u us]; [inversion H |].
    cbn [map] in H. inversion H as [| q r qs rs Hhead Htail]; subst.
    destruct (IH _ _ Htail) as [Hall Hkeys].
    specialize (Hhead _ _ eq_refl). cbn [fst snd] in Hhead.
    destruct (put_result env h c) as [e |] eqn:Er.
    + destruct Hhead as [e' He']. discriminate He'.
    + destruct Hhead as (u' & Hu & Hkey). injection Hu as <-.
      split.
      * cbn [put_results]. rewrite Er. constructor; [reflexivity | exact Hall].
      * cbn [map]. rewrite Hkeys. unfold sign_of at 2. rewrite Hkey.
        reflexivity.
Qed.

(** A rejection among the results comes from a put that failed. *)
Lemma settled_badly (puts : list Call) (e : JsError) :
  forall (h : list Call) (rs : list (Result MinioService.UploadResult)),
    Forall2 (fun q r =>
               forall key res, q = Ok (key, res) ->
                 match res with
                 | None =>
                     exists u, r = Ok u
                               /\ MinioService.up_objectName u = key
                 | Some _ => exists e, r = Throw e
                 end)
            (map (fun cr => Ok (put_key (fst cr), snd cr))
                 (combine puts (put_results env h puts)))
            rs ->
    In (Throw e) rs ->
    ~ Forall (fun r => r = None) (put_results env h puts).
Proof.
  induction puts as [| c puts IH]; intros h rs H Hin Hall.
  - inversion H; subst. destruct Hin.
  - cbn [put_results combine map] in H.
    inversion H as [| q r qs rs' Hhead Htail]; subst.
    cbn [put_results] in Hall.
    inversion Hall as [| x xs Hx Hxs]; subst.
    destruct Hin as [Hin | Hin].
    + specialize (Hhead _ _ eq_refl). cbn [fst snd] in Hhead.
      rewrite Hx in Hhead. destruct Hhead as (u & Hu & _).
      rewrite Hin in Hu. discriminate Hu.
    + exact (IH _ _ Htail Hin Hxs).
Qed.

(** X22. A batch is stored before anything is signed. Every file of the
    batch is put, one call per file in the order of the request, whether
    or not an earlier put fails; only then, and exactly when every put
    went through, a URL is signed for each stored key, in the same order
    and with the default expiry; when a put failed nothing is signed. A
    batch that is answered has made all of these calls. *)
Theorem X22_batch_order (req : Request) (files : list File) (w : World) :
  req_files req = Some files ->
  files <> [] ->
  exists puts signs,
    calls (snd (FileController.uploadMultiple env req w))
    = (calls w ++ puts ++ signs)%list
    /\ Forall2 (stores env) files puts
    /\ (signs = [] \/ signs = map (sign_of env) puts)
    /\ (signs = map (sign_of env) puts
        <-> Forall (fun r => r = None) (put_results env (calls w) puts))
    /\ (fst (FileController.uploadMultiple env req w) = Done ->
        signs = map (sign_of env) puts).
Proof.
  intros Hfiles Hne.
  destruct (FileController.uploadMultiple env req w) as [o wf] eqn:Erun.
  cbn [fst snd]. revert Erun.
  unfold FileController.uploadMultiple, FileController.no_files.
  rewrite Hfiles.
  destruct files as [| f0 files0]; [contradiction Hne; reflexivity |].
  set (files := f0 :: files0) in *.
  replace (Z.of_nat (List.length files) =? 0) with false
    by (symmetry; apply Z.eqb_neq; unfold files; cbn [List.length]; lia).
  destruct (start_uploads (FileController.customPath_of req) files w)
    as (ps & w1 & puts & Hs1 & Hc1 & Hst & Hk1).
  destruct (settle_uploads ps w1) as (rs & w2 & Hs2 & Hc2 & Hk2).
  rewrite Hk1 in Hk2.
  unfold FileController.guarded.
  unfold bind at 1. rewrite Hs1.
  unfold bind at 1. rewrite Hs2.
  unfold bind at 1.
  destruct (all_settled_spec rs w2) as [(us & Hs3 & Ers) | (e & Hs3 & Hin)];
    rewrite Hs3.
  - destruct (start_signs us w2) as (qs & w3 & Hs4 & Hc4).
    unfold bind at 1. rewrite Hs4.
    subst rs. destruct (settled_well _ _ _ Hk2) as [Hall Hkeys].
    match goal with
    | |- context [match ?m w3 with _ => _ end] =>
        pose proof (makes_nothing m w3) as Htail
    end.
    match type of Htail with
    | ?A -> _ =>
        assert (Hm : A);
          [| specialize (Htail Hm); clear Hm ]
    end.
    { apply makes_bind;
        [apply makes_settle_all; intros; apply makes_getPresignedUrl_finish |].
      intros urlSettled. apply makes_bind; [apply makes_all_settled |].
      intros urlResults. apply makes_none. reflexivity. }
    match goal with
    | |- context [match ?m w3 with _ => _ end] =>
        destruct (m w3) as [[[] | e] w4]
    end; cbn [fst snd] in *;
      intros H; injection H as <- <-;
      exists puts, (map (sign_of env) puts);
      (split; [rewrite Htail, Hc4, Hc2, Hc1, Hkeys, <- app_assoc;
               reflexivity |]);
      (split; [exact Hst |]); (split; [right; reflexivity |]);
      (split; [split; [intros _; exact Hall | reflexivity] |]);
      intros _; reflexivity.
  - intros H; injection H as <- <-.
    exists puts, []. rewrite app_nil_r.
    split; [rewrite Hc2, Hc1; reflexivity |].
    split; [exact Hst |]. split; [left; reflexivity |].
    split; [| intros H; discriminate H].
    split.
    + intros H. inversion Hst as [| f c fs cs _ _ Ef Ec]; subst.
      discriminate H.
    + intros Hall. exfalso. exact (settled_badly _ _ _ _ Hk2 Hin Hall).
Qed.

End Batch.

Lemma X22_batch_order_witness :
  exists puts,
    calls (snd (FileController.uploadMultiple put_fails_env
                  (batch_request [Demo.clip; Demo.clip]) initial_world))
    = (calls initial_world ++ puts)%list
    /\ Forall2 (stores put_fails_env) [Demo.clip; Demo.clip] puts.
Proof.
  destruct (X22_batch_order put_fails_env demo_clock_ok
              (batch_request [Demo.clip; Demo.clip]) [Demo.clip; Demo.clip]
              initial_world eq_refl ltac:(discriminate))
    as (puts & signs & Hc & Hst & Hsigns & Hiff & _).
  exists puts. split; [| exact Hst].
  destruct Hsigns as [-> | Hs]; [now rewrite app_nil_r in Hc |].
  exfalso. apply Hiff in Hs.
  inversion Hst as [| f c fs cs (k & d & ->) _ Ef Ec]; subst.
  cbn [put_results] in Hs. inversion Hs as [| x xs Hx _]; subst.
  discriminate Hx.
Defined.

(** ** Information and deletion *)

(** X23. When the backend knows the object, the info route answers 200
    with the name asked for and the size and entity tag of the object,
    and with [contentType], [originalName] and [uploadDate] exactly when
    the object's metadata has [content-type], [original-name] and
    [upload-date]: a missing entry leaves its field out.  When the backend
    removes the object, the delete route answers 200.  Each makes its one
    call and reads no clock. *)
Theorem X23_info_and_delete (env : Env) (req : Request) (name : string)
  (w : World) :
  param_filename req = Some name ->
  name <> "" ->
  let bucket := bucketName (config env) in
  (forall st,
      be_statObject (backend env) (calls w) bucket name = inr st ->
      exists b info,
        FileController.getFileInfo env req w
        = (Done, answered (called w (StatObject bucket name))
                          (mkResponse 200 b))
        /\ field "success" b = Some (JBool true)
        /\ info_of b = Some info
        /\ field "name" info = Some (JStr name)
        /\ field "size" info = Some (JNum (stat_size st))
        /\ field "etag" info = Some (JStr (stat_etag st))
        /\ forall k m, In (k, m) info_metadata ->
             field k info
             = option_map JStr
                 (MinioService.lookup_meta m (stat_metaData st)))
  /\ (be_removeObject (backend env) (calls w) bucket name = None ->
      exists b,
        FileController.deleteFile env req w
        = (Done, answered (called w (RemoveObject bucket name))
                          (mkResponse 200 b))
        /\ field "success" b = Some (JBool true)
        /\ ErrorBody.str_field "message" b
           = Some "File deleted successfully").
Proof.
  intros Hname Hne bucket.
  apply String.eqb_neq in Hne.
  assert (Ht : Js.truthy_str (param_filename req) = true)
    by (rewrite Hname; simpl; now rewrite Hne).
  assert (Ho : Js.or_str (param_filename req) "" = name)
    by (rewrite Hname; simpl; now rewrite Hne).
  split.
  - intros st Hb.
    unfold FileController.getFileInfo, FileController.guarded.
    rewrite Ht, Ho.
    unfold MinioService.getFileInfo, MinioService.rethrow, try_catch, bind,
      history, record_call, ret, send.
    cbn [calls clock_reads uuids_drawn responses]. fold bucket. rewrite Hb.
    do 2 eexists. split; [reflexivity |].
    split; [reflexivity |]. split; [reflexivity |].
    split; [reflexivity |]. split; [reflexivity |].
    split; [reflexivity |].
    intros k m Hin. unfold info_metadata in Hin.
    destruct Hin as [H | [H | [H | []]]]; injection H as <- <-;
      destruct (MinioService.lookup_meta "content-type" (stat_metaData st));
      destruct (MinioService.lookup_meta "original-name" (stat_metaData st));
      destruct (MinioService.lookup_meta "upload-date" (stat_metaData st));
      reflexivity.
  - intros Hb.
    unfold FileController.deleteFile, FileController.guarded.
    rewrite Ht, Ho.
    unfold MinioService.deleteFile, MinioService.rethrow, try_catch, bind,
      history, record_call, ret, send.
    cbn [calls clock_reads uuids_drawn responses]. fold bucket. rewrite Hb.
    eexists. split; [reflexivity |]. split; reflexivity.
Qed.

Lemma X23_info_and_delete_witness :
  exists b info,
    FileController.getFileInfo Demo.env (info_request "a.mp4") initial_world
    = (Done, answered (called initial_world (StatObject "uploads" "a.mp4"))
                      (mkResponse 200 b))
    /\ info_of b = Some info
    /\ field "contentType" info = Some (JStr "text/plain")
    /\ field "originalName" info = None.
Proof.
  destruct (X23_info_and_delete Demo.env (info_request "a.mp4") "a.mp4"
              initial_world eq_refl ltac:(discriminate)) as [H _].
  destruct (H _ eq_refl) as (b & info & Hrun & _ & Hi & _ & _ & _ & Hm).
  exists b, info. split; [exact Hrun |]. split; [exact Hi |].
  split; [apply (Hm "contentType" "content-type") |
          apply (Hm "originalName" "original-name")]; simpl; auto.
Defined.

(** X24. Without a file name in the route (absent or empty), the URL,
    info and delete handlers answer 400 MISSING_FILENAME at once: no
    backend call, no clock reading, nothing handed to the final
    handler. *)
Theorem X24_missing_filename (env : Env) (req : Request) (w : World) :
  param_filename req = None \/ param_filename req = Some "" ->
  FileController.getFileUrl env req w
  = (Done, answered w (mkResponse 400 missing_filename_body))
  /\ FileController.getFileInfo env req w
     = (Done, answered w (mkResponse 400 missing_filename_body))
  /\ FileController.deleteFile env req w
     = (Done, answered w (mkResponse 400 missing_filename_body)).
Proof.
  intros H.
  assert (Ht : Js.truthy_str (param_filename req) = false)
    by (destruct H as [-> | ->]; reflexivity).
  unfold FileController.getFileUrl, FileController.getFileInfo,
    FileController.deleteFile, FileController.guarded.
  rewrite Ht. repeat split; reflexivity.
Qed.

Lemma X24_missing_filename_witness :
  FileController.deleteFile Demo.env Demo.req initial_world
  = (Done, answered initial_world (mkResponse 400 missing_filename_body)).
Proof.
  apply (X24_missing_filename Demo.env Demo.req initial_world).
  left. reflexivity.
Defined.

(** ** The size limit is never negative *)

Lemma parseSize_nonneg (s : string) :
  Upload.parseSize s = Js.PInf
  \/ exists q, Upload.parseSize s = Js.Fin q /\ (0 <= q)%Q.
Proof.
  destruct (Upload.size_match (list_ascii_of_string s)) as [[num u] |] eqn:E.
  - destruct (size_match_sound _ _ _ E) as (number & bytes & Hr).
    rewrite (parseSize_reads _ _ _ Hr). unfold Js.times.
    destruct (Js.to_double number) as [| | a] eqn:Ea.
    + exfalso. exact (to_double_not_NaN _ Ea).
    + left. reflexivity.
    + destruct (Js.to_double (a * inject_Z bytes)) as [| | q] eqn:Eq.
      * exfalso. exact (to_double_not_NaN _ Eq).
      * left. reflexivity.
      * right. exists q. split; [reflexivity |].
        exact (to_double_nonneg _ _ Eq).
  - right. exists (inject_Z (10 * 1024 * 1024)). split.
    + unfold Upload.parseSize. rewrite E. reflexivity.
    + discriminate.
Qed.

(** X25. Whatever text the configuration gives as the maximal file
    size, the limit that results is a number and is not negative (it is
    infinite for a numeral too long for a binary64 value); an empty file
    is never refused for its size, and a file is refused for its size
    only if it has at least one byte. *)
Theorem X25_limit_not_negative (cfg : Config) (f : File) :
  (Upload.limit_fileSize (Upload.limits cfg) = Js.PInf
   \/ exists q, Upload.limit_fileSize (Upload.limits cfg) = Js.Fin q
                /\ (0 <= q)%Q)
  /\ (size f <= 0 ->
      Upload.exceeds (size f) (Upload.limit_fileSize (Upload.limits cfg))
      = false)
  /\ (Upload.exceeds (size f) (Upload.limit_fileSize (Upload.limits cfg))
      = true -> 1 <= size f).
Proof.
  assert (Hz : size f <= 0 ->
               Upload.exceeds (size f)
                 (Upload.limit_fileSize (Upload.limits cfg)) = false).
  { intros Hs. unfold Upload.exceeds.
    destruct (Upload.limit_fileSize (Upload.limits cfg)); try reflexivity.
    destruct (Z.ltb_spec 0 (size f)); [lia | reflexivity]. }
  split; [exact (parseSize_nonneg (maxFileSize (upload cfg))) |].
  split; [exact Hz |].
  intros He. destruct (Z_le_gt_dec (size f) 0) as [Hs | Hs]; [| lia].
  rewrite (Hz Hs) in He. discriminate.
Qed.

Lemma X25_limit_not_negative_witness :
  Upload.exceeds 0 (Upload.limit_fileSize (Upload.limits Demo.cfg)) = false.
Proof.
  apply (proj1 (proj2 (X25_limit_not_negative Demo.cfg
                         (mkFile "file" "empty.pdf" "application/pdf" "" 0)))).
  simpl. lia.
Defined.

(** ** The allow-list of the default configuration *)

(** X26. When [ALLOWED_FILE_TYPES] is not set, a file is accepted exactly
    when its type begins with "video" or with "image" or is
    "application/pdf".  When it is set to the empty text, the list is the
    one empty entry, and only a file with an empty type is accepted. *)
Theorem X26_default_allow_list (penv : string -> option string) (f : File) :
  (penv "ALLOWED_FILE_TYPES" = None ->
   (Upload.fileFilter (upload (load_config penv)) f = Upload.Accept
    <-> Js.startsWith (mimetype f) "video" = true
        \/ Js.startsWith (mimetype f) "image" = true
        \/ mimetype f = "application/pdf"))
  /\ (penv "ALLOWED_FILE_TYPES" = Some "" ->
      (Upload.fileFilter (upload (load_config penv)) f = Upload.Accept
       <-> mimetype f = "")).
Proof.
  unfold Upload.fileFilter.
  cbn [load_config upload allowedFileTypes]. split; intros ->.
  - cbn [Upload.isAllowed existsb]. unfold Upload.type_matches.
    change (Js.endsWith "video/*" "/*") with true.
    change (Js.endsWith "image/*" "/*") with true.
    change (Js.endsWith "application/pdf" "/*") with false.
    change (Js.slice "video/*" 0 (-2)) with "video".
    change (Js.slice "image/*" 0 (-2)) with "image".
    cbv iota zeta. rewrite orb_false_r.
    destruct (Js.startsWith (mimetype f) "video");
      [split; [intros _; left; reflexivity | reflexivity] |].
    destruct (Js.startsWith (mimetype f) "image");
      [split; [intros _; right; left; reflexivity | reflexivity] |].
    cbn [orb].
    destruct (String.eqb_spec (mimetype f) "application/pdf") as [E | E].
    + split; [intros _; right; right; exact E | reflexivity].
    + split; [discriminate |].
      intros [H | [H | H]]; try discriminate H. contradiction.
  - change (Js.split_char "," "") with [""].
    cbn [Upload.isAllowed existsb]. unfold Upload.type_matches.
    change (Js.endsWith "" "/*") with false. cbv iota.
    rewrite orb_false_r.
    destruct (String.eqb_spec (mimetype f) "") as [E | E].
    + split; [intros _; exact E | reflexivity].
    + split; [discriminate | contradiction].
Qed.

Lemma X26_default_allow_list_witness :
  Upload.fileFilter (upload (load_config (fun _ => None)))
    (mkFile "file" "notes.txt" "videotape" "x" 1)
  = Upload.Accept.
Proof.
  apply (proj1 (X26_default_allow_list (fun _ => None)
                  (mkFile "file" "notes.txt" "videotape" "x" 1)) eq_refl).
  left. reflexivity.
Defined.

Lemma X20_name_parts_witness :
  Path.basename "../shared/clip.final.mp4" ".mp4" ++ ".mp4"
  = "clip.final.mp4".
Proof.
  exact (proj1 (X20_name_parts "../shared/clip.final.mp4")).
Defined.
